(** * hls-server: the session / chunk / playlist core of [src/video.ts]

    A shallow embedding of the HLS upload server and the proofs of its
    specification.  The embedding follows the later of the two revisions
    of [video.ts] (the one with [loadSessionsFromFilesystem] and a
    client-supplied session id); [generateHLSPlaylist], the chunk upload
    route and the finalize route are the same in both.

    Modelling conventions.
    - A JavaScript string is a [string] of 8-bit code units; only the
      ASCII letters have a case.
    - A JavaScript number is an exact decimal ([number] below): the
      printed form follows Number::toString of ECMA-262, and a double is
      identified with the shortest decimal that denotes it.  [parseInt]
      rounds to binary64 (nearest, ties to even) and returns the exact
      value of the double, which is its shortest decimal below 2^53;
      [parseFloat] does not round, so it agrees with the engine on
      numerals of at most 15 significant digits inside the normal range.
    - The storage root [VIDEO_BASE_DIR] is a finite map from entry names
      to nodes; a session directory is the ordered listing [fs.readdir]
      returns, each name with the bytes stored under it.  A session id is
      one path component other than the dot names, and paths are POSIX.
    - Every route is a function from the server state to a response and
      the next state; exceptions are the [None]/[inl] results that the
      route's [try]/[catch] turns into a 500 response. *)

From Stdlib Require Import String Ascii ZArith NArith Lia Bool.
From Stdlib Require Import Sorting.Sorted Sorting.Permutation.
From stdpp Require Import gmap strings list fin_maps.

Local Open Scope string_scope.

(** ** Strings *)

Definition isDigit (c : ascii) : bool :=
  let n := N_of_ascii c in ((48 <=? n) && (n <=? 57))%N.

Definition isUpper (c : ascii) : bool :=
  let n := N_of_ascii c in ((65 <=? n) && (n <=? 90))%N.

(** [String.prototype.toLowerCase] on one code unit. *)
Definition lowerChar (c : ascii) : ascii :=
  if isUpper c then ascii_of_N (N_of_ascii c + 32) else c.

Fixpoint toLowerCase (s : string) : string :=
  match s with
  | EmptyString => EmptyString
  | String c s' => String (lowerChar c) (toLowerCase s')
  end.

(** StrWhiteSpaceChar among the code units below 256. *)
Definition isWhiteSpace (c : ascii) : bool :=
  let n := N_of_ascii c in
  ((n =? 9) || (n =? 10) || (n =? 11) || (n =? 12) || (n =? 13) || (n =? 32)
   || (n =? 160))%N.

Fixpoint trimStart (s : string) : string :=
  match s with
  | String c s' => if isWhiteSpace c then trimStart s' else s
  | EmptyString => EmptyString
  end.

(** [stripPrefix p s] is [Some r] when [s = p ++ r]. *)
Fixpoint stripPrefix (p s : string) : option string :=
  match p, s with
  | EmptyString, _ => Some s
  | String a p', String b s' =>
      if Ascii.eqb a b then stripPrefix p' s' else None
  | String _ _, EmptyString => None
  end.

(** The same, ignoring the case of ASCII letters (the [i] flag). *)
Fixpoint stripPrefixCI (p s : string) : option string :=
  match p, s with
  | EmptyString, _ => Some s
  | String a p', String b s' =>
      if Ascii.eqb (lowerChar a) (lowerChar b) then stripPrefixCI p' s' else None
  | String _ _, EmptyString => None
  end.

Definition eqCI (a b : string) : bool :=
  String.eqb (toLowerCase a) (toLowerCase b).

(** [s.includes(needle)]. *)
Fixpoint includes (needle s : string) : bool :=
  match stripPrefix needle s with
  | Some _ => true
  | None =>
      match s with
      | EmptyString => false
      | String _ s' => includes needle s'
      end
  end.

(** The longest prefix of decimal digits ([\d+], greedy) and what follows. *)
Fixpoint spanDigits (s : string) : string * string :=
  match s with
  | String c s' =>
      if isDigit c then let (ds, r) := spanDigits s' in (String c ds, r)
      else (EmptyString, s)
  | EmptyString => (EmptyString, EmptyString)
  end.

Definition isEmpty (s : string) : bool :=
  match s with EmptyString => true | _ => false end.

(** [String(x).padStart(n, '0')]. *)
Fixpoint zeros (n : nat) : string :=
  match n with O => EmptyString | S n' => String "0"%char (zeros n') end.

Definition padStart0 (n : nat) (s : string) : string :=
  zeros (n - String.length s) ++ s.

(** [path.basename] (POSIX): drop the trailing slashes, keep what follows
    the last remaining slash.  The two helpers work on the reversed path. *)
Fixpoint dropSlashes (s : list ascii) : list ascii :=
  match s with
  | c :: s' => if Ascii.eqb c "/"%char then dropSlashes s' else s
  | [] => []
  end.

Fixpoint takeComponent (s : list ascii) : list ascii :=
  match s with
  | c :: s' => if Ascii.eqb c "/"%char then [] else c :: takeComponent s'
  | [] => []
  end.

Definition basename (p : string) : string :=
  string_of_list_ascii
    (rev (takeComponent (dropSlashes (rev (list_ascii_of_string p))))).

(** ** The regular expressions of [video.ts] *)

(** The alternation [(mp4|m4s)] after a literal dot, anchored at the end
    of the input: what remains must be exactly the extension. *)
Definition isMediaExt (r : string) : bool :=
  eqCI r ".mp4" || eqCI r ".m4s".

(** [/\.(mp4|m4s)$/i.test(f)]: some suffix of [f] is a media extension. *)
Fixpoint hasMediaExt (f : string) : bool :=
  isMediaExt f ||
  match f with
  | EmptyString => false
  | String _ f' => hasMediaExt f'
  end.

(** [f.match(/^chunk(\d+)\.(mp4|m4s)$/i)]: the first capture group, the
    digits.  The digit run is followed by a dot, so it is the maximal run. *)
Definition matchChunk (f : string) : option string :=
  match stripPrefixCI "chunk" f with
  | None => None
  | Some r =>
      let (ds, rest) := spanDigits r in
      if negb (isEmpty ds) && isMediaExt rest then Some ds else None
  end.

(** [content.match(/#EXT-X-TARGETDURATION:(\d+)/)]: the leftmost position
    where the tag is followed by a digit; the capture is the digit run. *)
Definition targetDurationHere (s : string) : option string :=
  match stripPrefix "#EXT-X-TARGETDURATION:" s with
  | None => None
  | Some r =>
      let (ds, _) := spanDigits r in
      if isEmpty ds then None else Some ds
  end.

Fixpoint matchTargetDuration (s : string) : option string :=
  match targetDurationHere s with
  | Some ds => Some ds
  | None =>
      match s with
      | EmptyString => None
      | String _ s' => matchTargetDuration s'
      end
  end.

(** ** Numbers *)

(** A number is NaN, an infinity, a signed zero, or the non-zero finite
    value [(-1)^neg * m * 10^e]. *)
Inductive number : Type :=
| NaN
| Inf (neg : bool)
| Zero (neg : bool)
| Fin (neg : bool) (m : positive) (e : Z).

Definition ofN (x : N) : number :=
  match x with N0 => Zero false | Npos m => Fin false m 0 end.

Definition isNaN (x : number) : bool :=
  match x with NaN => true | _ => false end.

(** [x <= 0] *)
Definition leZero (x : number) : bool :=
  match x with
  | NaN => false
  | Inf neg => neg
  | Zero _ => true
  | Fin neg _ _ => neg
  end.

(** [x < 0] and [0 < x] *)
Definition ltZero (x : number) : bool :=
  match x with Inf neg | Fin neg _ _ => neg | _ => false end.

Definition gtZero (x : number) : bool :=
  match x with Inf neg | Fin neg _ _ => negb neg | _ => false end.

(** ToBoolean on a number: NaN and the zeros are falsy. *)
Definition numberTruthy (x : number) : bool :=
  match x with NaN | Zero _ => false | _ => true end.

Definition negate (x : number) : number :=
  match x with
  | NaN => NaN
  | Inf neg => Inf (negb neg)
  | Zero neg => Zero (negb neg)
  | Fin neg m e => Fin (negb neg) m e
  end.

Definition signed (neg : bool) (m : positive) : Z :=
  if neg then Zneg m else Zpos m.

Definition ofScaled (d e : Z) : number :=
  match d with
  | Z0 => Zero false
  | Zpos p => Fin false p e
  | Zneg p => Fin true p e
  end.

Definition add (a b : number) : number :=
  match a, b with
  | NaN, _ | _, NaN => NaN
  | Inf s, Inf t => if Bool.eqb s t then Inf s else NaN
  | Inf s, _ => Inf s
  | _, Inf t => Inf t
  | Zero s, Zero t => Zero (s && t)
  | Zero _, x => x
  | x, Zero _ => x
  | Fin s m e, Fin t p f =>
      let b := Z.min e f in
      ofScaled (signed s m * 10 ^ (e - b) + signed t p * 10 ^ (f - b)) b
  end.

(** [a - b] *)
Definition sub (a b : number) : number := add a (negate b).

(** *** Decimal digits *)

Definition digitChar (d : N) : ascii := ascii_of_N (48 + d).
Definition digitVal (c : ascii) : N := N_of_ascii c - 48.

(** The value of a digit string, most significant digit first. *)
Definition valDigits (ds : list ascii) : N :=
  fold_left (fun acc c => 10 * acc + digitVal c)%N ds 0%N.

Fixpoint digitsFuel (fuel : nat) (x : N) : list ascii :=
  match fuel with
  | O => []
  | S fuel' =>
      if (x <? 10)%N then [digitChar x]
      else digitsFuel fuel' (x / 10) ++ [digitChar (x mod 10)]
  end.

(** The decimal digits of [x], without leading zeros ("0" for zero). *)
Definition digitsOfN (x : N) : list ascii :=
  digitsFuel (S (N.to_nat (N.size x))) x.

Definition isZeroChar (c : ascii) : bool := Ascii.eqb c "0"%char.

Fixpoint dropZeros (ds : list ascii) : list ascii :=
  match ds with
  | c :: ds' => if isZeroChar c then dropZeros ds' else ds
  | [] => []
  end.

Definition stripTrailingZeros (ds : list ascii) : list ascii :=
  rev (dropZeros (rev ds)).

(** *** Number::toString (radix 10) *)

(** [layout ds n]: the digits [ds] (k of them, no trailing zero) of a
    value [0.ds * 10^n], laid out as ECMA-262 Number::toString does. *)
Definition layout (ds : list ascii) (n : Z) : list ascii :=
  let k := Z.of_nat (length ds) in
  if (0 <? n)%Z && (n <=? 21)%Z then
    if (k <=? n)%Z then ds ++ repeat "0"%char (Z.to_nat (n - k))
    else firstn (Z.to_nat n) ds ++ "."%char :: skipn (Z.to_nat n) ds
  else if (-6 <? n)%Z && (n <=? 0)%Z then
    "0"%char :: "."%char :: repeat "0"%char (Z.to_nat (- n)) ++ ds
  else
    let x := (n - 1)%Z in
    let xs := (if (x <? 0)%Z then "-"%char else "+"%char)
                :: digitsOfN (Z.abs_N x) in
    match ds with
    | [] => []
    | [d] => d :: "e"%char :: xs
    | d :: rest => d :: "."%char :: rest ++ "e"%char :: xs
    end.

Definition toString (x : number) : string :=
  match x with
  | NaN => "NaN"
  | Inf false => "Infinity"
  | Inf true => "-Infinity"
  | Zero _ => "0"
  | Fin neg m e =>
      let ds0 := digitsOfN (Npos m) in
      let body := layout (stripTrailingZeros ds0) (Z.of_nat (length ds0) + e) in
      string_of_list_ascii (if neg then "-"%char :: body else body)
  end.

(** *** parseFloat and parseInt *)

(** An optional sign: whether it is a minus, and what follows it. *)
Definition readSign (s : string) : bool * string :=
  match s with
  | String c s' =>
      if Ascii.eqb c "-"%char then (true, s')
      else if Ascii.eqb c "+"%char then (false, s')
      else (false, s)
  | EmptyString => (false, s)
  end.

Definition digitsValue (ds : string) : N :=
  valDigits (list_ascii_of_string ds).

(** ExponentPart: [e] or [E], an optional sign, at least one digit.  An
    incomplete exponent is not part of the numeral. *)
Definition readExponent (s : string) : Z :=
  match s with
  | String c s' =>
      if Ascii.eqb (lowerChar c) "e"%char then
        let (neg, s1) := readSign s' in
        let (ds, _) := spanDigits s1 in
        if isEmpty ds then 0%Z
        else if neg then (- Z.of_N (digitsValue ds))%Z
        else Z.of_N (digitsValue ds)
      else 0%Z
  | EmptyString => 0%Z
  end.

(** The number [(-1)^neg * ds * 10^e], with the factors of ten moved from
    the digits to the exponent. *)
Definition normalize (neg : bool) (ds : list ascii) (e : Z) : number :=
  let ds' := stripTrailingZeros ds in
  match valDigits ds' with
  | N0 => Zero neg
  | Npos m => Fin neg m (e + Z.of_nat (length ds - length ds'))
  end.

(** StrUnsignedDecimalLiteral other than Infinity: digits, an optional
    fraction, an optional exponent; NaN when there is no digit. *)
Definition parseDecimal (neg : bool) (s : string) : number :=
  let (ip, r1) := spanDigits s in
  let (fp, r2) :=
    match r1 with
    | String c r =>
        if Ascii.eqb c "."%char then spanDigits r else (EmptyString, r1)
    | EmptyString => (EmptyString, r1)
    end in
  if isEmpty ip && isEmpty fp then NaN
  else normalize neg (list_ascii_of_string (ip ++ fp))
                 (readExponent r2 - Z.of_nat (String.length fp)).

(** [parseFloat(input)]: the longest prefix of the trimmed input that is
    a StrDecimalLiteral, NaN when there is none. *)
Definition parseFloat (input : string) : number :=
  let (neg, s) := readSign (trimStart input) in
  match stripPrefix "Infinity" s with
  | Some _ => Inf neg
  | None => parseDecimal neg s
  end.

(** The nearest binary64 value of a natural number, ties to even; [None]
    is the overflow to Infinity. *)
Definition roundToDouble (x : N) : option N :=
  let bits := N.size x in
  if (bits <=? 53)%N then Some x
  else
    let sh := (bits - 53)%N in
    let q := N.shiftr x sh in
    let r := N.land x (N.ones sh) in
    let half := N.shiftl 1 (sh - 1) in
    let q' := if (half <? r)%N || ((r =? half)%N && N.odd q)
              then (q + 1)%N else q in
    let v := N.shiftl q' sh in
    if (2 ^ 1024 <=? v)%N then None else Some v.

(** [parseInt(input, 10)]. *)
Definition parseInt (input : string) : number :=
  let (neg, s) := readSign (trimStart input) in
  let (ds, _) := spanDigits s in
  if isEmpty ds then NaN
  else
    match roundToDouble (digitsValue ds) with
    | None => Inf neg
    | Some N0 => Zero neg
    | Some (Npos m) => Fin neg m 0
    end.

(** *** The values a JSON body field can hold *)

Inductive jsvalue : Type :=
| JUndefined
| JNull
| JBool (b : bool)
| JNumber (x : number)
| JString (s : string).

(** ToBoolean, as used by [||], [&&] and [if]. *)
Definition truthy (v : jsvalue) : bool :=
  match v with
  | JUndefined | JNull => false
  | JBool b => b
  | JNumber x => numberTruthy x
  | JString s => negb (isEmpty s)
  end.

(** [v.toString()]; calling it on [undefined] or [null] throws. *)
Definition valueToString (v : jsvalue) : option string :=
  match v with
  | JUndefined | JNull => None
  | JBool true => Some "true"
  | JBool false => Some "false"
  | JNumber x => Some (toString x)
  | JString s => Some s
  end.

(** [a || b] *)
Definition orElse (a b : jsvalue) : jsvalue :=
  if truthy a then a else b.

(** ** Server state *)

Record SessionMetadata : Type := {
  sessionId : string;
  segmentDuration : number;
  createdAt : string
}.

(** An entry of the storage root: a stray regular file, or a session
    directory with its creation time and its listing. *)
Inductive node : Type :=
| File (content : string)
| Dir (birthtime : string) (entries : list (string * string)).

(** [storage] is the content of [VIDEO_BASE_DIR]; [sessionMetadata] is the
    process-wide [Map] of the same name. *)
Record server : Type := {
  storage : gmap string node;
  sessionMetadata : gmap string SessionMetadata
}.

Definition DEFAULT_SEGMENT_DURATION : number := Fin false 5 0.

Definition LF : string := String (ascii_of_nat 10) EmptyString.
Definition DQUOTE : string := String (ascii_of_nat 34) EmptyString.

Definition getSessionMetadata (st : server) (id : string) : option SessionMetadata :=
  sessionMetadata st !! id.

Definition cleanupSessionMetadata (id : string) (st : server) : server :=
  {| storage := storage st; sessionMetadata := delete id (sessionMetadata st) |}.

Definition setSessionMetadata (id : string) (md : SessionMetadata) (st : server) : server :=
  {| storage := storage st; sessionMetadata := <[id := md]> (sessionMetadata st) |}.

(** *** File system operations on a session directory *)

(** [fs.readdir(sessionDir)]: the names, in listing order; throws when the
    path is missing or is not a directory. *)
Definition readdir (st : server) (id : string) : option (list string) :=
  match storage st !! id with
  | Some (Dir _ es) => Some (map fst es)
  | _ => None
  end.

(** [fs.access(sessionDir)] *)
Definition access (st : server) (id : string) : bool :=
  match storage st !! id with Some _ => true | None => false end.

(** [fs.mkdir(sessionDir, { recursive: true })]: creates the directory,
    succeeds when it is already there, throws when a file has the name. *)
Definition mkdir (now : string) (id : string) (st : server) : option server :=
  match storage st !! id with
  | None =>
      Some {| storage := <[id := Dir now []]> (storage st);
              sessionMetadata := sessionMetadata st |}
  | Some (Dir _ _) => Some st
  | Some (File _) => None
  end.

Fixpoint writeEntry (name content : string) (es : list (string * string))
  : list (string * string) :=
  match es with
  | [] => [(name, content)]
  | (n, c) :: es' =>
      if String.eqb n name then (name, content) :: es'
      else (n, c) :: writeEntry name content es'
  end.

Fixpoint readEntry (name : string) (es : list (string * string)) : option string :=
  match es with
  | [] => None
  | (n, c) :: es' => if String.eqb n name then Some c else readEntry name es'
  end.

(** [fs.writeFile(path.join(sessionDir, name), content)] *)
Definition writeFile (id name content : string) (st : server) : option server :=
  match storage st !! id with
  | Some (Dir t es) =>
      Some {| storage := <[id := Dir t (writeEntry name content es)]> (storage st);
              sessionMetadata := sessionMetadata st |}
  | _ => None
  end.

(** [fs.readFile(path.join(sessionDir, name), 'utf8')] *)
Definition readFile (st : server) (id name : string) : option string :=
  match storage st !! id with
  | Some (Dir _ es) => readEntry name es
  | _ => None
  end.

(** ** Playlist generation *)

(** The predicate of [files.find]: the lowercased name contains "init"
    and the name ends in a media extension. *)
Definition isInitFile (f : string) : bool :=
  includes "init" (toLowerCase f) && hasMediaExt f.

(** The predicate of [files.filter]. *)
Definition isChunkFile (f : string) : bool :=
  match matchChunk f with Some _ => true | None => false end.

(** [parseInt((f.match(...) || [])[1] || '0', 10)] *)
Definition chunkNumber (f : string) : number :=
  parseInt (match matchChunk f with
            | Some ds => if isEmpty ds then "0" else ds
            | None => "0"
            end).

(** The comparator handed to [sort]: [numA - numB]. *)
Definition compareChunks (a b : string) : number :=
  sub (chunkNumber a) (chunkNumber b).

(** [Array.prototype.sort] with a comparator: a stable sort; [b] goes
    before [a] only when the comparator is positive on [(a, b)] (a NaN
    result counts as zero). *)
Section Sort.
Context {A : Type} (cmp : A -> A -> number).

Fixpoint insertSorted (x : A) (l : list A) : list A :=
  match l with
  | [] => [x]
  | y :: l' =>
      if gtZero (cmp x y) then y :: insertSorted x l' else x :: y :: l'
  end.

Fixpoint sortWith (l : list A) : list A :=
  match l with
  | [] => []
  | x :: l' => insertSorted x (sortWith l')
  end.
End Sort.

Definition segmentFilesOf (files : list string) : list string :=
  sortWith compareChunks (List.filter isChunkFile files).

(** The segment duration the generator uses: the registered one when the
    session has metadata with a truthy duration, the default otherwise. *)
Definition resolveDuration (st : server) (id : string) : number :=
  match getSessionMetadata st id with
  | Some md =>
      if numberTruthy (segmentDuration md) then segmentDuration md
      else DEFAULT_SEGMENT_DURATION
  | None => DEFAULT_SEGMENT_DURATION
  end.

(** The [for] loop over [segmentFiles]. *)
Fixpoint segmentLines (d : number) (segs : list string) : string :=
  match segs with
  | [] => ""
  | f :: segs' =>
      "#EXTINF:" ++ toString d ++ ".000," ++ LF ++ f ++ LF
        ++ segmentLines d segs'
  end.

Definition mapLine (initFile : option string) : string :=
  match initFile with
  | Some f => "#EXT-X-MAP:URI=" ++ DQUOTE ++ f ++ DQUOTE ++ LF
  | None => ""
  end.

(** The text built from the listing [files] and the resolved duration. *)
Definition playlistText (files : list string) (d : number)
    (sequenceId : string) (isFinal : bool) : string :=
  let initFile := List.find isInitFile files in
  let segmentFiles := segmentFilesOf files in
  "#EXTM3U" ++ LF
  ++ "#EXT-X-VERSION:7" ++ LF
  ++ "#EXT-X-PLAYLIST-TYPE:EVENT" ++ LF
  ++ "#EXT-X-TARGETDURATION:" ++ toString d ++ LF
  ++ "#EXT-X-MEDIA-SEQUENCE:" ++ sequenceId ++ LF
  ++ mapLine initFile
  ++ LF
  ++ segmentLines d segmentFiles
  ++ (if isFinal then "#EXT-X-ENDLIST" ++ LF else "").

(** [generateHLSPlaylist(sessionId, sequenceId, isFinal)]; [None] is the
    rethrown [readdir] error.  The function reads the state only. *)
Definition generateHLSPlaylist (st : server) (id sequenceId : string)
    (isFinal : bool) : option string :=
  match readdir st id with
  | None => None
  | Some files =>
      Some (playlistText files (resolveDuration st id) sequenceId isFinal)
  end.

(** ** Routes *)

Inductive body : Type :=
| CreateSessionResponse (id uploadUrl playlistUrl : string) (duration : number)
| InitUploadResponse (init : string)
| ChunkUploadResponse (id filename : string) (size : nat)
| FinalizeResponse (id playlistUrl : string)
| ErrorResponse (error : string).

Record response : Type := { status : nat; payload : body }.

Definition reply (code : nat) (b : body) (st : server) : response * server :=
  ({| status := code; payload := b |}, st).

(** *** POST /video/sessions *)

Record CreateSessionRequest : Type := {
  reqSessionId : jsvalue;
  reqSegmentDuration : jsvalue
}.

(** [baseUrl] is what [getBaseUrl(ctx)] returns, [uuid] what [uuidv4()]
    returns and [now] what [new Date().toISOString()] returns. *)
Definition createSession (baseUrl uuid now : string)
    (req : CreateSessionRequest) (st : server) : response * server :=
  let failed := reply 500 (ErrorResponse "Failed to create video session") in
  let duration := orElse (reqSegmentDuration req) (JNumber DEFAULT_SEGMENT_DURATION) in
  match orElse (reqSessionId req) (JString uuid) with
  | JString id =>
      match mkdir now id st with
      | None => failed st
      | Some st1 =>
          match valueToString duration with
          | None => failed st1
          | Some text =>
              let parsedDuration := parseFloat text in
              if isNaN parsedDuration || leZero parsedDuration then
                reply 400 (ErrorResponse "segmentDuration must be a positive number") st1
              else
                let st2 :=
                  setSessionMetadata id
                    {| sessionId := id;
                       segmentDuration := parsedDuration;
                       createdAt := now |} st1 in
                reply 200
                  (CreateSessionResponse id
                     (baseUrl ++ "/video/sessions/" ++ id ++ "/chunks")
                     (baseUrl ++ "/video/sessions/" ++ id ++ "/playlist.m3u8")
                     parsedDuration) st2
          end
      end
  | _ => failed st
  end.

(** *** POST /video/sessions/:sessionId/chunks/:chunkId *)

(** The file multer stored in memory: its buffer is always there and its
    [size] is the buffer length. *)
Record UploadedFile : Type := {
  fieldname : string;
  originalname : option string;
  buffer : string
}.

Record ChunkUploadRequest : Type := {
  formIsFirst : option string;
  formFilename : option string;
  file : option UploadedFile
}.

Definition truthyName (o : option string) : bool :=
  match o with Some s => negb (isEmpty s) | None => false end.

(** [body.filename || file.originalname] *)
Definition clientFilenameOf (req : ChunkUploadRequest) : option string :=
  if truthyName (formFilename req) then formFilename req
  else match file req with Some f => originalname f | None => None end.

(** The name a numbered fragment is stored under when the client gives
    none: [segment_${String(chunkId).padStart(5, '0')}.mp4]. *)
Definition defaultSegmentName (chunkId : string) : string :=
  "segment_" ++ padStart0 5 chunkId ++ ".mp4".

Definition missingChunkField : string :=
  "Form data must include a binary " ++ DQUOTE ++ "chunk" ++ DQUOTE ++ " field.".

(** [String(body.isFirst) === 'true'] *)
Definition isFirstOf (req : ChunkUploadRequest) : bool :=
  match formIsFirst req with Some v => String.eqb v "true" | None => false end.

(** [clientFilename ? path.basename(clientFilename) : 'init.mp4'] *)
Definition initFilenameOf (req : ChunkUploadRequest) : string :=
  match clientFilenameOf req with
  | Some n => if isEmpty n then "init.mp4" else basename n
  | None => "init.mp4"
  end.

(** The name a numbered fragment is stored under: the base name of the
    client's file name, or the synthesized default. *)
Definition chunkFilenameOf (req : ChunkUploadRequest) (chunkId : string) : string :=
  match clientFilenameOf req with
  | Some n => if isEmpty n then defaultSegmentName chunkId else basename n
  | None => defaultSegmentName chunkId
  end.

Definition uploadChunk (now : string) (id chunkId : string)
    (req : ChunkUploadRequest) (st : server) : response * server :=
  let failed := reply 500 (ErrorResponse "Failed to process video chunk") in
  match file req with
  | None => reply 400 (ErrorResponse missingChunkField) st
  | Some f =>
      if negb (String.eqb (fieldname f) "chunk") then
        reply 400 (ErrorResponse missingChunkField) st
      else
        match mkdir now id st with
        | None => failed st
        | Some st1 =>
            if isFirstOf req then
              let initFilename := initFilenameOf req in
              if negb (hasMediaExt initFilename) then
                reply 400 (ErrorResponse
                  "Init must be uploaded as .mp4 or .m4s (fragmented MP4 init)") st1
              else
                match writeFile id initFilename (buffer f) st1 with
                | None => failed st1
                | Some st2 => reply 200 (InitUploadResponse initFilename) st2
                end
            else
              let filename := chunkFilenameOf req chunkId in
              if negb (hasMediaExt filename) then
                reply 400 (ErrorResponse "Only .mp4 or .m4s fragments are accepted") st1
              else
                match writeFile id filename (buffer f) st1 with
                | None => failed st1
                | Some st2 =>
                    if negb (access st2 id) then
                      reply 404 (ErrorResponse "Session not found") st2
                    else
                      match generateHLSPlaylist st2 id chunkId false with
                      | None => failed st2
                      | Some playlist =>
                          match writeFile id "playlist.m3u8" playlist st2 with
                          | None => failed st2
                          | Some st3 =>
                              reply 200
                                (ChunkUploadResponse chunkId filename
                                   (String.length (buffer f))) st3
                          end
                      end
                end
        end
  end.

(** *** POST /video/sessions/:sessionId/finalize *)

Definition finalize (baseUrl : string) (id : string) (st : server)
  : response * server :=
  let failed := reply 500 (ErrorResponse "Failed to finalize video session") in
  if negb (access st id) then
    reply 404 (ErrorResponse "Session not found") st
  else
    match generateHLSPlaylist st id "0" true with
    | None => failed st
    | Some playlist =>
        match writeFile id "playlist.m3u8" playlist st with
        | None => failed st
        | Some st1 =>
            reply 200
              (FinalizeResponse id
                 (baseUrl ++ "/video/sessions/" ++ id ++ "/playlist.m3u8"))
              (cleanupSessionMetadata id st1)
        end
    end.

(** *** Startup: [loadSessionsFromFilesystem] *)

(** The duration recovered from a session directory: the playlist is read
    (a missing playlist is the caught error) and searched for the target
    duration tag; without a match the default stays. *)
Definition recoverDuration (playlistContent : option string) : number :=
  match playlistContent with
  | Some content =>
      match matchTargetDuration content with
      | Some ds => if isEmpty ds then DEFAULT_SEGMENT_DURATION else parseInt ds
      | None => DEFAULT_SEGMENT_DURATION
      end
  | None => DEFAULT_SEGMENT_DURATION
  end.

(** One iteration of the loop over the entries of the storage root.
    [fs.stat] of a listed directory succeeds, so [createdAt] is the birth
    time of the directory. *)
Definition loadEntry (name : string) (n : node)
    (reg : gmap string SessionMetadata) : gmap string SessionMetadata :=
  match n with
  | Dir birthtime es =>
      <[name := {| sessionId := name;
                   segmentDuration := recoverDuration (readEntry "playlist.m3u8" es);
                   createdAt := birthtime |}]> reg
  | File _ => reg
  end.

Definition loadSessionsFromFilesystem (st : server) : server :=
  {| storage := storage st;
     sessionMetadata := map_fold loadEntry (sessionMetadata st) (storage st) |}.

(** ** Sample states *)

Definition chunkForm (isFirst : bool) (name data : string) : ChunkUploadRequest :=
  {| formIsFirst := Some (if isFirst then "true" else "false");
     formFilename := Some name;
     file := Some {| fieldname := "chunk"; originalname := Some name;
                     buffer := data |} |}.

(** An empty server, and a server whose storage holds one session
    directory with an init fragment, three numbered fragments and an
    older playlist. *)
Definition emptyServer : server :=
  {| storage := ∅; sessionMetadata := ∅ |}.

Definition sampleDir : list (string * string) :=
  [("init_0.mp4", "I"); ("chunk10.mp4", "c"); ("chunk2.mp4", "b");
   ("chunk1.mp4", "a"); ("playlist.m3u8", "old")].

Definition sampleServer : server :=
  {| storage := {[ "s1" := Dir "t0" sampleDir ]};
     sessionMetadata :=
       {[ "s1" := {| sessionId := "s1"; segmentDuration := Fin false 4 0;
                     createdAt := "t0" |} ]} |}.

Definition sampleText : string :=
  playlistText (map fst sampleDir) (Fin false 4 0) "3" true.

Definition sampleServerWritten : server :=
  {| storage :=
       {[ "s1" := Dir "t0" (writeEntry "playlist.m3u8" sampleText sampleDir) ]};
     sessionMetadata := sessionMetadata sampleServer |}.

(** The registry entry the startup scan records for a directory. *)
Definition recoveredMetadata (name birthtime : string)
    (es : list (string * string)) : SessionMetadata :=
  {| sessionId := name;
     segmentDuration := recoverDuration (readEntry "playlist.m3u8" es);
     createdAt := birthtime |}.

(** A storage root found at startup: a session with a playlist, a session
    without one, a session whose playlist has no target duration, and a
    stray file. *)
Definition startupServer : server :=
  {| storage :=
       {[ "a" := Dir "t1" [("chunk1.mp4", "x");
                            ("playlist.m3u8",
                             playlistText ["chunk1.mp4"] (Fin false 8 0) "1" false)];
          "b" := Dir "t2" [("chunk1.mp4", "x")];
          "c" := Dir "t3" [("playlist.m3u8", "#EXTM3U")];
          "notes.txt" := File "n" ]};
     sessionMetadata := ∅ |}.

(** ** The order of the sorted fragments *)

(** The integer a fragment name encodes (0 without a match, as in the
    comparator), and its rounding to a double; [None] is Infinity. *)
Definition chunkIndex (f : string) : N :=
  match matchChunk f with
  | Some ds => digitsValue ds
  | None => 0%N
  end.

Definition chunkKey (f : string) : option N := roundToDouble (chunkIndex f).

Definition keyLe (a b : option N) : Prop :=
  match a, b with
  | _, None => True
  | None, Some _ => False
  | Some x, Some y => (x <= y)%N
  end.

Definition keyLtb (a b : option N) : bool :=
  match a, b with
  | None, _ => false
  | Some _, None => true
  | Some x, Some y => (x <? y)%N
  end.

Definition numberOfKey (k : option N) : number :=
  match k with None => Inf false | Some v => ofN v end.

Fixpoint allDigits (s : string) : bool :=
  match s with
  | EmptyString => true
  | String c s' => isDigit c && allDigits s'
  end.

(** What may follow the digits of a numeral: nothing, or an exponent. *)
Definition exponentTail (r : string) : Prop :=
  r = "" \/ exists r', r = String "e" r'.

(** A finite number is canonical when its significand carries no factor
    of ten; every value has one canonical form, the one [parseFloat]
    returns. *)
Definition canonical (x : number) : bool :=
  match x with
  | Fin _ m _ => negb (N.pos m mod 10 =? 0)%N
  | _ => true
  end.

(** The durations the validation of [POST /video/sessions] turns down: a
    truthy value whose string form [parseFloat] reads as NaN or as a
    number that is not positive. *)
Definition rejectedDuration (v : jsvalue) : bool :=
  truthy v &&
  match valueToString v with
  | Some text => isNaN (parseFloat text) || leZero (parseFloat text)
  | None => false
  end.

(** The values [||] replaces by the default without being numbers. *)
Definition absentDuration (v : jsvalue) : bool :=
  match v with
  | JUndefined | JNull | JBool false => true
  | JString s => isEmpty s
  | _ => false
  end.

Definition withDuration (req : CreateSessionRequest) (v : jsvalue)
  : CreateSessionRequest :=
  {| reqSessionId := reqSessionId req; reqSegmentDuration := v |}.

Definition createRequest (v : jsvalue) : CreateSessionRequest :=
  {| reqSessionId := JUndefined; reqSegmentDuration := v |}.

(** A session created with the fractional duration 2.5, after one init
    fragment and one numbered fragment were uploaded. *)
Definition fractionalServer : server :=
  snd (uploadChunk "t2" "u-1" "0" (chunkForm false "chunk00000.mp4" "0123456789")
         (snd (uploadChunk "t1" "u-1" "0" (chunkForm true "init_0.mp4" "II")
                 (snd (createSession "http://h" "u-1" "t0"
                         (createRequest (JNumber (Fin false 25 (-1))))
                         emptyServer))))).

(** Digits whose first digit is not zero. *)
Definition startsNonZero (l : list ascii) : Prop :=
  exists c rest, l = c :: rest /\ isZeroChar c = false.


(** ** The read routes and the session list *)

(** What a GET route answers: a body with its media type, or an error.
    Like a session id, the file name of a request path and a chunk id are
    one path component other than the dot names, so that [path.join]
    stays inside the session directory. *)
Inductive download : Type :=
| Served (contentType content : string)
| NotServed (code : nat) (error : string).

(** [fs.access] of a file inside a session directory. *)
Definition accessFile (st : server) (id name : string) : bool :=
  match readFile st id name with Some _ => true | None => false end.

(** GET /video/sessions/:sessionId/playlist.m3u8 *)
Definition getPlaylist (id : string) (st : server) : download :=
  if negb (accessFile st id "playlist.m3u8") then
    NotServed 404 "Playlist not found"
  else
    match readFile st id "playlist.m3u8" with
    | Some playlist => Served "application/vnd.apple.mpegurl" playlist
    | None => NotServed 500 "Failed to serve playlist"
    end.

(** GET /video/sessions/:sessionId/:filename; the body is the stream of
    the file's bytes. *)
Definition getChunk (id filename : string) (st : server) : download :=
  if negb (accessFile st id filename) then
    NotServed 404 "Chunk not found"
  else
    match readFile st id filename with
    | Some content => Served "video/mp4" content
    | None => NotServed 500 "Failed to serve video chunk"
    end.

(** A GET of a two-component path under /video/sessions: the playlist
    route is registered first and does not pass the request on, so it
    answers for the name [playlist.m3u8]. *)
Definition getFile (id filename : string) (st : server) : download :=
  if String.eqb filename "playlist.m3u8" then getPlaylist id st
  else getChunk id filename st.

(** [getBaseUrl(ctx)]: the forwarded protocol and host when the proxy
    headers are set ([ctx.get] gives the empty string otherwise), the
    request's own otherwise. *)
Record RequestContext : Type := {
  forwardedProto : string;
  forwardedHost : string;
  protocol : string;
  host : string
}.

Definition getBaseUrl (ctx : RequestContext) : string :=
  (if isEmpty (forwardedProto ctx) then protocol ctx else forwardedProto ctx)
  ++ "://"
  ++ (if isEmpty (forwardedHost ctx) then host ctx else forwardedHost ctx).

(** GET /video/sessions/list: one entry per key of the registry. *)
Record SessionListing : Type := {
  listedId : string;
  listedUploadUrl : string;
  listedPlaylistUrl : string;
  listedDuration : number
}.

Definition listSessions (baseUrl : string) (st : server)
  : gmap string SessionListing :=
  map_imap
    (fun id md =>
       Some {| listedId := id;
               listedUploadUrl := baseUrl ++ "/video/sessions/" ++ id ++ "/chunks";
               listedPlaylistUrl :=
                 baseUrl ++ "/video/sessions/" ++ id ++ "/playlist.m3u8";
               listedDuration := segmentDuration md |})
    (sessionMetadata st).

(** ** Process start *)

(** [startServer]: the scan of the storage root, then [listen]. *)
Definition startServer (st : server) : server := loadSessionsFromFilesystem st.

(** A restart: the storage stays, the registry of the new process starts
    empty. *)
Definition restart (st : server) : server :=
  startServer {| storage := storage st; sessionMetadata := ∅ |}.

(** The session directory a route works on once [mkdir] has run: the
    one that was there, or a new empty one. *)
Definition directoryOrNew (now : string) (st : server) (id : string)
  : string * list (string * string) :=
  match storage st !! id with
  | Some (Dir t es) => (t, es)
  | _ => (now, [])
  end.

Definition hasSlash (s : string) : bool :=
  existsb (fun c => Ascii.eqb c "/"%char) (list_ascii_of_string s).

(** ** The reference client ([HLSAPIClient.swift]) *)

(** [Int(text)]: an optional sign and decimal digits, nothing else, within
    64 bits. *)
Definition swiftInt (text : string) : option Z :=
  let (neg, ds) := readSign text in
  if isEmpty ds || negb (allDigits ds) then None
  else
    let z := if neg then (- Z.of_N (digitsValue ds))%Z
             else Z.of_N (digitsValue ds) in
    if ((- 2 ^ 63 <=? z) && (z <? 2 ^ 63))%Z then Some z else None.

(** [String(n)] for an [Int]. *)
Definition swiftString (z : Z) : string :=
  string_of_list_ascii
    ((if (z <? 0)%Z then ["-"%char] else []) ++ digitsOfN (Z.abs_N z)).

Fixpoint dropFirst (n : nat) (s : string) : string :=
  match n, s with
  | S n', String _ s' => dropFirst n' s'
  | _, _ => s
  end.

Definition dropLast (n : nat) (s : string) : string :=
  string_of_list_ascii
    (rev (skipn n (rev (list_ascii_of_string s)))).

Definition hasPrefix (p s : string) : bool :=
  match stripPrefix p s with Some _ => true | None => false end.

Definition hasSuffix (p s : string) : bool :=
  hasPrefix (string_of_list_ascii (rev (list_ascii_of_string p)))
            (string_of_list_ascii (rev (list_ascii_of_string s))).

(** [parseChunkInfo(from: filename)]: the chunk id and the is-first flag
    the client derives from a file name. *)
Definition parseChunkInfo (filename : string) : string * bool :=
  let lowercaseFilename := toLowerCase filename in
  if String.eqb lowercaseFilename "init_0.mp4" then ("0", true)
  else if hasPrefix "segment_" lowercaseFilename
          && hasSuffix ".mp4" lowercaseFilename then
    let withoutPrefix := dropFirst 8 lowercaseFilename in
    let withoutSuffix := dropLast 4 withoutPrefix in
    match swiftInt withoutSuffix with
    | Some chunkId => (swiftString chunkId, false)
    | None => ("0", false)
    end
  else ("0", false).

(** [uploadChunk(sessionId:fileURL:)] as the server receives it: the
    chunk id in the path, the file under the field [chunk] with the file
    name as its original name, and the [isFirst] and [filename] fields. *)
Definition clientUploadChunk (now sessionId filename data : string)
    (st : server) : response * server :=
  let (chunkId, isFirst) := parseChunkInfo filename in
  uploadChunk now sessionId chunkId (chunkForm isFirst filename data) st.


(** ** The state an accepted upload leaves *)

(** The playlist an accepted upload of a numbered fragment generates, and
    the state it leaves: the fragment and then the playlist written into
    the session directory. *)
Definition segmentUploadText (now : string) (st : server)
    (id chunkId name : string) (data : string) : string :=
  playlistText
    (map fst (writeEntry name data (snd (directoryOrNew now st id))))
    (resolveDuration st id) chunkId false.

Definition afterSegmentUpload (now : string) (st : server)
    (id chunkId name : string) (data : string) : server :=
  {| storage :=
       <[id := Dir (fst (directoryOrNew now st id))
                 (writeEntry "playlist.m3u8"
                    (segmentUploadText now st id chunkId name data)
                    (writeEntry name data (snd (directoryOrNew now st id))))]>
         (storage st);
     sessionMetadata := sessionMetadata st |}.

Definition afterInitUpload (now : string) (st : server)
    (id name : string) (data : string) : server :=
  {| storage :=
       <[id := Dir (fst (directoryOrNew now st id))
                 (writeEntry name data (snd (directoryOrNew now st id)))]>
         (storage st);
     sessionMetadata := sessionMetadata st |}.


(** The name an upload is stored under. *)
Definition storedNameOf (req : ChunkUploadRequest) (chunkId : string) : string :=
  if isFirstOf req then initFilenameOf req else chunkFilenameOf req chunkId.

(** A well-formed upload of a numbered fragment without a client file
    name, and one with a file name and no multer original name. *)
Definition bareUpload (data : string) : ChunkUploadRequest :=
  {| formIsFirst := Some "false"; formFilename := None;
     file := Some {| fieldname := "chunk"; originalname := None;
                     buffer := data |} |}.


(** Whether a code unit occurs in a string. *)
Fixpoint occurs (x : ascii) (s : string) : bool :=
  match s with
  | EmptyString => false
  | String c s' => Ascii.eqb c x || occurs x s'
  end.


(** One path component other than the dot names: a name that
    [path.join] keeps as a direct child of the directory it is joined
    to.  A session id of another form (with a slash, empty, [.] or [..])
    names a path elsewhere in the tree. *)
Definition plainComponent (s : string) : bool :=
  negb (isEmpty s) && negb (hasSlash s)
  && negb (String.eqb s ".") && negb (String.eqb s "..").

(** * Facts about the embedding *)

(** ** The embedding on sample inputs *)

Example ex_basename : basename "a/b/init_0.mp4//" = "init_0.mp4".
Proof. reflexivity. Qed.
Example ex_matchChunk : matchChunk "Chunk00010.M4S" = Some "00010".
Proof. reflexivity. Qed.
Example ex_matchChunk2 : matchChunk "segment_00001.mp4" = None.
Proof. reflexivity. Qed.
Example ex_td : matchTargetDuration ("#EXTM3U" ++ "#EXT-X-TARGETDURATION:8x") = Some "8".
Proof. reflexivity. Qed.
Example ex_toString_5 : toString (Fin false 5 0) = "5".
Proof. reflexivity. Qed.
Example ex_toString_25 : toString (Fin false 25 (-1)) = "2.5".
Proof. reflexivity. Qed.
Example ex_toString_250 : toString (Fin false 2500 (-3)) = "2.5".
Proof. reflexivity. Qed.
Example ex_toString_small : toString (Fin true 15 (-8)) = "-1.5e-7".
Proof. reflexivity. Qed.
Example ex_toString_micro : toString (Fin false 1 (-6)) = "0.000001".
Proof. reflexivity. Qed.
Example ex_toString_big : toString (Fin false 1 21) = "1e+21".
Proof. reflexivity. Qed.
Example ex_toString_big2 : toString (Fin false 123 18) = "123000000000000000000".
Proof. reflexivity. Qed.
Example ex_parseFloat_1 : parseFloat "2.50" = Fin false 25 (-1).
Proof. reflexivity. Qed.
Example ex_parseFloat_2 : parseFloat "  -1.5e-7xyz" = Fin true 15 (-8).
Proof. reflexivity. Qed.
Example ex_parseFloat_3 : parseFloat "4s" = Fin false 4 0.
Proof. reflexivity. Qed.
Example ex_parseFloat_4 : parseFloat "abc" = NaN.
Proof. reflexivity. Qed.
Example ex_parseFloat_5 : parseFloat "1e+21" = Fin false 1 21.
Proof. reflexivity. Qed.
Example ex_parseFloat_6 : parseFloat "0.000" = Zero false.
Proof. reflexivity. Qed.
Example ex_parseFloat_7 : parseFloat ".5e" = Fin false 5 (-1).
Proof. reflexivity. Qed.
Example ex_parseInt_1 : parseInt "00010" = Fin false 10 0.
Proof. reflexivity. Qed.
Example ex_parseInt_2 : parseInt "9007199254740993" = Fin false 9007199254740992 0.
Proof. vm_compute. reflexivity. Qed.
Example ex_parseInt_3 : parseInt "9007199254740995" = Fin false 9007199254740996 0.
Proof. vm_compute. reflexivity. Qed.
Example ex_parseInt_4 : parseInt "18014398509481985" = Fin false 18014398509481984 0.
Proof. vm_compute. reflexivity. Qed.


(** ** Listings and directory writes *)

Lemma map_fst_writeEntry (name content : string) (es : list (string * string)) :
  map fst (writeEntry name content es) =
    if existsb (fun n => String.eqb n name) (map fst es)
    then map fst es
    else (map fst es ++ [name])%list.
Proof.
  induction es as [|[n c] es IH]; simpl; [reflexivity|].
  destruct (String.eqb n name) eqn:E; simpl.
  - apply String.eqb_eq in E. subst. reflexivity.
  - rewrite IH. destruct (existsb _ (map fst es)); reflexivity.
Qed.

Lemma readEntry_writeEntry_same (name content : string) (es : list (string * string)) :
  readEntry name (writeEntry name content es) = Some content.
Proof.
  induction es as [|[n c] es IH]; simpl.
  - rewrite String.eqb_refl. reflexivity.
  - destruct (String.eqb n name) eqn:E; simpl.
    + rewrite String.eqb_refl. reflexivity.
    + rewrite E. exact IH.
Qed.

Lemma readEntry_writeEntry_other (name other content : string)
    (es : list (string * string)) :
  other <> name ->
  readEntry other (writeEntry name content es) = readEntry other es.
Proof.
  intros Hne. induction es as [|[n c] es IH]; simpl.
  - destruct (String.eqb name other) eqn:E; [|reflexivity].
    apply String.eqb_eq in E. congruence.
  - destruct (String.eqb n name) eqn:E; simpl.
    + apply String.eqb_eq in E. subst n.
      destruct (String.eqb name other) eqn:E'; [|reflexivity].
      apply String.eqb_eq in E'. congruence.
    + destruct (String.eqb n other); [reflexivity|exact IH].
Qed.

Lemma find_app_miss {A : Type} (p : A -> bool) (l : list A) (x : A) :
  p x = false -> List.find p (l ++ [x])%list = List.find p l.
Proof.
  intros Hx. induction l as [|y l IH]; simpl.
  - rewrite Hx. reflexivity.
  - destruct (p y); [reflexivity|exact IH].
Qed.

Lemma filter_app_miss {A : Type} (p : A -> bool) (l : list A) (x : A) :
  p x = false -> List.filter p (l ++ [x])%list = List.filter p l.
Proof.
  intros Hx. rewrite List.filter_app. simpl. rewrite Hx. apply app_nil_r.
Qed.

(** The playlist file is neither an init fragment nor a numbered one. *)
Lemma playlist_name_not_media : hasMediaExt "playlist.m3u8" = false.
Proof. reflexivity. Qed.

Lemma playlist_name_not_init : isInitFile "playlist.m3u8" = false.
Proof. reflexivity. Qed.

Lemma playlist_name_not_chunk : isChunkFile "playlist.m3u8" = false.
Proof. reflexivity. Qed.

(** Writing a name the generator ignores leaves the generated text alone. *)
Lemma playlistText_write_ignored (name content : string)
    (es : list (string * string)) (d : number) (seq : string) (fin : bool) :
  isInitFile name = false ->
  isChunkFile name = false ->
  playlistText (map fst (writeEntry name content es)) d seq fin
  = playlistText (map fst es) d seq fin.
Proof.
  intros Hi Hc. rewrite map_fst_writeEntry.
  destruct (existsb _ _); [reflexivity|].
  unfold playlistText, segmentFilesOf.
  rewrite find_app_miss by exact Hi.
  rewrite filter_app_miss by exact Hc.
  reflexivity.
Qed.

(** ** The sort keeps the elements *)

Lemma insertSorted_perm {A : Type} (cmp : A -> A -> number) (x : A) (l : list A) :
  Permutation (insertSorted cmp x l) (x :: l).
Proof.
  induction l as [|y l IH]; simpl; [reflexivity|].
  destruct (gtZero (cmp x y)); [|reflexivity].
  rewrite IH. apply perm_swap.
Qed.

Lemma sortWith_perm {A : Type} (cmp : A -> A -> number) (l : list A) :
  Permutation (sortWith cmp l) l.
Proof.
  induction l as [|x l IH]; simpl; [reflexivity|].
  rewrite insertSorted_perm. apply perm_skip. exact IH.
Qed.

Lemma segmentFilesOf_In (files : list string) (f : string) :
  In f (segmentFilesOf files) <-> In f files /\ isChunkFile f = true.
Proof.
  unfold segmentFilesOf. rewrite <- List.filter_In. split; intros H.
  - eapply Permutation_in; [apply sortWith_perm|exact H].
  - eapply Permutation_in; [symmetry; apply sortWith_perm|exact H].
Qed.

(** ** What the file system operations change *)

Lemma writeFile_inv (id name content : string) (st st' : server) :
  writeFile id name content st = Some st' ->
  exists t es,
    storage st !! id = Some (Dir t es)
    /\ storage st' = <[id := Dir t (writeEntry name content es)]> (storage st)
    /\ sessionMetadata st' = sessionMetadata st.
Proof.
  unfold writeFile. intros H.
  destruct (storage st !! id) as [[c|t es]|] eqn:E; try discriminate.
  injection H as <-. exists t, es. simpl. auto.
Qed.

Lemma writeFile_succeeds (id name content t : string)
    (es : list (string * string)) (st : server) :
  storage st !! id = Some (Dir t es) ->
  writeFile id name content st
  = Some {| storage := <[id := Dir t (writeEntry name content es)]> (storage st);
            sessionMetadata := sessionMetadata st |}.
Proof. unfold writeFile. intros ->. reflexivity. Qed.

Lemma mkdir_inv (now id : string) (st st' : server) :
  mkdir now id st = Some st' ->
  sessionMetadata st' = sessionMetadata st
  /\ (exists t es, storage st' !! id = Some (Dir t es)
        /\ match storage st !! id with
           | Some n => n = Dir t es /\ st' = st
           | None => t = now /\ es = [] /\ storage st' = <[id := Dir now []]> (storage st)
           end).
Proof.
  unfold mkdir. intros H.
  destruct (storage st !! id) as [[c|t es]|] eqn:E; try discriminate;
    injection H as <-; simpl.
  - split; [reflexivity|]. exists t, es. rewrite E. auto.
  - split; [reflexivity|]. exists now, []. rewrite lookup_insert_eq. auto.
Qed.

Lemma resolveDuration_ext (st st' : server) (id : string) :
  sessionMetadata st' = sessionMetadata st ->
  resolveDuration st' id = resolveDuration st id.
Proof. unfold resolveDuration, getSessionMetadata. intros ->. reflexivity. Qed.

(** ** C1: the generator is a function of the listing and the duration *)

(** C1.  Playlist generation is deterministic and idempotent.  Two states
    whose session directory has the same listing and whose registry
    resolves the same segment duration give the same playlist text for the
    same sequence number and finalize flag, whatever else differs (file
    contents, other sessions, creation times).  And persisting the
    generated text as [playlist.m3u8] in the session directory does not
    change what the next call generates. *)
Theorem generateHLSPlaylist_idempotent
    (st st' : server) (id seq : string) (fin : bool) :
  (readdir st id = readdir st' id ->
   resolveDuration st id = resolveDuration st' id ->
   generateHLSPlaylist st id seq fin = generateHLSPlaylist st' id seq fin)
  /\ (forall text : string,
        generateHLSPlaylist st id seq fin = Some text ->
        writeFile id "playlist.m3u8" text st = Some st' ->
        generateHLSPlaylist st' id seq fin = Some text).
Proof.
  split.
  - unfold generateHLSPlaylist. intros -> ->. reflexivity.
  - intros text Hgen Hw.
    destruct (writeFile_inv _ _ _ _ _ Hw) as (t & es & Hdir & Hst & Hreg).
    unfold generateHLSPlaylist, readdir in *.
    rewrite Hdir in Hgen. rewrite Hst, lookup_insert_eq.
    rewrite (resolveDuration_ext st st' id Hreg).
    rewrite playlistText_write_ignored
      by (apply playlist_name_not_init || apply playlist_name_not_chunk).
    exact Hgen.
Qed.

Lemma generateHLSPlaylist_idempotent_witness :
  generateHLSPlaylist sampleServer "s1" "3" true
  = generateHLSPlaylist sampleServerWritten "s1" "3" true
  /\ generateHLSPlaylist sampleServerWritten "s1" "3" true = Some sampleText.
Proof.
  destruct (generateHLSPlaylist_idempotent
              sampleServer sampleServerWritten "s1" "3" true) as [H1 H2].
  split.
  - apply H1; vm_compute; reflexivity.
  - apply H2; vm_compute; reflexivity.
Defined.

(** ** Appending strings *)

Lemma append_assoc (a b c : string) : (a ++ b) ++ c = a ++ (b ++ c).
Proof.
  induction a as [|x a IH]; [reflexivity|].
  change (String x ((a ++ b) ++ c) = String x (a ++ (b ++ c))).
  rewrite IH. reflexivity.
Qed.

Lemma append_nil_r (a : string) : a ++ "" = a.
Proof.
  induction a as [|x a IH]; [reflexivity|].
  change (String x (a ++ "") = String x a).
  rewrite IH. reflexivity.
Qed.

(** The finalize flag adds the end-of-stream line after everything else. *)
Lemma playlistText_final (files : list string) (d : number) (seq : string) :
  playlistText files d seq true
  = playlistText files d seq false ++ "#EXT-X-ENDLIST" ++ LF.
Proof.
  unfold playlistText. rewrite !append_assoc. reflexivity.
Qed.

(** ** C3: finalize *)

Lemma finalize_missing (baseUrl id : string) (st : server) :
  storage st !! id = None ->
  finalize baseUrl id st = reply 404 (ErrorResponse "Session not found") st.
Proof. unfold finalize, access. intros ->. reflexivity. Qed.

Lemma finalize_file (baseUrl id content : string) (st : server) :
  storage st !! id = Some (File content) ->
  finalize baseUrl id st
  = reply 500 (ErrorResponse "Failed to finalize video session") st.
Proof.
  unfold finalize, access, generateHLSPlaylist, readdir. intros ->. reflexivity.
Qed.

Lemma finalize_dir (baseUrl id t : string) (es : list (string * string))
    (st : server) :
  storage st !! id = Some (Dir t es) ->
  finalize baseUrl id st
  = reply 200
      (FinalizeResponse id (baseUrl ++ "/video/sessions/" ++ id ++ "/playlist.m3u8"))
      {| storage :=
           <[id := Dir t (writeEntry "playlist.m3u8"
                            (playlistText (map fst es) (resolveDuration st id) "0" true)
                            es)]> (storage st);
         sessionMetadata := delete id (sessionMetadata st) |}.
Proof.
  intros H. unfold finalize, access, generateHLSPlaylist, readdir, writeFile.
  rewrite H. reflexivity.
Qed.

Lemma finalize_status_cases (baseUrl id : string) (st : server) :
  match storage st !! id with
  | None => status (fst (finalize baseUrl id st)) = 404
  | Some (File _) => status (fst (finalize baseUrl id st)) = 500
  | Some (Dir _ _) => status (fst (finalize baseUrl id st)) = 200
  end.
Proof.
  destruct (storage st !! id) as [[c|t es]|] eqn:E.
  - rewrite (finalize_file _ _ _ _ E). reflexivity.
  - rewrite (finalize_dir _ _ _ _ _ E). reflexivity.
  - rewrite (finalize_missing _ _ _ E). reflexivity.
Qed.

Lemma resolveDuration_unregistered (st : server) (id : string) :
  sessionMetadata st !! id = None ->
  resolveDuration st id = DEFAULT_SEGMENT_DURATION.
Proof. unfold resolveDuration, getSessionMetadata. intros ->. reflexivity. Qed.

(** C3, as the code has it.  Finalize answers 404 exactly when the storage
    root has no entry for the session id; the registry is not consulted.
    A successful finalize persists the playlist with the end-of-stream line
    appended once, as its last line, and deletes the registry entry.  A
    second finalize on the same id succeeds again with the same response:
    the directory is still there, and the playlist is regenerated with the
    default segment duration, the registered one being gone. *)
Theorem finalize_removes_entry_and_repeats (baseUrl id : string) (st : server) :
  (status (fst (finalize baseUrl id st)) = 404 <-> storage st !! id = None)
  /\ (status (fst (finalize baseUrl id st)) = 200 ->
      exists t es,
        storage st !! id = Some (Dir t es)
        /\ readFile (snd (finalize baseUrl id st)) id "playlist.m3u8"
           = Some (playlistText (map fst es) (resolveDuration st id) "0" false
                   ++ "#EXT-X-ENDLIST" ++ LF)
        /\ sessionMetadata (snd (finalize baseUrl id st)) !! id = None
        /\ fst (finalize baseUrl id (snd (finalize baseUrl id st)))
           = fst (finalize baseUrl id st)
        /\ readFile (snd (finalize baseUrl id (snd (finalize baseUrl id st))))
             id "playlist.m3u8"
           = Some (playlistText (map fst es) DEFAULT_SEGMENT_DURATION "0" false
                   ++ "#EXT-X-ENDLIST" ++ LF)).
Proof.
  pose proof (finalize_status_cases baseUrl id st) as Hc.
  split.
  - destruct (storage st !! id) as [[c|t es]|]; rewrite Hc; split;
      intros; congruence.
  - intros H200.
    destruct (storage st !! id) as [[c|t es]|] eqn:E;
      try (rewrite Hc in H200; discriminate).
    exists t, es. split; [reflexivity|].
    rewrite (finalize_dir _ _ _ _ _ E). cbn [snd fst reply].
    set (st1 := {| storage := _; sessionMetadata := _ |}).
    assert (E1 : storage st1 !! id
                 = Some (Dir t (writeEntry "playlist.m3u8"
                     (playlistText (map fst es) (resolveDuration st id) "0" true) es))).
    { unfold st1. cbn [storage]. apply lookup_insert_eq. }
    assert (R1 : sessionMetadata st1 !! id = None).
    { unfold st1. cbn [sessionMetadata]. apply lookup_delete_eq. }
    rewrite (finalize_dir _ _ _ _ _ E1). cbn [snd fst reply].
    split; [|split; [exact R1|split; [reflexivity|]]].
    + unfold readFile. rewrite E1, readEntry_writeEntry_same, playlistText_final.
      reflexivity.
    + unfold readFile. cbn [storage]. rewrite lookup_insert_eq.
      rewrite readEntry_writeEntry_same.
      rewrite (resolveDuration_unregistered st1 id R1).
      rewrite playlistText_write_ignored
        by (apply playlist_name_not_init || apply playlist_name_not_chunk).
      rewrite playlistText_final. reflexivity.
Qed.

Lemma finalize_removes_entry_and_repeats_witness :
  sessionMetadata (snd (finalize "http://h" "s1" sampleServer)) !! "s1" = None
  /\ status (fst (finalize "http://h" "s1"
                    (snd (finalize "http://h" "s1" sampleServer)))) = 200.
Proof.
  destruct (finalize_removes_entry_and_repeats "http://h" "s1" sampleServer)
    as [_ H].
  destruct (H ltac:(vm_compute; reflexivity)) as (t & es & _ & _ & H1 & H2 & _).
  split; [exact H1|]. rewrite H2. vm_compute. reflexivity.
Defined.

(** The specification has a second finalize on the same id fail with
    NotFoundError.  It does not: on the sample server the first finalize
    succeeds and removes the registry entry, and the second finalize on the
    same id answers 200, not 404. *)
Lemma finalize_second_call_counterexample :
  status (fst (finalize "http://h" "s1" sampleServer)) = 200
  /\ sessionMetadata (snd (finalize "http://h" "s1" sampleServer)) !! "s1" = None
  /\ status (fst (finalize "http://h" "s1"
                    (snd (finalize "http://h" "s1" sampleServer)))) = 200
  /\ status (fst (finalize "http://h" "s1"
                    (snd (finalize "http://h" "s1" sampleServer)))) <> 404.
Proof. vm_compute. repeat split; discriminate. Qed.

(** ** The chunk upload route *)

Lemma mkdir_succeeds (now id : string) (st : server) :
  (forall c, storage st !! id <> Some (File c)) ->
  exists st1, mkdir now id st = Some st1.
Proof.
  intros H. unfold mkdir.
  destruct (storage st !! id) as [[c|t es]|] eqn:E; eauto.
  exfalso. eapply H. reflexivity.
Qed.

Lemma access_after_write (id name content : string) (st st' : server) :
  writeFile id name content st = Some st' -> access st' id = true.
Proof.
  intros H. destruct (writeFile_inv _ _ _ _ _ H) as (t & es & _ & Hs & _).
  unfold access. rewrite Hs, lookup_insert_eq. reflexivity.
Qed.

Lemma writeFile_after_mkdir (now id name content : string) (st st1 : server) :
  mkdir now id st = Some st1 ->
  exists st2, writeFile id name content st1 = Some st2.
Proof.
  intros H. destruct (mkdir_inv _ _ _ _ H) as (_ & t & es & Hd & _).
  rewrite (writeFile_succeeds _ _ _ _ _ _ Hd). eauto.
Qed.

Lemma generate_after_write (id name content seq : string) (fin : bool)
    (st st' : server) :
  writeFile id name content st = Some st' ->
  exists text, generateHLSPlaylist st' id seq fin = Some text.
Proof.
  intros H. destruct (writeFile_inv _ _ _ _ _ H) as (t & es & _ & Hs & _).
  unfold generateHLSPlaylist, readdir. rewrite Hs, lookup_insert_eq. eauto.
Qed.

(** The outcome of a well-formed upload of a numbered fragment. *)
Lemma uploadChunk_segment (now id chunkId : string) (req : ChunkUploadRequest)
    (f : UploadedFile) (st : server) :
  file req = Some f ->
  fieldname f = "chunk" ->
  isFirstOf req = false ->
  hasMediaExt (chunkFilenameOf req chunkId) = true ->
  (forall c, storage st !! id <> Some (File c)) ->
  exists st1 st2 st3 text,
    mkdir now id st = Some st1
    /\ writeFile id (chunkFilenameOf req chunkId) (buffer f) st1 = Some st2
    /\ generateHLSPlaylist st2 id chunkId false = Some text
    /\ writeFile id "playlist.m3u8" text st2 = Some st3
    /\ uploadChunk now id chunkId req st
       = reply 200 (ChunkUploadResponse chunkId (chunkFilenameOf req chunkId)
                      (String.length (buffer f))) st3.
Proof.
  intros Hf Hn Hfirst Hext Hfile.
  destruct (mkdir_succeeds now id st Hfile) as [st1 H1].
  destruct (writeFile_after_mkdir _ _ (chunkFilenameOf req chunkId) (buffer f) _ _ H1)
    as [st2 H2].
  destruct (generate_after_write _ _ _ chunkId false _ _ H2) as [text H3].
  destruct (writeFile_inv _ _ _ _ _ H2) as (t & es & _ & Hs & _).
  assert (Hd : storage st2 !! id
               = Some (Dir t (writeEntry (chunkFilenameOf req chunkId) (buffer f) es))).
  { rewrite Hs. apply lookup_insert_eq. }
  pose proof (writeFile_succeeds id "playlist.m3u8" text _ _ _ Hd) as H4.
  eexists st1, st2, _, text. repeat (split; [eassumption|]).
  unfold uploadChunk. rewrite Hf, Hn. cbn [String.eqb negb].
  change (negb ("chunk" =? "chunk")%string) with false. cbv iota.
  rewrite H1, Hfirst, Hext. cbn [negb]. rewrite H2.
  rewrite (access_after_write _ _ _ _ _ H2). cbn [negb].
  rewrite H3, H4. reflexivity.
Qed.

(** C10.  The chunk upload route never answers 404: it creates the session
    directory before it writes, so the existence check that follows the
    write always passes.  A well-formed upload of a numbered fragment to a
    session id that has no directory yet (or has one) succeeds with 200,
    and afterwards the directory exists and holds the fragment. *)
Theorem upload_creates_directory_never_404
    (now id chunkId : string) (req : ChunkUploadRequest) (st : server) :
  status (fst (uploadChunk now id chunkId req st)) <> 404
  /\ (forall f : UploadedFile,
        file req = Some f ->
        fieldname f = "chunk" ->
        isFirstOf req = false ->
        hasMediaExt (chunkFilenameOf req chunkId) = true ->
        (forall c, storage st !! id <> Some (File c)) ->
        fst (uploadChunk now id chunkId req st)
        = {| status := 200;
             payload := ChunkUploadResponse chunkId (chunkFilenameOf req chunkId)
                          (String.length (buffer f)) |}
        /\ access (snd (uploadChunk now id chunkId req st)) id = true
        /\ readFile (snd (uploadChunk now id chunkId req st)) id
             (chunkFilenameOf req chunkId) = Some (buffer f)).
Proof.
  split.
  - unfold uploadChunk.
    destruct (file req) as [f|]; [|cbn; discriminate].
    destruct (negb _); [cbn; discriminate|].
    destruct (mkdir now id st) as [st1|]; [|cbn; discriminate].
    destruct (isFirstOf req).
    + destruct (negb _); [cbn; discriminate|].
      destruct (writeFile _ _ _ st1); cbn; discriminate.
    + destruct (negb _); [cbn; discriminate|].
      destruct (writeFile id _ _ st1) as [st2|] eqn:H2; [|cbn; discriminate].
      rewrite (access_after_write _ _ _ _ _ H2). cbn [negb].
      destruct (generateHLSPlaylist st2 id chunkId false); [|cbn; discriminate].
      destruct (writeFile id "playlist.m3u8" _ st2); cbn; discriminate.
  - intros f Hf Hn Hfirst Hext Hfile.
    destruct (uploadChunk_segment now id chunkId req f st Hf Hn Hfirst Hext Hfile)
      as (st1 & st2 & st3 & text & H1 & H2 & H3 & H4 & ->).
    cbn [fst snd reply]. split; [reflexivity|].
    split; [exact (access_after_write _ _ _ _ _ H4)|].
    destruct (writeFile_inv _ _ _ _ _ H2) as (t & es & _ & Hs2 & _).
    destruct (writeFile_inv _ _ _ _ _ H4) as (t' & es' & Hd3 & Hs3 & _).
    rewrite Hs2, lookup_insert_eq in Hd3. injection Hd3 as <- <-.
    unfold readFile. rewrite Hs3, lookup_insert_eq.
    rewrite readEntry_writeEntry_other.
    + apply readEntry_writeEntry_same.
    + intros Heq. rewrite Heq in Hext. discriminate.
Qed.

Lemma upload_creates_directory_never_404_witness :
  storage emptyServer !! "never-created" = None
  /\ status (fst (uploadChunk "t1" "never-created" "7"
                    (chunkForm false "chunk00007.mp4" "data") emptyServer)) = 200
  /\ access (snd (uploadChunk "t1" "never-created" "7"
                    (chunkForm false "chunk00007.mp4" "data") emptyServer))
       "never-created" = true.
Proof.
  destruct (upload_creates_directory_never_404 "t1" "never-created" "7"
              (chunkForm false "chunk00007.mp4" "data") emptyServer) as [_ H].
  destruct (H {| fieldname := "chunk"; originalname := Some "chunk00007.mp4";
                 buffer := "data" |})
    as (Hr & Ha & _); try (vm_compute; reflexivity).
  - intros c. vm_compute. discriminate.
  - split; [vm_compute; reflexivity|]. split; [|exact Ha].
    rewrite Hr. reflexivity.
Defined.

(** ** C8: the init upload writes one file *)

Lemma hasMediaExt_not_playlist (name : string) :
  hasMediaExt name = true -> name <> "playlist.m3u8".
Proof. intros H ->. discriminate. Qed.

(** C8.  An accepted upload with [isFirst] true whose file name carries a
    media extension answers 200 with the init file name, stores the upload
    under that name and changes nothing else: every other file of the
    session directory reads as before, in particular [playlist.m3u8] is not
    rewritten, and the registry is untouched; when the session id is one
    path component, so that the session directory is an entry of the
    storage root, the other entries of the storage root are untouched
    too. *)
Theorem init_upload_writes_only_init
    (now id chunkId : string) (req : ChunkUploadRequest) (st : server) :
  isFirstOf req = true ->
  hasMediaExt (initFilenameOf req) = true ->
  status (fst (uploadChunk now id chunkId req st)) = 200 ->
  exists f : UploadedFile,
    file req = Some f
    /\ fst (uploadChunk now id chunkId req st)
       = {| status := 200; payload := InitUploadResponse (initFilenameOf req) |}
    /\ readFile (snd (uploadChunk now id chunkId req st)) id (initFilenameOf req)
       = Some (buffer f)
    /\ (forall name, name <> initFilenameOf req ->
          readFile (snd (uploadChunk now id chunkId req st)) id name
          = readFile st id name)
    /\ readFile (snd (uploadChunk now id chunkId req st)) id "playlist.m3u8"
       = readFile st id "playlist.m3u8"
    /\ (plainComponent id = true ->
        forall id', id' <> id ->
          storage (snd (uploadChunk now id chunkId req st)) !! id'
          = storage st !! id')
    /\ sessionMetadata (snd (uploadChunk now id chunkId req st))
       = sessionMetadata st.
Proof.
  intros Hfirst Hext H200. unfold uploadChunk in *.
  destruct (file req) as [f|]; [|discriminate H200].
  destruct (negb _); [discriminate H200|].
  destruct (mkdir now id st) as [st1|] eqn:H1; [|discriminate H200].
  rewrite Hfirst, Hext in *. cbn [negb] in *.
  destruct (writeFile id (initFilenameOf req) (buffer f) st1) as [st2|] eqn:H2;
    [|discriminate H200].
  cbn [fst snd reply]. exists f. split; [reflexivity|]. split; [reflexivity|].
  destruct (writeFile_inv _ _ _ _ _ H2) as (t & es & Hd1 & Hs2 & Hr2).
  destruct (mkdir_inv _ _ _ _ H1) as (Hr1 & t' & es' & Hd1' & Hold).
  rewrite Hd1 in Hd1'. injection Hd1' as <- <-.
  assert (Hread : forall name, name <> initFilenameOf req ->
                    readFile st2 id name = readFile st id name).
  { intros name Hne. unfold readFile.
    rewrite Hs2, lookup_insert_eq, (readEntry_writeEntry_other _ _ _ _ Hne).
    destruct (storage st !! id) as [n|] eqn:E.
    - destruct Hold as [-> _]. reflexivity.
    - destruct Hold as (_ & -> & _). reflexivity. }
  split; [|split; [exact Hread|split; [|split]]].
  - unfold readFile. rewrite Hs2, lookup_insert_eq.
    apply readEntry_writeEntry_same.
  - apply Hread. apply not_eq_sym, hasMediaExt_not_playlist, Hext.
  - intros _ id' Hne. rewrite Hs2, lookup_insert_ne by congruence.
    destruct (storage st !! id) as [n|] eqn:E.
    + destruct Hold as [_ ->]. reflexivity.
    + destruct Hold as (_ & _ & ->). apply lookup_insert_ne. congruence.
  - congruence.
Qed.

Lemma init_upload_writes_only_init_witness :
  readFile (snd (uploadChunk "t1" "s1" "0"
                   (chunkForm true "uploads/init_1.mp4" "II") sampleServer))
    "s1" "playlist.m3u8" = Some "old"
  /\ readFile (snd (uploadChunk "t1" "s1" "0"
                   (chunkForm true "uploads/init_1.mp4" "II") sampleServer))
    "s1" "init_1.mp4" = Some "II"
  /\ storage (snd (uploadChunk "t1" "s1" "0"
                   (chunkForm true "uploads/init_1.mp4" "II") sampleServer))
       !! "s2" = None.
Proof.
  destruct (init_upload_writes_only_init "t1" "s1" "0"
              (chunkForm true "uploads/init_1.mp4" "II") sampleServer)
    as (f & Hf & _ & Hw & _ & Hp & Hroot & _).
  - reflexivity.
  - vm_compute. reflexivity.
  - vm_compute. reflexivity.
  - split; [|split].
    + rewrite Hp. vm_compute. reflexivity.
    + injection Hf as <-. exact Hw.
    + rewrite (Hroot eq_refl "s2"); [reflexivity|discriminate].
Defined.

(** ** C7: startup reconciliation *)

Lemma loadEntry_lookup (name : string) (n : node)
    (reg : gmap string SessionMetadata) (k : string) :
  loadEntry name n reg !! k
  = match n with
    | Dir t es => if decide (name = k) then Some (recoveredMetadata name t es)
                  else reg !! k
    | File _ => reg !! k
    end.
Proof.
  destruct n as [c|t es]; simpl; [reflexivity|].
  rewrite lookup_insert. reflexivity.
Qed.

(** After the scan, a name is registered with the recovered metadata when
    it is a directory of the storage root, and is as before otherwise. *)
Lemma loadSessions_lookup (st : server) (k : string) :
  sessionMetadata (loadSessionsFromFilesystem st) !! k
  = match storage st !! k with
    | Some (Dir t es) => Some (recoveredMetadata k t es)
    | _ => sessionMetadata st !! k
    end.
Proof.
  unfold loadSessionsFromFilesystem. cbn [sessionMetadata storage].
  generalize (sessionMetadata st) as reg. intros reg.
  apply (map_fold_weak_ind
           (fun r m => r !! k = match m !! k with
                                | Some (Dir t es) => Some (recoveredMetadata k t es)
                                | _ => reg !! k
                                end)).
  - rewrite lookup_empty. reflexivity.
  - intros i x m r Hi IH. rewrite loadEntry_lookup, lookup_insert.
    destruct (decide (i = k)) as [->|Hne].
    + destruct x; [|reflexivity]. rewrite IH, Hi. reflexivity.
    + rewrite IH. destruct x; reflexivity.
Qed.

Lemma matchTargetDuration_nonempty (s ds : string) :
  matchTargetDuration s = Some ds -> isEmpty ds = false.
Proof.
  assert (Hhere : forall r, targetDurationHere r = Some ds -> isEmpty ds = false).
  { intros r. unfold targetDurationHere.
    destruct (stripPrefix _ r) as [r'|]; [|discriminate].
    destruct (spanDigits r') as [ds' rest].
    destruct (isEmpty ds') eqn:E; [discriminate|]. intros [= <-]. exact E. }
  induction s as [|c s IH]; cbn [matchTargetDuration].
  - destruct (targetDurationHere "") eqn:E; [|discriminate].
    intros [= <-]. exact (Hhere _ E).
  - destruct (targetDurationHere (String c s)) eqn:E.
    + intros [= <-]. exact (Hhere _ E).
    + exact IH.
Qed.

Lemma recoverDuration_generated (files : list string) (seq : string) (fin : bool) :
  recoverDuration (Some (playlistText files (Fin false 8 0) seq fin))
  = Fin false 8 0.
Proof. reflexivity. Qed.

(** C7.  The startup scan registers every directory of the storage root
    under its name, whatever the other entries are and whether or not its
    playlist can be read: no directory stops the scan.  The registered
    duration is the one the directory's playlist declares -- 8 for a
    playlist generated with target duration 8 -- and the default when the
    playlist is missing or has no target duration tag; in general it is
    [parseInt] of the digits after the first target duration tag.  An
    entry of the storage root that is not a directory is passed over. *)
Theorem loadSessions_restores_duration
    (st : server) (name birthtime : string) (es : list (string * string)) :
  storage st !! name = Some (Dir birthtime es) ->
  sessionMetadata (loadSessionsFromFilesystem st) !! name
  = Some {| sessionId := name;
            segmentDuration := recoverDuration (readEntry "playlist.m3u8" es);
            createdAt := birthtime |}
  /\ (forall files seq fin,
        readEntry "playlist.m3u8" es
        = Some (playlistText files (Fin false 8 0) seq fin) ->
        recoverDuration (readEntry "playlist.m3u8" es) = Fin false 8 0)
  /\ (readEntry "playlist.m3u8" es = None ->
      recoverDuration (readEntry "playlist.m3u8" es) = DEFAULT_SEGMENT_DURATION)
  /\ (forall content,
        readEntry "playlist.m3u8" es = Some content ->
        matchTargetDuration content = None ->
        recoverDuration (readEntry "playlist.m3u8" es) = DEFAULT_SEGMENT_DURATION)
  /\ (forall content ds,
        readEntry "playlist.m3u8" es = Some content ->
        matchTargetDuration content = Some ds ->
        recoverDuration (readEntry "playlist.m3u8" es) = parseInt ds)
  /\ (forall other content,
        storage st !! other = Some (File content) ->
        sessionMetadata (loadSessionsFromFilesystem st) !! other
        = sessionMetadata st !! other).
Proof.
  intros Hdir. split; [|split; [|split; [|split; [|split]]]].
  - rewrite loadSessions_lookup, Hdir. reflexivity.
  - intros files seq fin ->. apply recoverDuration_generated.
  - intros ->. reflexivity.
  - intros content -> Hm. unfold recoverDuration. rewrite Hm. reflexivity.
  - intros content ds -> Hm. unfold recoverDuration.
    rewrite Hm, (matchTargetDuration_nonempty _ _ Hm). reflexivity.
  - intros other content Hf. rewrite loadSessions_lookup, Hf. reflexivity.
Qed.

Lemma loadSessions_restores_duration_witness :
  segmentDuration <$> sessionMetadata (loadSessionsFromFilesystem startupServer) !! "a"
  = Some (Fin false 8 0)
  /\ segmentDuration <$> sessionMetadata (loadSessionsFromFilesystem startupServer) !! "b"
     = Some DEFAULT_SEGMENT_DURATION
  /\ segmentDuration <$> sessionMetadata (loadSessionsFromFilesystem startupServer) !! "c"
     = Some DEFAULT_SEGMENT_DURATION.
Proof.
  split; [|split].
  - destruct (loadSessions_restores_duration startupServer "a" "t1"
                [("chunk1.mp4", "x");
                 ("playlist.m3u8",
                  playlistText ["chunk1.mp4"] (Fin false 8 0) "1" false)])
      as (H & H8 & _ & _ & _ & _); [vm_compute; reflexivity|].
    rewrite H. cbn [fmap option_fmap option_map segmentDuration].
    rewrite (H8 ["chunk1.mp4"] "1" false); reflexivity.
  - destruct (loadSessions_restores_duration startupServer "b" "t2"
                [("chunk1.mp4", "x")])
      as (H & _ & Hnone & _ & _ & _); [vm_compute; reflexivity|].
    rewrite H. cbn [fmap option_fmap option_map segmentDuration].
    rewrite Hnone; reflexivity.
  - destruct (loadSessions_restores_duration startupServer "c" "t3"
                [("playlist.m3u8", "#EXTM3U")])
      as (H & _ & _ & Hbad & _ & _); [vm_compute; reflexivity|].
    rewrite H. cbn [fmap option_fmap option_map segmentDuration].
    rewrite (Hbad "#EXTM3U"); reflexivity.
Defined.

(** ** Digit strings *)

Lemma isDigit_plain (c : ascii) :
  isDigit c = true ->
  isWhiteSpace c = false
  /\ Ascii.eqb c "-" = false /\ Ascii.eqb c "+" = false
  /\ Ascii.eqb c "." = false /\ Ascii.eqb (lowerChar c) "e" = false.
Proof.
  destruct c as [[] [] [] [] [] [] [] []]; intros H; try discriminate H;
    repeat split; reflexivity.
Qed.

Lemma spanDigits_spec (s : string) :
  allDigits (fst (spanDigits s)) = true
  /\ s = fst (spanDigits s) ++ snd (spanDigits s)
  /\ match snd (spanDigits s) with
     | String c _ => isDigit c = false
     | EmptyString => True
     end.
Proof.
  induction s as [|c s IH]; simpl; [auto|].
  destruct (isDigit c) eqn:Hc.
  - destruct (spanDigits s) as [ds r]. simpl in *.
    destruct IH as (H1 & H2 & H3). rewrite Hc, H1.
    repeat split; [|exact H3].
    change (String c s = String c (ds ++ r)). rewrite <- H2. reflexivity.
  - simpl. rewrite Hc. auto.
Qed.

Lemma spanDigits_allDigits (ds r : string) :
  allDigits ds = true ->
  match r with String c _ => isDigit c = false | EmptyString => True end ->
  spanDigits (ds ++ r) = (ds, r).
Proof.
  intros Hd Hr. induction ds as [|c ds IH].
  - change ("" ++ r) with r. destruct r as [|c r]; [reflexivity|].
    simpl. rewrite Hr. reflexivity.
  - simpl in Hd. apply andb_prop in Hd. destruct Hd as [Hc Hd].
    change (String c ds ++ r) with (String c (ds ++ r)). simpl.
    rewrite Hc, (IH Hd). reflexivity.
Qed.

Lemma parseInt_digits (ds : string) :
  allDigits ds = true -> isEmpty ds = false ->
  parseInt ds = numberOfKey (roundToDouble (digitsValue ds)).
Proof.
  intros Hd Hne. destruct ds as [|c ds]; [discriminate Hne|].
  pose proof Hd as Hd'. simpl in Hd'. apply andb_prop in Hd'.
  destruct Hd' as [Hc _].
  destruct (isDigit_plain c Hc) as (Hw & Hm & Hp & _).
  unfold parseInt. cbn [trimStart]. rewrite Hw. cbn [readSign]. rewrite Hm, Hp.
  pose proof (spanDigits_allDigits (String c ds) "" Hd I) as Hs.
  rewrite append_nil_r in Hs. rewrite Hs. cbn [isEmpty].
  destruct (roundToDouble _) as [[|m]|]; reflexivity.
Qed.

Lemma matchChunk_digits (f ds : string) :
  matchChunk f = Some ds -> allDigits ds = true /\ isEmpty ds = false.
Proof.
  unfold matchChunk. destruct (stripPrefixCI "chunk" f) as [r|]; [|discriminate].
  pose proof (spanDigits_spec r) as (H1 & _ & _).
  destruct (spanDigits r) as [ds' rest]. simpl in H1.
  destruct (isEmpty ds') eqn:He; simpl; [discriminate|].
  destruct (isMediaExt rest); [|discriminate].
  intros [= <-]. auto.
Qed.

Lemma chunkNumber_key (f : string) :
  chunkNumber f = numberOfKey (chunkKey f).
Proof.
  unfold chunkNumber, chunkKey, chunkIndex.
  destruct (matchChunk f) as [ds|] eqn:E; [|reflexivity].
  destruct (matchChunk_digits f ds E) as [Hd Hne].
  rewrite Hne. apply parseInt_digits; assumption.
Qed.

(** ** The comparator and the sort *)

(** On parsed indices, [numA - numB] is positive exactly when the key of
    [b] is below the key of [a]; Infinity minus Infinity is NaN. *)
Lemma sub_keys_positive (a b : option N) :
  gtZero (sub (numberOfKey a) (numberOfKey b)) = keyLtb b a.
Proof.
  destruct a as [[|m]|], b as [[|p]|]; try reflexivity.
  unfold sub, numberOfKey, ofN, negate, add, keyLtb. cbn [negb signed].
  rewrite Z.min_id, Z.sub_diag. change (10 ^ 0)%Z with 1%Z.
  rewrite !Z.mul_1_r.
  destruct (N.ltb_spec (N.pos p) (N.pos m)) as [H|H].
  - destruct (Z.pos m + Z.neg p)%Z eqn:E; try reflexivity; lia.
  - destruct (Z.pos m + Z.neg p)%Z eqn:E; try reflexivity; lia.
Qed.

Lemma compareChunks_positive (a b : string) :
  gtZero (compareChunks a b) = keyLtb (chunkKey b) (chunkKey a).
Proof.
  unfold compareChunks. rewrite !chunkNumber_key. apply sub_keys_positive.
Qed.

Lemma keyLe_trans (a b c : option N) : keyLe a b -> keyLe b c -> keyLe a c.
Proof. destruct a, b, c; simpl; try tauto; lia. Qed.

Lemma keyLtb_true (a b : option N) : keyLtb a b = true -> keyLe a b.
Proof.
  destruct a, b; simpl; try discriminate; auto.
  intros H. apply N.ltb_lt in H. lia.
Qed.

Lemma keyLtb_false (a b : option N) : keyLtb a b = false -> keyLe b a.
Proof.
  destruct a, b; simpl; try discriminate; auto.
  intros H. apply N.ltb_ge in H. exact H.
Qed.

Section SortedByKey.
Context {A : Type} (cmp : A -> A -> number) (key : A -> option N).
Hypothesis cmp_key : forall x y, gtZero (cmp x y) = keyLtb (key y) (key x).

Let byKey (x y : A) : Prop := keyLe (key x) (key y).

Lemma insertSorted_sorted (x : A) (l : list A) :
  StronglySorted byKey l -> StronglySorted byKey (insertSorted cmp x l).
Proof.
  induction l as [|y l IH]; intros Hs; simpl.
  - repeat constructor.
  - inversion Hs as [|? ? Hl Hy]; subst.
    rewrite cmp_key. destruct (keyLtb (key y) (key x)) eqn:E.
    + constructor; [apply IH; exact Hl|].
      eapply Permutation_Forall; [symmetry; apply insertSorted_perm|].
      constructor; [apply keyLtb_true; exact E|exact Hy].
    + constructor; [exact Hs|].
      constructor; [apply keyLtb_false; exact E|].
      eapply List.Forall_impl; [|exact Hy].
      intros z Hz. eapply keyLe_trans; [apply keyLtb_false; exact E|exact Hz].
Qed.

Lemma sortWith_sorted (l : list A) : StronglySorted byKey (sortWith cmp l).
Proof.
  induction l as [|x l IH]; simpl; [constructor|].
  apply insertSorted_sorted. exact IH.
Qed.
End SortedByKey.

Lemma roundToDouble_exact (x : N) : (x < 2 ^ 53)%N -> roundToDouble x = Some x.
Proof.
  intros H. unfold roundToDouble.
  destruct (N.leb_spec (N.size x) 53) as [_|Hs]; [reflexivity|].
  exfalso.
  pose proof (N.size_le x) as Hle.
  assert (2 ^ 54 <= 2 ^ N.size x)%N by (apply N.pow_le_mono_r; lia).
  rewrite N.succ_double_spec in Hle.
  change (2 ^ 54)%N with (2 * 2 ^ 53)%N in *. lia.
Qed.

Lemma StronglySorted_impl_in {A : Type} (R R' : A -> A -> Prop) (l : list A) :
  (forall a b, In a l -> In b l -> R a b -> R' a b) ->
  StronglySorted R l -> StronglySorted R' l.
Proof.
  induction l as [|x l IH]; intros Himp Hs; [constructor|].
  inversion Hs as [|? ? Hl Hx]; subst. constructor.
  - apply IH; [|exact Hl]. intros a b Ha Hb. apply Himp; right; assumption.
  - rewrite List.Forall_forall in *. intros b Hb.
    apply Himp; [left; reflexivity|right; exact Hb|apply Hx; exact Hb].
Qed.

(** ** C2: numeric order of the fragments *)

(** C2, as the code has it.  The fragments of a playlist are the numbered
    fragments of the listing, sorted ascending by the double that
    [parseInt] gives the index in the file name.  When every index is below
    2^53 this is the integer the name encodes, so the fragments are in
    ascending numeric order (chunk2 before chunk10), whatever the order of
    the listing. *)
Theorem segments_sorted_numerically (files : list string) :
  Permutation (segmentFilesOf files) (List.filter isChunkFile files)
  /\ StronglySorted (fun a b => keyLe (chunkKey a) (chunkKey b))
       (segmentFilesOf files)
  /\ ((forall f, In f files -> isChunkFile f = true ->
         (chunkIndex f < 2 ^ 53)%N) ->
      StronglySorted (fun a b => (chunkIndex a <= chunkIndex b)%N)
        (segmentFilesOf files)).
Proof.
  assert (Hs : StronglySorted (fun a b => keyLe (chunkKey a) (chunkKey b))
                 (segmentFilesOf files)).
  { unfold segmentFilesOf. apply sortWith_sorted. apply compareChunks_positive. }
  split; [apply sortWith_perm|]. split; [exact Hs|].
  intros Hsmall. eapply StronglySorted_impl_in; [|exact Hs].
  intros a b Ha Hb. apply segmentFilesOf_In in Ha, Hb.
  destruct Ha as [Ha Hca], Hb as [Hb Hcb]. unfold chunkKey.
  rewrite (roundToDouble_exact _ (Hsmall a Ha Hca)).
  rewrite (roundToDouble_exact _ (Hsmall b Hb Hcb)).
  simpl. auto.
Qed.

Lemma segments_sorted_numerically_witness :
  segmentFilesOf ["chunk10.mp4"; "chunk2.mp4"; "chunk1.mp4"]
  = ["chunk1.mp4"; "chunk2.mp4"; "chunk10.mp4"]
  /\ StronglySorted (fun a b => (chunkIndex a <= chunkIndex b)%N)
       (segmentFilesOf ["chunk10.mp4"; "chunk2.mp4"; "chunk1.mp4"]).
Proof.
  split; [vm_compute; reflexivity|].
  apply (segments_sorted_numerically ["chunk10.mp4"; "chunk2.mp4"; "chunk1.mp4"]).
  intros f [<-|[<-|[<-|[]]]] _; vm_compute; reflexivity.
Defined.

(** The specification has the fragments ascending by the integer in the
    name for every directory.  That fails for indices that are not
    doubles: 2^53 + 1 and 2^53 parse to the same number, the comparator
    returns 0, and the stable sort keeps the listing order, the larger
    index first. *)
Lemma segments_order_counterexample :
  segmentFilesOf ["chunk9007199254740993.mp4"; "chunk9007199254740992.mp4"]
  = ["chunk9007199254740993.mp4"; "chunk9007199254740992.mp4"]
  /\ (chunkIndex "chunk9007199254740992.mp4"
      < chunkIndex "chunk9007199254740993.mp4")%N
  /\ ~ Sorted (fun a b => (chunkIndex a <= chunkIndex b)%N)
         (segmentFilesOf ["chunk9007199254740993.mp4";
                          "chunk9007199254740992.mp4"]).
Proof.
  split; [vm_compute; reflexivity|]. split; [vm_compute; reflexivity|].
  replace (segmentFilesOf _)
    with ["chunk9007199254740993.mp4"; "chunk9007199254740992.mp4"]
    by (vm_compute; reflexivity).
  intros H. inversion H as [|? ? _ Hhd]; subst.
  inversion Hhd as [|? ? Hle]; subst.
  vm_compute in Hle. apply Hle. reflexivity.
Qed.

(** ** Decimal digits of a number *)

Lemma digitVal_digitChar (d : N) : (d < 10)%N -> digitVal (digitChar d) = d.
Proof.
  intros H. unfold digitVal, digitChar.
  rewrite N_ascii_embedding by lia. lia.
Qed.

Lemma isDigit_digitChar (d : N) : (d < 10)%N -> isDigit (digitChar d) = true.
Proof.
  intros H. unfold isDigit, digitChar.
  rewrite N_ascii_embedding by lia.
  apply andb_true_intro. split; apply N.leb_le; lia.
Qed.

Lemma isZeroChar_digitChar (d : N) :
  (d < 10)%N -> d <> 0%N -> isZeroChar (digitChar d) = false.
Proof.
  intros H Hnz. unfold isZeroChar. apply Ascii.eqb_neq. intros Heq.
  apply (f_equal digitVal) in Heq. rewrite digitVal_digitChar in Heq by exact H.
  apply Hnz. exact Heq.
Qed.

Lemma valDigits_snoc (ds : list ascii) (c : ascii) :
  valDigits (ds ++ [c]) = (10 * valDigits ds + digitVal c)%N.
Proof. unfold valDigits. rewrite fold_left_app. reflexivity. Qed.

Lemma valDigits_leading_zeros (n : nat) (ds : list ascii) :
  valDigits (repeat "0"%char n ++ ds) = valDigits ds.
Proof.
  unfold valDigits. rewrite fold_left_app.
  replace (fold_left _ (repeat "0"%char n) 0%N) with 0%N; [reflexivity|].
  induction n as [|n IH]; [reflexivity|]. simpl. exact IH.
Qed.

Lemma digitsFuel_S (fuel : nat) (x : N) :
  digitsFuel (S fuel) x
  = if (x <? 10)%N then [digitChar x]
    else (digitsFuel fuel (x / 10) ++ [digitChar (x mod 10)])%list.
Proof. reflexivity. Qed.

(** With enough fuel the digits are those of [x]: they denote [x], they
    are digits, there is at least one, and the last one is [x mod 10]. *)
Lemma digitsFuel_spec (fuel : nat) :
  forall x : N, (x < 2 ^ N.of_nat fuel)%N ->
    valDigits (digitsFuel (S fuel) x) = x
    /\ Forall (fun c => isDigit c = true) (digitsFuel (S fuel) x)
    /\ exists front, digitsFuel (S fuel) x = (front ++ [digitChar (x mod 10)])%list.
Proof.
  induction fuel as [|fuel IH]; intros x Hx.
  - assert (x = 0%N) by (change (2 ^ N.of_nat 0)%N with 1%N in Hx; lia). subst x.
    split; [reflexivity|]. split; [repeat constructor|]. exists []. reflexivity.
  - rewrite (digitsFuel_S (S fuel) x). destruct (N.ltb_spec x 10) as [Hlt|Hge].
    + split; [|split].
      * unfold valDigits. simpl. rewrite digitVal_digitChar by exact Hlt. lia.
      * constructor; [apply isDigit_digitChar; exact Hlt|constructor].
      * exists []. rewrite N.mod_small by exact Hlt. reflexivity.
    + assert (Hdiv : (x / 10 < 2 ^ N.of_nat fuel)%N).
      { rewrite Nat2N.inj_succ, N.pow_succ_r' in Hx.
        apply N.Div0.div_lt_upper_bound. lia. }
      destruct (IH (x / 10)%N Hdiv) as (Hv & Hd & _).
      assert (Hmod : (x mod 10 < 10)%N) by (apply N.mod_lt; lia).
      split; [|split].
      * rewrite valDigits_snoc, Hv, digitVal_digitChar by exact Hmod.
        symmetry. apply N.div_mod. lia.
      * apply Forall_app. split; [exact Hd|].
        constructor; [apply isDigit_digitChar; exact Hmod|constructor].
      * eexists. reflexivity.
Qed.

Lemma digitsOfN_spec (x : N) :
  valDigits (digitsOfN x) = x
  /\ Forall (fun c => isDigit c = true) (digitsOfN x)
  /\ exists front, digitsOfN x = (front ++ [digitChar (x mod 10)])%list.
Proof.
  unfold digitsOfN. apply digitsFuel_spec.
  rewrite N2Nat.id. apply N.size_gt.
Qed.

Lemma dropZeros_repeat (n : nat) (ds : list ascii) :
  dropZeros (repeat "0"%char n ++ ds) = dropZeros ds.
Proof. induction n as [|n IH]; [reflexivity|]. simpl. exact IH. Qed.

(** Zeros appended to digits whose last digit is not zero are exactly what
    the stripping removes. *)
Lemma stripTrailingZeros_app (front : list ascii) (c : ascii) (n : nat) :
  isZeroChar c = false ->
  stripTrailingZeros ((front ++ [c]) ++ repeat "0"%char n) = (front ++ [c])%list.
Proof.
  intros Hc. unfold stripTrailingZeros.
  rewrite rev_app_distr, rev_repeat, dropZeros_repeat.
  rewrite rev_app_distr. simpl. rewrite Hc.
  change (c :: rev front) with (rev [c] ++ rev front)%list.
  rewrite <- rev_app_distr. apply rev_involutive.
Qed.

Lemma stripTrailingZeros_id (front : list ascii) (c : ascii) :
  isZeroChar c = false ->
  stripTrailingZeros (front ++ [c]) = (front ++ [c])%list.
Proof.
  intros Hc. pose proof (stripTrailingZeros_app front c 0 Hc) as H.
  simpl in H. rewrite app_nil_r in H. exact H.
Qed.

(** ** Reading back a printed number *)

Lemma string_of_list_ascii_app (a b : list ascii) :
  string_of_list_ascii (a ++ b)
  = string_of_list_ascii a ++ string_of_list_ascii b.
Proof.
  induction a as [|c a IH]; [reflexivity|].
  change (String c (string_of_list_ascii (a ++ b))
          = String c (string_of_list_ascii a ++ string_of_list_ascii b)).
  rewrite IH. reflexivity.
Qed.

Lemma length_string_of_list_ascii (l : list ascii) :
  String.length (string_of_list_ascii l) = length l.
Proof. induction l as [|c l IH]; [reflexivity|]. simpl. rewrite IH. reflexivity. Qed.

Lemma allDigits_string_of_list (ds : list ascii) :
  Forall (fun c => isDigit c = true) ds ->
  allDigits (string_of_list_ascii ds) = true.
Proof.
  induction 1 as [|c ds Hc _ IH]; [reflexivity|].
  simpl. rewrite Hc, IH. reflexivity.
Qed.

Lemma isEmpty_string_of_list (l : list ascii) :
  l <> [] -> isEmpty (string_of_list_ascii l) = false.
Proof. destruct l; [congruence|reflexivity]. Qed.

Lemma exponentTail_no_digit (r : string) :
  exponentTail r ->
  match r with String c _ => isDigit c = false | EmptyString => True end.
Proof. intros [->|[r' ->]]; [exact I|reflexivity]. Qed.

(** Digits followed by an exponent tail: no fraction. *)
Lemma parseDecimal_integer (neg : bool) (ip : list ascii) (r : string) :
  Forall (fun c => isDigit c = true) ip -> ip <> [] -> exponentTail r ->
  parseDecimal neg (string_of_list_ascii ip ++ r)
  = normalize neg ip (readExponent r).
Proof.
  intros Hd Hne Hr. unfold parseDecimal.
  rewrite (spanDigits_allDigits _ r (allDigits_string_of_list ip Hd)
             (exponentTail_no_digit r Hr)).
  assert (Hfp : match r with
                | String c r0 => if Ascii.eqb c "." then spanDigits r0 else ("", r)
                | EmptyString => ("", r)
                end = ("", r)).
  { destruct Hr as [->|[r' ->]]; reflexivity. }
  rewrite Hfp, (isEmpty_string_of_list ip Hne). cbn [andb String.length].
  rewrite append_nil_r, list_ascii_of_string_of_list_ascii, Z.sub_0_r.
  reflexivity.
Qed.

(** Digits, a dot, digits, then an exponent tail. *)
Lemma parseDecimal_fraction (neg : bool) (ip fp : list ascii) (r : string) :
  Forall (fun c => isDigit c = true) ip ->
  Forall (fun c => isDigit c = true) fp ->
  ip <> [] -> exponentTail r ->
  parseDecimal neg (string_of_list_ascii ip ++ String "." (string_of_list_ascii fp ++ r))
  = normalize neg (ip ++ fp) (readExponent r - Z.of_nat (length fp)).
Proof.
  intros Hi Hf Hne Hr. unfold parseDecimal.
  rewrite (spanDigits_allDigits _ (String "." (string_of_list_ascii fp ++ r))
             (allDigits_string_of_list ip Hi) eq_refl).
  change (Ascii.eqb "." ".") with true. cbv iota.
  rewrite (spanDigits_allDigits _ r (allDigits_string_of_list fp Hf)
             (exponentTail_no_digit r Hr)).
  rewrite (isEmpty_string_of_list ip Hne). cbn [andb].
  rewrite <- string_of_list_ascii_app, list_ascii_of_string_of_list_ascii.
  rewrite length_string_of_list_ascii. reflexivity.
Qed.

Lemma digitsValue_string_of_list (ds : list ascii) :
  digitsValue (string_of_list_ascii ds) = valDigits ds.
Proof. unfold digitsValue. rewrite list_ascii_of_string_of_list_ascii. reflexivity. Qed.

Lemma digitsOfN_nonempty (x : N) : digitsOfN x <> [].
Proof.
  destruct (digitsOfN_spec x) as (_ & _ & front & ->).
  destruct front; discriminate.
Qed.

(** The exponent part that [layout] prints reads back as the exponent. *)
Lemma readExponent_printed (x : Z) :
  readExponent
    (String "e" (String (if (x <? 0)%Z then "-" else "+")%char
                   (string_of_list_ascii (digitsOfN (Z.abs_N x)))))
  = x.
Proof.
  destruct (digitsOfN_spec (Z.abs_N x)) as (Hv & Hd & _).
  pose proof (spanDigits_allDigits _ "" (allDigits_string_of_list _ Hd) I) as Hs.
  rewrite append_nil_r in Hs.
  pose proof (isEmpty_string_of_list _ (digitsOfN_nonempty (Z.abs_N x))) as He.
  unfold readExponent. change (Ascii.eqb (lowerChar "e") "e") with true. cbv iota.
  destruct (Z.ltb_spec x 0) as [Hneg|Hpos].
  - cbn [readSign]. change (Ascii.eqb "-" "-") with true. cbv iota.
    rewrite Hs, He, digitsValue_string_of_list, Hv. lia.
  - cbn [readSign]. change (Ascii.eqb "+" "-") with false.
    change (Ascii.eqb "+" "+") with true. cbv iota.
    rewrite Hs, He, digitsValue_string_of_list, Hv. lia.
Qed.

Lemma exponentTail_printed (x : Z) :
  exponentTail
    (String "e" (String (if (x <? 0)%Z then "-" else "+")%char
                   (string_of_list_ascii (digitsOfN (Z.abs_N x))))).
Proof. right. eexists. reflexivity. Qed.

(** Digits with [z] zeros appended denote the significand times 10^z. *)
Lemma normalize_trailing (neg : bool) (front : list ascii) (c : ascii)
    (z : nat) (m : positive) (X : Z) :
  isZeroChar c = false ->
  valDigits (front ++ [c]) = N.pos m ->
  normalize neg ((front ++ [c]) ++ repeat "0"%char z) X
  = Fin neg m (X + Z.of_nat z).
Proof.
  intros Hc Hv. unfold normalize.
  rewrite (stripTrailingZeros_app front c z Hc), Hv.
  f_equal. rewrite !length_app, repeat_length. f_equal. lia.
Qed.

Lemma normalize_exact (neg : bool) (front : list ascii) (c : ascii)
    (m : positive) (X : Z) :
  isZeroChar c = false ->
  valDigits (front ++ [c]) = N.pos m ->
  normalize neg (front ++ [c]) X = Fin neg m X.
Proof.
  intros Hc Hv. pose proof (normalize_trailing neg front c 0 m X Hc Hv) as H.
  simpl in H. rewrite app_nil_r, Z.add_0_r in H. exact H.
Qed.

(** A numeral that starts with a digit has no sign, is not Infinity and
    needs no trimming. *)
Lemma parseFloat_digit_first (c : ascii) (s : string) :
  isDigit c = true ->
  parseFloat (String c s) = parseDecimal false (String c s).
Proof.
  intros Hc. destruct (isDigit_plain c Hc) as (Hw & Hm & Hp & _).
  unfold parseFloat. cbn [trimStart]. rewrite Hw. cbn [readSign].
  rewrite Hm, Hp. cbn [stripPrefix].
  assert (HI : Ascii.eqb "I" c = false).
  { destruct c as [[] [] [] [] [] [] [] []]; try discriminate Hc; reflexivity. }
  rewrite HI. reflexivity.
Qed.

Lemma parseFloat_digits_first (ip : list ascii) (r : string) :
  Forall (fun c => isDigit c = true) ip -> ip <> [] ->
  parseFloat (string_of_list_ascii ip ++ r)
  = parseDecimal false (string_of_list_ascii ip ++ r).
Proof.
  intros Hd Hne. destruct ip as [|c ip]; [congruence|].
  inversion Hd as [|? ? Hc _]; subst.
  change (string_of_list_ascii (c :: ip) ++ r)
    with (String c (string_of_list_ascii ip ++ r)).
  apply parseFloat_digit_first. exact Hc.
Qed.

Lemma Forall_digit_zeros (z : nat) :
  Forall (fun c => isDigit c = true) (repeat "0"%char z).
Proof. induction z; simpl; constructor; auto. Qed.

(** [parseFloat] reads back the layout of digits that end in a digit
    other than zero. *)
Lemma parseFloat_layout (front : list ascii) (c : ascii) (m : positive) (e : Z) :
  isZeroChar c = false ->
  valDigits (front ++ [c]) = N.pos m ->
  Forall (fun c => isDigit c = true) (front ++ [c]) ->
  parseFloat
    (string_of_list_ascii
       (layout (front ++ [c]) (Z.of_nat (length (front ++ [c])) + e)))
  = Fin false m e.
Proof.
  intros Hc Hv Hd.
  set (ds := (front ++ [c])%list) in *.
  assert (Hne : ds <> []) by (unfold ds; destruct front; discriminate).
  unfold layout.
  set (k := length ds). set (n := (Z.of_nat k + e)%Z).
  destruct ((0 <? n)%Z && (n <=? 21)%Z) eqn:Hfix.
  - apply andb_prop in Hfix. destruct Hfix as [H0 H21].
    apply Z.ltb_lt in H0. apply Z.leb_le in H21.
    destruct (Z.leb_spec (Z.of_nat k) n) as [Hkn|Hkn].
    + (* the digits, then zeros *)
      rewrite <- (append_nil_r (string_of_list_ascii _)).
      assert (Hall : Forall (fun c => isDigit c = true)
                       (ds ++ repeat "0"%char (Z.to_nat (n - Z.of_nat k)))).
      { apply Forall_app. split; [exact Hd|apply Forall_digit_zeros]. }
      rewrite parseFloat_digits_first;
        [|exact Hall|destruct ds; [congruence|discriminate]].
      rewrite parseDecimal_integer;
        [|exact Hall|destruct ds; [congruence|discriminate]|left; reflexivity].
      unfold ds. rewrite (normalize_trailing _ _ _ _ m _ Hc Hv).
      f_equal. cbn [readExponent]. lia.
    + (* a decimal point inside the digits *)
      pose proof (firstn_skipn (Z.to_nat n) ds) as Hsplit.
      assert (Hparts : Forall (fun c => isDigit c = true) (firstn (Z.to_nat n) ds)
                       /\ Forall (fun c => isDigit c = true) (skipn (Z.to_nat n) ds)).
      { apply Forall_app. rewrite Hsplit. exact Hd. }
      destruct Hparts as [Hip Hfp].
      assert (Hipne : firstn (Z.to_nat n) ds <> []).
      { intros Heq. apply (f_equal (@length ascii)) in Heq.
        rewrite length_firstn in Heq. simpl in Heq. fold k in Heq. lia. }
      rewrite string_of_list_ascii_app.
      change (string_of_list_ascii ("."%char :: skipn (Z.to_nat n) ds))
        with (String "." (string_of_list_ascii (skipn (Z.to_nat n) ds))).
      rewrite <- (append_nil_r (string_of_list_ascii (skipn _ _))).
      rewrite parseFloat_digits_first by assumption.
      rewrite parseDecimal_fraction by (assumption || (left; reflexivity)).
      rewrite Hsplit. unfold ds. rewrite (normalize_exact _ _ _ m _ Hc Hv).
      f_equal. fold ds. rewrite length_skipn. fold k. cbn [readExponent]. lia.
  - destruct ((-6 <? n)%Z && (n <=? 0)%Z) eqn:Hsmall.
    + (* 0.000ddd *)
      apply andb_prop in Hsmall. destruct Hsmall as [H6 H0].
      apply Z.ltb_lt in H6. apply Z.leb_le in H0.
      set (z := Z.to_nat (- n)).
      change (string_of_list_ascii ("0"%char :: "."%char :: (repeat "0"%char z ++ ds)%list))
        with (string_of_list_ascii ["0"%char]
              ++ String "." (string_of_list_ascii (repeat "0"%char z ++ ds)%list)).
      rewrite <- (append_nil_r (string_of_list_ascii (repeat _ _ ++ _)%list)).
      assert (Hfp : Forall (fun c => isDigit c = true) (repeat "0"%char z ++ ds)).
      { apply Forall_app. split; [apply Forall_digit_zeros|exact Hd]. }
      rewrite parseFloat_digits_first by (repeat constructor || discriminate).
      rewrite parseDecimal_fraction;
        [|repeat constructor|exact Hfp|discriminate|left; reflexivity].
      unfold ds.
      replace (["0"%char] ++ repeat "0"%char z ++ front ++ [c])%list
        with ((repeat "0"%char (S z) ++ front) ++ [c])%list
        by (simpl; rewrite <- app_assoc; reflexivity).
      rewrite (normalize_exact _ _ _ m).
      * f_equal. rewrite length_app, repeat_length. fold ds. fold k.
        cbn [readExponent]. unfold z. lia.
      * exact Hc.
      * rewrite <- app_assoc, valDigits_leading_zeros. exact Hv.
    + (* exponent notation *)
      assert (Hn : (n <= -6 \/ 21 < n)%Z).
      { apply andb_false_iff in Hfix. apply andb_false_iff in Hsmall.
        rewrite !Z.ltb_ge, !Z.leb_gt in *. lia. }
      set (x := (n - 1)%Z).
      pose proof (readExponent_printed x) as Hx.
      pose proof (exponentTail_printed x) as Ht.
      assert (Hnorm : forall X, normalize false ds X = Fin false m X).
      { intros X. unfold ds. apply (normalize_exact _ _ _ m _ Hc Hv). }
      destruct ds as [|d rest]; [congruence|].
      inversion Hd as [|? ? Hdd Hdrest]; subst.
      destruct rest as [|d2 rest].
      * change (string_of_list_ascii (d :: "e"%char :: _))
          with (string_of_list_ascii [d]
                ++ String "e" (String (if (x <? 0)%Z then "-" else "+")%char
                                 (string_of_list_ascii (digitsOfN (Z.abs_N x))))).
        rewrite parseFloat_digits_first by (repeat constructor; auto; discriminate).
        rewrite parseDecimal_integer;
          [|repeat constructor; auto|discriminate|exact Ht].
        rewrite Hx, Hnorm. f_equal. unfold x, n, k. simpl. lia.
      * change (string_of_list_ascii (d :: "."%char :: ((d2 :: rest) ++ "e"%char :: _)%list))
          with (string_of_list_ascii [d]
                ++ String "."
                     (string_of_list_ascii
                        ((d2 :: rest)
                         ++ "e"%char :: (if (x <? 0)%Z then "-" else "+")%char
                            :: digitsOfN (Z.abs_N x))%list)).
        rewrite string_of_list_ascii_app.
        change (string_of_list_ascii ("e"%char :: ?s :: ?t))
          with (String "e" (String s (string_of_list_ascii t))).
        rewrite parseFloat_digits_first by (repeat constructor; auto; discriminate).
        rewrite parseDecimal_fraction;
          [|repeat constructor; auto|exact Hdrest|discriminate|exact Ht].
        rewrite Hx. change ([d] ++ d2 :: rest)%list with (d :: d2 :: rest).
        rewrite Hnorm. f_equal. unfold x, n, k. simpl length. lia.
Qed.

(** Printing a positive canonical number and reading it back is the
    identity. *)
Lemma parseFloat_toString (d : number) :
  canonical d = true -> gtZero d = true -> parseFloat (toString d) = d.
Proof.
  destruct d as [|[]|[]|[] m e]; try discriminate; intros Hc _;
    [reflexivity|].
  assert (Hwf : (N.pos m mod 10 <> 0)%N).
  { simpl in Hc. apply negb_true_iff, N.eqb_neq in Hc. exact Hc. }
  unfold toString.
  destruct (digitsOfN_spec (N.pos m)) as (_ & _ & front & Hds).
  assert (Hs : stripTrailingZeros (digitsOfN (N.pos m)) = digitsOfN (N.pos m)).
  { rewrite Hds. apply stripTrailingZeros_id.
    apply isZeroChar_digitChar; [apply N.mod_lt; lia|exact Hwf]. }
  rewrite Hs. destruct (digitsOfN_spec (N.pos m)) as (Hv & Hd & _).
  revert Hv Hd. rewrite Hds. intros Hv Hd. apply parseFloat_layout; try assumption.
  apply isZeroChar_digitChar; [apply N.mod_lt; lia|exact Hwf].
Qed.

(** *** Every number prints like its canonical form *)

Lemma isDigit_range (c : ascii) :
  isDigit c = true -> (48 <= N_of_ascii c <= 57)%N.
Proof.
  unfold isDigit. intros H. apply andb_prop in H. destruct H as [H1 H2].
  apply N.leb_le in H1, H2. lia.
Qed.

Lemma digitChar_digitVal (c : ascii) :
  isDigit c = true -> digitChar (digitVal c) = c.
Proof.
  intros H. apply isDigit_range in H. unfold digitChar, digitVal.
  replace (48 + (N_of_ascii c - 48))%N with (N_of_ascii c) by lia.
  apply ascii_N_embedding.
Qed.

Lemma digitVal_lt (c : ascii) : isDigit c = true -> (digitVal c < 10)%N.
Proof. intros H. apply isDigit_range in H. unfold digitVal. lia. Qed.

Lemma digitVal_nonzero (c : ascii) :
  isDigit c = true -> isZeroChar c = false -> digitVal c <> 0%N.
Proof.
  intros Hd Hz Hv. apply (f_equal digitChar) in Hv.
  rewrite digitChar_digitVal in Hv by exact Hd. subst c. discriminate Hz.
Qed.

Lemma digitsFuel_any (fuel : nat) :
  forall (fuel' : nat) (x : N),
    (x < 2 ^ N.of_nat fuel)%N -> (x < 2 ^ N.of_nat fuel')%N ->
    digitsFuel (S fuel) x = digitsFuel (S fuel') x.
Proof.
  induction fuel as [|fuel IH]; intros fuel' x Hx Hx'.
  - assert (x = 0%N) by (change (2 ^ N.of_nat 0)%N with 1%N in Hx; lia). subst x.
    rewrite !digitsFuel_S. reflexivity.
  - rewrite (digitsFuel_S (S fuel)), (digitsFuel_S fuel').
    destruct (N.ltb_spec x 10) as [Hlt|Hge]; [reflexivity|].
    destruct fuel' as [|fuel'].
    { change (2 ^ N.of_nat 0)%N with 1%N in Hx'. lia. }
    rewrite Nat2N.inj_succ, N.pow_succ_r' in Hx, Hx'.
    f_equal. apply IH; apply N.Div0.div_lt_upper_bound; lia.
Qed.

Lemma digitsOfN_small (x : N) : (x < 10)%N -> digitsOfN x = [digitChar x].
Proof.
  intros H. unfold digitsOfN. rewrite digitsFuel_S.
  destruct (N.ltb_spec x 10); [reflexivity|lia].
Qed.

Lemma digitsOfN_step (x : N) :
  (10 <= x)%N ->
  digitsOfN x = (digitsOfN (x / 10) ++ [digitChar (x mod 10)])%list.
Proof.
  intros H. unfold digitsOfN at 1. rewrite digitsFuel_S.
  destruct (N.ltb_spec x 10) as [|_]; [lia|].
  f_equal. pose proof (N.size_gt x) as Hsize.
  destruct (N.to_nat (N.size x)) as [|g] eqn:Eg.
  { assert (N.size x = 0%N) as E0 by lia. rewrite E0 in Hsize.
    change (2 ^ 0)%N with 1%N in Hsize. lia. }
  unfold digitsOfN. apply digitsFuel_any.
  - assert (N.size x = N.succ (N.of_nat g)) as E1 by lia.
    rewrite E1, N.pow_succ_r' in Hsize.
    apply N.Div0.div_lt_upper_bound. lia.
  - rewrite N2Nat.id. apply N.size_gt.
Qed.

Lemma startsNonZero_app (l l' : list ascii) :
  startsNonZero l -> startsNonZero (l ++ l').
Proof. intros (c & rest & -> & Hc). exists c, (rest ++ l')%list. auto. Qed.

Lemma digitsOfN_head (x : N) : x <> 0%N -> startsNonZero (digitsOfN x).
Proof.
  assert (H : forall (n : nat) (y : N),
             N.to_nat y <= n -> y <> 0%N -> startsNonZero (digitsOfN y)).
  { induction n as [|n IH]; intros y Hy Hnz; [lia|].
    destruct (N.ltb_spec y 10) as [Hlt|Hge].
    - rewrite (digitsOfN_small y Hlt). exists (digitChar y), [].
      split; [reflexivity|]. apply isZeroChar_digitChar; assumption.
    - rewrite (digitsOfN_step y Hge). apply startsNonZero_app, IH.
      + assert (y / 10 < y)%N by (apply N.div_lt; lia). lia.
      + intros E. apply N.div_small_iff in E; lia. }
  intros Hx. apply (H (N.to_nat x) x); [lia|exact Hx].
Qed.

(** Digits that do not start with a zero are the digits of their value. *)
Lemma digitsOfN_valDigits (l : list ascii) :
  Forall (fun c => isDigit c = true) l -> startsNonZero l ->
  digitsOfN (valDigits l) = l.
Proof.
  induction l as [|c l IH] using rev_ind; intros Hd Hs.
  - destruct Hs as (? & ? & [=] & _).
  - apply Forall_app in Hd. destruct Hd as [Hd Hc].
    inversion Hc as [|? ? Hc' _]; subst.
    rewrite valDigits_snoc. destruct l as [|c0 l].
    + change (valDigits []) with 0%N. rewrite N.mul_0_r, N.add_0_l.
      rewrite digitsOfN_small by (apply digitVal_lt; exact Hc').
      rewrite digitChar_digitVal by exact Hc'. reflexivity.
    + assert (Hs' : startsNonZero (c0 :: l)).
      { destruct Hs as (c1 & rest & [= <- _] & Hz). exists c0, l. auto. }
      specialize (IH Hd Hs').
      assert (Hv : valDigits (c0 :: l) <> 0%N).
      { intros E. rewrite E in IH. destruct Hs' as (c1 & rest & [= <- <-] & Hz).
        injection IH as <- _. discriminate Hz. }
      pose proof (digitVal_lt c Hc') as Hlt.
      rewrite digitsOfN_step by lia.
      replace ((10 * valDigits (c0 :: l) + digitVal c) / 10)%N
        with (valDigits (c0 :: l)).
      2:{ symmetry. rewrite N.mul_comm, N.div_add_l by lia.
          rewrite N.div_small by exact Hlt. lia. }
      replace ((10 * valDigits (c0 :: l) + digitVal c) mod 10)%N
        with (digitVal c).
      2:{ symmetry. rewrite N.add_comm, N.mul_comm, N.Div0.mod_add.
          apply N.mod_small. exact Hlt. }
      rewrite IH, digitChar_digitVal by exact Hc'. reflexivity.
Qed.

Lemma isZeroChar_true (c : ascii) : isZeroChar c = true -> c = "0"%char.
Proof. unfold isZeroChar. apply Ascii.eqb_eq. Qed.

(** Digits that start with a digit other than zero are digits that end in
    one, followed by zeros. *)
Lemma trailing_zeros_split (l : list ascii) :
  startsNonZero l ->
  exists front c z,
    l = ((front ++ [c]) ++ repeat "0"%char z)%list
    /\ isZeroChar c = false /\ startsNonZero (front ++ [c]).
Proof.
  induction l as [|x l IH] using rev_ind; intros Hs.
  - destruct Hs as (? & ? & [=] & _).
  - destruct (isZeroChar x) eqn:Hx.
    + apply isZeroChar_true in Hx. subst x.
      assert (Hs' : startsNonZero l).
      { destruct Hs as (c & rest & E & Hz). destruct l as [|c0 l].
        - injection E as <- _. discriminate Hz.
        - injection E as <- _. exists c0, l. auto. }
      destruct (IH Hs') as (front & c & z & -> & Hc & Hf).
      exists front, c, (S z). split; [|auto].
      rewrite <- app_assoc. f_equal.
      change (repeat "0"%char (S z)) with ("0"%char :: repeat "0"%char z).
      symmetry. apply repeat_cons.
    + exists l, x, 0. simpl. rewrite app_nil_r. auto.
Qed.

(** What [parseFloat] returns for the printed form of a positive number:
    a positive canonical number that prints the same; the number itself
    when it is canonical. *)
Lemma toString_parseFloat_toString (d : number) :
  gtZero d = true ->
  toString (parseFloat (toString d)) = toString d
  /\ canonical (parseFloat (toString d)) = true
  /\ gtZero (parseFloat (toString d)) = true.
Proof.
  destruct d as [|[]|[]|[] m e]; try discriminate; intros _;
    [repeat split|].
  destruct (digitsOfN_spec (N.pos m)) as (_ & Hd & _).
  destruct (trailing_zeros_split _ (digitsOfN_head (N.pos m) ltac:(discriminate)))
    as (front & c & z & Hl & Hc & Hs).
  assert (Hdf : Forall (fun c => isDigit c = true) (front ++ [c])).
  { rewrite Hl in Hd. apply Forall_app in Hd. tauto. }
  pose proof (digitsOfN_valDigits _ Hdf Hs) as Huniq.
  destruct (valDigits (front ++ [c])) as [|m'] eqn:Hv.
  { rewrite digitsOfN_small in Huniq by lia.
    destruct front as [|? [|? ?]]; try discriminate Huniq.
    injection Huniq as <-. discriminate Hc. }
  assert (Hprint : toString (Fin false m e)
                   = string_of_list_ascii
                       (layout (front ++ [c])
                          (Z.of_nat (length (front ++ [c])) + (Z.of_nat z + e)))).
  { unfold toString. rewrite Hl, (stripTrailingZeros_app front c z Hc).
    f_equal. f_equal. rewrite (length_app (front ++ [c])), repeat_length. lia. }
  assert (Hparse : parseFloat (toString (Fin false m e))
                   = Fin false m' (Z.of_nat z + e)).
  { rewrite Hprint. apply parseFloat_layout; assumption. }
  rewrite Hparse. split; [|split; [|reflexivity]].
  - rewrite Hprint. unfold toString. rewrite Huniq.
    rewrite (stripTrailingZeros_id front c Hc). reflexivity.
  - cbn [canonical]. apply negb_true_iff, N.eqb_neq.
    rewrite <- Hv, valDigits_snoc.
    apply Forall_app in Hdf. destruct Hdf as [_ Hdc].
    inversion Hdc as [|? ? Hdc' _]; subst.
    rewrite N.add_comm, N.mul_comm, N.Div0.mod_add.
    rewrite N.mod_small by (apply digitVal_lt; exact Hdc').
    apply digitVal_nonzero; assumption.
Qed.

(** A numeral with a minus sign is never read as a positive number. *)
Lemma parseFloat_minus (s : string) :
  isNaN (parseFloat (String "-" s)) || leZero (parseFloat (String "-" s)) = true.
Proof.
  unfold parseFloat. cbn [trimStart]. change (isWhiteSpace "-") with false.
  cbv iota. cbn [readSign]. change (Ascii.eqb "-" "-") with true. cbv iota.
  destruct (stripPrefix "Infinity" s); [reflexivity|].
  unfold parseDecimal. destruct (spanDigits s) as [ip r1].
  destruct (match r1 with
            | String c r => if Ascii.eqb c "." then spanDigits r else ("", r1)
            | EmptyString => ("", r1)
            end) as [fp r2].
  destruct (isEmpty ip && isEmpty fp); [reflexivity|].
  unfold normalize. destruct (valDigits _); reflexivity.
Qed.

Lemma negative_number_rejected (d : number) :
  ltZero d = true -> rejectedDuration (JNumber d) = true.
Proof.
  destruct d as [|[]|[]|[] m e]; try discriminate; intros _; [reflexivity|].
  unfold rejectedDuration. cbn [truthy numberTruthy valueToString andb].
  unfold toString. cbn [string_of_list_ascii]. apply parseFloat_minus.
Qed.

(** ** C4: validation of the segment duration *)

Lemma rejectedDuration_inv (v : jsvalue) :
  rejectedDuration v = true ->
  orElse v (JNumber DEFAULT_SEGMENT_DURATION) = v
  /\ exists text, valueToString v = Some text
       /\ isNaN (parseFloat text) || leZero (parseFloat text) = true.
Proof.
  unfold rejectedDuration, orElse. intros H. apply andb_prop in H.
  destruct H as [Ht H]. rewrite Ht. split; [reflexivity|].
  destruct (valueToString v) as [text|]; [|discriminate]. eauto.
Qed.

Lemma createSession_rejected (baseUrl uuid now id : string)
    (req : CreateSessionRequest) (st st1 : server) :
  orElse (reqSessionId req) (JString uuid) = JString id ->
  mkdir now id st = Some st1 ->
  rejectedDuration (reqSegmentDuration req) = true ->
  createSession baseUrl uuid now req st
  = reply 400 (ErrorResponse "segmentDuration must be a positive number") st1.
Proof.
  intros Hid Hmk Hrej.
  destruct (rejectedDuration_inv _ Hrej) as (Hor & text & Htext & Hbad).
  unfold createSession. rewrite Hid, Hmk, Hor, Htext, Hbad. reflexivity.
Qed.

Lemma absentDuration_default (v : jsvalue) :
  absentDuration v = true ->
  orElse v (JNumber DEFAULT_SEGMENT_DURATION) = JNumber DEFAULT_SEGMENT_DURATION.
Proof.
  destruct v as [| |[]|x|s]; try discriminate; try reflexivity.
  simpl. intros H. unfold orElse. simpl. rewrite H. reflexivity.
Qed.

(** What the validation does turn down.  A request whose segment duration
    is truthy and reads, through [parseFloat] of its string form, as NaN
    or as a number that is not positive is turned down: the registry is
    left as it was, the answer is never 200, and it is the 400 validation
    error whenever the session directory can be created.  Every negative
    number, the value [true] and every non-empty string without a numeric
    prefix are such durations.  A duration that is absent, [null], [false]
    or the empty string is replaced by the default before validation. *)
Lemma createSession_rejects_invalid_duration
    (baseUrl uuid now : string) (req : CreateSessionRequest) (st : server) :
  (rejectedDuration (reqSegmentDuration req) = true ->
   sessionMetadata (snd (createSession baseUrl uuid now req st))
   = sessionMetadata st
   /\ status (fst (createSession baseUrl uuid now req st)) <> 200
   /\ (forall id,
         orElse (reqSessionId req) (JString uuid) = JString id ->
         (forall c, storage st !! id <> Some (File c)) ->
         fst (createSession baseUrl uuid now req st)
         = {| status := 400;
              payload := ErrorResponse "segmentDuration must be a positive number" |}))
  /\ (forall d, ltZero d = true -> rejectedDuration (JNumber d) = true)
  /\ rejectedDuration (JBool true) = true
  /\ (forall s, isEmpty s = false -> parseFloat s = NaN ->
        rejectedDuration (JString s) = true)
  /\ (absentDuration (reqSegmentDuration req) = true ->
      createSession baseUrl uuid now req st
      = createSession baseUrl uuid now
          (withDuration req (JNumber DEFAULT_SEGMENT_DURATION)) st).
Proof.
  split; [|split; [|split; [|split]]].
  - intros Hrej.
    destruct (orElse (reqSessionId req) (JString uuid)) as [| |b|x|id] eqn:Hid;
      try (unfold createSession; rewrite Hid; cbn;
           split; [reflexivity|split; [discriminate|intros ? [=]]]).
    destruct (mkdir now id st) as [st1|] eqn:Hmk.
    + rewrite (createSession_rejected _ _ _ _ _ _ _ Hid Hmk Hrej).
      cbn [fst snd reply status]. destruct (mkdir_inv _ _ _ _ Hmk) as [Hreg _].
      split; [exact Hreg|]. split; [discriminate|]. intros. reflexivity.
    + unfold createSession. rewrite Hid, Hmk. cbn.
      split; [reflexivity|]. split; [discriminate|].
      intros id' [= <-] Hfile.
      destruct (mkdir_succeeds now id st Hfile) as [st1 Hst1]. congruence.
  - exact negative_number_rejected.
  - reflexivity.
  - intros s Hne Hnan. unfold rejectedDuration. cbn [truthy valueToString].
    rewrite Hne, Hnan. reflexivity.
  - intros Habs. unfold createSession, withDuration. cbn [reqSessionId reqSegmentDuration].
    rewrite (absentDuration_default _ Habs). reflexivity.
Qed.

Lemma createSession_rejects_invalid_duration_witness :
  status (fst (createSession "http://h" "u-1" "t0"
                 (createRequest (JNumber (Fin true 3 0))) emptyServer)) = 400
  /\ sessionMetadata (snd (createSession "http://h" "u-1" "t0"
                 (createRequest (JNumber (Fin true 3 0))) emptyServer)) = ∅.
Proof.
  destruct (createSession_rejects_invalid_duration "http://h" "u-1" "t0"
              (createRequest (JNumber (Fin true 3 0))) emptyServer)
    as [H _].
  destruct (H ltac:(vm_compute; reflexivity)) as (Hreg & _ & H400).
  split.
  - rewrite (H400 "u-1"); [reflexivity|reflexivity|].
    intros c. vm_compute. discriminate.
  - rewrite Hreg. reflexivity.
Defined.

(** C4.  The route announces that the segment duration must be a positive
    number and tests it with [isNaN] and [<= 0]; but it replaces a falsy
    value by the default before the test, and it tests [parseFloat] of the
    string form, which reads a numeric prefix.  So the non-positive
    duration 0 and the non-numeric duration 4s are not turned down: either
    request, for a session id that is one path component and is not the
    name of a file, is answered 200 and a registry entry is recorded, with
    the default duration 5 and with the prefix 4. *)
Theorem createSession_accepts_invalid_duration
    (baseUrl uuid now id : string) (req : CreateSessionRequest) (st : server) :
  orElse (reqSessionId req) (JString uuid) = JString id ->
  plainComponent id = true ->
  (forall c, storage st !! id <> Some (File c)) ->
  (forall neg, reqSegmentDuration req = JNumber (Zero neg) ->
     fst (createSession baseUrl uuid now req st)
     = {| status := 200;
          payload :=
            CreateSessionResponse id
              (baseUrl ++ "/video/sessions/" ++ id ++ "/chunks")
              (baseUrl ++ "/video/sessions/" ++ id ++ "/playlist.m3u8")
              DEFAULT_SEGMENT_DURATION |}
     /\ sessionMetadata (snd (createSession baseUrl uuid now req st)) !! id
        = Some {| sessionId := id; segmentDuration := DEFAULT_SEGMENT_DURATION;
                  createdAt := now |})
  /\ (reqSegmentDuration req = JString "4s" ->
      fst (createSession baseUrl uuid now req st)
      = {| status := 200;
           payload :=
             CreateSessionResponse id
               (baseUrl ++ "/video/sessions/" ++ id ++ "/chunks")
               (baseUrl ++ "/video/sessions/" ++ id ++ "/playlist.m3u8")
               (Fin false 4 0) |}
      /\ sessionMetadata (snd (createSession baseUrl uuid now req st)) !! id
         = Some {| sessionId := id; segmentDuration := Fin false 4 0;
                   createdAt := now |}).
Proof.
  intros Hid _ Hfile. destruct (mkdir_succeeds now id st Hfile) as [st1 Hmk].
  split.
  - intros neg Hd. unfold createSession. rewrite Hid, Hmk, Hd.
    replace (orElse (JNumber (Zero neg)) (JNumber DEFAULT_SEGMENT_DURATION))
      with (JNumber DEFAULT_SEGMENT_DURATION) by (destruct neg; reflexivity).
    change (valueToString (JNumber DEFAULT_SEGMENT_DURATION)) with (Some "5").
    change (parseFloat "5") with (Fin false 5 0).
    cbn [isNaN leZero orb reply fst snd setSessionMetadata sessionMetadata].
    split; [reflexivity|apply lookup_insert_eq].
  - intros Hd. unfold createSession. rewrite Hid, Hmk, Hd.
    change (orElse (JString "4s") (JNumber DEFAULT_SEGMENT_DURATION))
      with (JString "4s").
    change (valueToString (JString "4s")) with (Some "4s").
    change (parseFloat "4s") with (Fin false 4 0).
    cbn [isNaN leZero orb reply fst snd setSessionMetadata sessionMetadata].
    split; [reflexivity|apply lookup_insert_eq].
Qed.

Lemma createSession_accepts_invalid_duration_witness :
  fst (createSession "http://h" "u-1" "t0" (createRequest (JNumber (Zero false)))
         emptyServer)
  = {| status := 200;
       payload := CreateSessionResponse "u-1" "http://h/video/sessions/u-1/chunks"
                    "http://h/video/sessions/u-1/playlist.m3u8" (Fin false 5 0) |}
  /\ sessionMetadata
       (snd (createSession "http://h" "u-1" "t0" (createRequest (JNumber (Zero false)))
               emptyServer)) !! "u-1"
     = Some {| sessionId := "u-1"; segmentDuration := Fin false 5 0;
               createdAt := "t0" |}.
Proof.
  destruct (createSession_accepts_invalid_duration "http://h" "u-1" "t0" "u-1"
              (createRequest (JNumber (Zero false))) emptyServer) as [H _].
  - reflexivity.
  - reflexivity.
  - intros c. vm_compute. discriminate.
  - apply (H false). reflexivity.
Defined.

(** The same on the two requests themselves, on an empty server: a
    duration of 4s and a duration of 0 are both registered. *)
Example createSession_accepts_4s :
  fst (createSession "http://h" "u-1" "t0" (createRequest (JString "4s")) emptyServer)
  = {| status := 200;
       payload := CreateSessionResponse "u-1" "http://h/video/sessions/u-1/chunks"
                    "http://h/video/sessions/u-1/playlist.m3u8" (Fin false 4 0) |}
  /\ segmentDuration <$>
       sessionMetadata (snd (createSession "http://h" "u-1" "t0"
                               (createRequest (JString "4s")) emptyServer)) !! "u-1"
     = Some (Fin false 4 0).
Proof. vm_compute. repeat split. Qed.

Example createSession_numeric_zero :
  fst (createSession "http://h" "u-1" "t0" (createRequest (JNumber (Zero false)))
         emptyServer)
  = {| status := 200;
       payload := CreateSessionResponse "u-1" "http://h/video/sessions/u-1/chunks"
                    "http://h/video/sessions/u-1/playlist.m3u8" (Fin false 5 0) |}.
Proof. vm_compute. reflexivity. Qed.

Example createSession_string_zero :
  status (fst (createSession "http://h" "u-1" "t0" (createRequest (JString "0"))
                 emptyServer)) = 400.
Proof. vm_compute. reflexivity. Qed.

(** ** C9: a new session has a header-only playlist *)

Lemma gtZero_facts (d : number) :
  gtZero d = true ->
  numberTruthy d = true /\ isNaN d = false /\ leZero d = false.
Proof. destruct d as [|[]|[]|[] m e]; try discriminate; auto. Qed.

Lemma createSession_accepted (baseUrl uuid now id : string)
    (req : CreateSessionRequest) (d : number) (st st1 : server) :
  orElse (reqSessionId req) (JString uuid) = JString id ->
  mkdir now id st = Some st1 ->
  reqSegmentDuration req = JNumber d ->
  gtZero d = true ->
  createSession baseUrl uuid now req st
  = reply 200
      (CreateSessionResponse id
         (baseUrl ++ "/video/sessions/" ++ id ++ "/chunks")
         (baseUrl ++ "/video/sessions/" ++ id ++ "/playlist.m3u8")
         (parseFloat (toString d)))
      (setSessionMetadata id
         {| sessionId := id; segmentDuration := parseFloat (toString d);
            createdAt := now |} st1).
Proof.
  intros Hid Hmk Hd Hpos.
  destruct (gtZero_facts d Hpos) as (Ht & _ & _).
  destruct (toString_parseFloat_toString d Hpos) as (_ & _ & Hpos').
  destruct (gtZero_facts _ Hpos') as (_ & Hn & Hl).
  unfold createSession. rewrite Hid, Hmk, Hd. unfold orElse.
  cbn [truthy]. rewrite Ht. cbn [valueToString].
  rewrite Hn, Hl. reflexivity.
Qed.

(** C9.  For every positive segment duration [d], creating a session
    succeeds and registers the duration (the number [parseFloat] reads
    from the printed [d], which prints like [d] and is [d] itself when [d]
    is canonical).  Generating the playlist before any numbered fragment
    is stored gives the header only: the version, playlist-type,
    target-duration and media-sequence tags, with the target duration
    printed from [d], the init map tag if the directory already holds an
    init fragment, and no EXTINF line.  In a directory that did not exist
    before, the text is the four tags after the first line and a blank
    line. *)
Theorem new_session_playlist_is_header_only
    (baseUrl uuid now id : string) (req : CreateSessionRequest)
    (d : number) (st : server) :
  reqSegmentDuration req = JNumber d ->
  gtZero d = true ->
  orElse (reqSessionId req) (JString uuid) = JString id ->
  (forall c, storage st !! id <> Some (File c)) ->
  fst (createSession baseUrl uuid now req st)
  = {| status := 200;
       payload := CreateSessionResponse id
                    (baseUrl ++ "/video/sessions/" ++ id ++ "/chunks")
                    (baseUrl ++ "/video/sessions/" ++ id ++ "/playlist.m3u8")
                    (parseFloat (toString d)) |}
  /\ toString (parseFloat (toString d)) = toString d
  /\ (canonical d = true -> parseFloat (toString d) = d)
  /\ (forall files seq fin,
        readdir (snd (createSession baseUrl uuid now req st)) id = Some files ->
        List.filter isChunkFile files = [] ->
        generateHLSPlaylist (snd (createSession baseUrl uuid now req st)) id seq fin
        = Some ("#EXTM3U" ++ LF
                ++ "#EXT-X-VERSION:7" ++ LF
                ++ "#EXT-X-PLAYLIST-TYPE:EVENT" ++ LF
                ++ "#EXT-X-TARGETDURATION:" ++ toString d ++ LF
                ++ "#EXT-X-MEDIA-SEQUENCE:" ++ seq ++ LF
                ++ mapLine (List.find isInitFile files)
                ++ LF
                ++ (if fin then "#EXT-X-ENDLIST" ++ LF else "")))
  /\ (storage st !! id = None ->
      generateHLSPlaylist (snd (createSession baseUrl uuid now req st)) id "0" false
      = Some ("#EXTM3U" ++ LF
              ++ "#EXT-X-VERSION:7" ++ LF
              ++ "#EXT-X-PLAYLIST-TYPE:EVENT" ++ LF
              ++ "#EXT-X-TARGETDURATION:" ++ toString d ++ LF
              ++ "#EXT-X-MEDIA-SEQUENCE:0" ++ LF
              ++ LF)).
Proof.
  intros Hd Hpos Hid Hfile.
  destruct (mkdir_succeeds now id st Hfile) as [st1 Hmk].
  rewrite (createSession_accepted _ _ _ _ _ _ _ _ Hid Hmk Hd Hpos).
  cbn [fst snd reply].
  destruct (toString_parseFloat_toString d Hpos) as (Hsame & _ & Hpos').
  destruct (gtZero_facts _ Hpos') as (Ht & _ & _).
  assert (Hres : forall st', resolveDuration
                   (setSessionMetadata id
                      {| sessionId := id; segmentDuration := parseFloat (toString d);
                         createdAt := now |} st')
                   id = parseFloat (toString d)).
  { intros st'. unfold resolveDuration, getSessionMetadata, setSessionMetadata.
    cbn [sessionMetadata]. rewrite lookup_insert_eq. cbn [segmentDuration].
    rewrite Ht. reflexivity. }
  split; [reflexivity|]. split; [exact Hsame|].
  split; [intros Hc; apply parseFloat_toString; assumption|]. split.
  - intros files seq fin Hls Hnone.
    unfold generateHLSPlaylist. rewrite Hls, Hres.
    unfold playlistText, segmentFilesOf. rewrite Hnone, Hsame. reflexivity.
  - intros Hfresh.
    destruct (mkdir_inv _ _ _ _ Hmk) as (_ & t & es & Hdir & Hold).
    rewrite Hfresh in Hold. destruct Hold as (-> & -> & _).
    unfold generateHLSPlaylist, readdir, setSessionMetadata at 1.
    cbn [storage]. rewrite Hdir, Hres.
    unfold playlistText. rewrite Hsame. reflexivity.
Qed.

Lemma new_session_playlist_is_header_only_witness :
  generateHLSPlaylist
    (snd (createSession "http://h" "u-1" "t0"
            (createRequest (JNumber (Fin false 25 (-1)))) emptyServer))
    "u-1" "0" false
  = Some ("#EXTM3U" ++ LF
          ++ "#EXT-X-VERSION:7" ++ LF
          ++ "#EXT-X-PLAYLIST-TYPE:EVENT" ++ LF
          ++ "#EXT-X-TARGETDURATION:2.5" ++ LF
          ++ "#EXT-X-MEDIA-SEQUENCE:0" ++ LF
          ++ LF).
Proof.
  destruct (new_session_playlist_is_header_only "http://h" "u-1" "t0" "u-1"
              (createRequest (JNumber (Fin false 25 (-1)))) (Fin false 25 (-1))
              emptyServer) as (_ & _ & _ & _ & H).
  - reflexivity.
  - reflexivity.
  - reflexivity.
  - intros c. vm_compute. discriminate.
  - rewrite H; reflexivity.
Defined.

(** ** C5: the shape of the playlist *)

(** The text is the five header lines, the init map line when the listing
    has an init fragment, a blank line, two lines per sorted fragment and
    the end-of-stream line when the flag is set. *)
Lemma playlistText_shape (files : list string) (d : number)
    (seq : string) (fin : bool) :
  playlistText files d seq fin
  = "#EXTM3U" ++ LF
    ++ "#EXT-X-VERSION:7" ++ LF
    ++ "#EXT-X-PLAYLIST-TYPE:EVENT" ++ LF
    ++ "#EXT-X-TARGETDURATION:" ++ toString d ++ LF
    ++ "#EXT-X-MEDIA-SEQUENCE:" ++ seq ++ LF
    ++ match List.find isInitFile files with
       | Some f => "#EXT-X-MAP:URI=" ++ DQUOTE ++ f ++ DQUOTE ++ LF
       | None => ""
       end
    ++ LF
    ++ segmentLines d (segmentFilesOf files)
    ++ (if fin then "#EXT-X-ENDLIST" ++ LF else "").
Proof. reflexivity. Qed.

Lemma segmentLines_cons (d : number) (f : string) (segs : list string) :
  segmentLines d (f :: segs)
  = "#EXTINF:" ++ toString d ++ ".000," ++ LF ++ f ++ LF ++ segmentLines d segs.
Proof. reflexivity. Qed.

Lemma Forall_digit_dropZeros (ds : list ascii) :
  Forall (fun c => isDigit c = true) ds ->
  Forall (fun c => isDigit c = true) (dropZeros ds).
Proof.
  induction 1 as [|c ds Hc Hds IH]; simpl; [constructor|].
  destruct (isZeroChar c); [exact IH|constructor; assumption].
Qed.

(** A whole number of seconds below 10^21 prints as its decimal digits, so
    the target duration is an integer and each EXTINF duration is that
    integer followed by [.000]. *)
Lemma toString_integer (m : positive) (e : Z) :
  (0 <= e)%Z ->
  (Z.of_nat (length (digitsOfN (N.pos m))) + e <= 21)%Z ->
  allDigits (toString (Fin false m e)) = true.
Proof.
  intros He Hn. unfold toString, layout.
  destruct (digitsOfN_spec (N.pos m)) as (_ & Hd & _).
  pose proof (digitsOfN_nonempty (N.pos m)) as Hne.
  set (ds0 := digitsOfN (N.pos m)) in *.
  assert (Hstrip : Forall (fun c => isDigit c = true) (stripTrailingZeros ds0)).
  { unfold stripTrailingZeros. apply Forall_rev, Forall_digit_dropZeros, Forall_rev.
    exact Hd. }
  assert (Hlen : length (stripTrailingZeros ds0) <= length ds0).
  { unfold stripTrailingZeros. rewrite length_rev, <- (length_rev ds0).
    generalize (rev ds0). intros l. induction l as [|c l IH]; simpl; [lia|].
    destruct (isZeroChar c); simpl; lia. }
  assert (Hk : 0 < length ds0) by (destruct ds0; [congruence|simpl; lia]).
  destruct (Z.ltb_spec 0 (Z.of_nat (length ds0) + e)) as [_|]; [|lia].
  destruct (Z.leb_spec (Z.of_nat (length ds0) + e) 21) as [_|]; [|lia].
  cbn [andb].
  destruct (Z.leb_spec (Z.of_nat (length (stripTrailingZeros ds0)))
              (Z.of_nat (length ds0) + e)) as [_|]; [|lia].
  apply allDigits_string_of_list, Forall_app.
  split; [exact Hstrip|apply Forall_digit_zeros].
Qed.

(** C5 at a fractional duration.  A session created with segment duration
    2.5 (the client sends a double) gets, after one init fragment and one
    numbered fragment, a playlist whose target duration is [2.5], not a
    whole number of seconds, and whose EXTINF duration is [2.5.000], not
    2.5 with three decimal places. *)
Theorem fractional_duration_playlist :
  readFile fractionalServer "u-1" "playlist.m3u8"
  = Some ("#EXTM3U" ++ LF
          ++ "#EXT-X-VERSION:7" ++ LF
          ++ "#EXT-X-PLAYLIST-TYPE:EVENT" ++ LF
          ++ "#EXT-X-TARGETDURATION:2.5" ++ LF
          ++ "#EXT-X-MEDIA-SEQUENCE:0" ++ LF
          ++ "#EXT-X-MAP:URI=" ++ DQUOTE ++ "init_0.mp4" ++ DQUOTE ++ LF
          ++ LF
          ++ "#EXTINF:2.5.000," ++ LF
          ++ "chunk00000.mp4" ++ LF).
Proof. vm_compute. reflexivity. Qed.

Example integer_duration_playlist :
  playlistText ["init_0.mp4"; "chunk00000.mp4"] (Fin false 4 0) "0" true
  = "#EXTM3U" ++ LF
    ++ "#EXT-X-VERSION:7" ++ LF
    ++ "#EXT-X-PLAYLIST-TYPE:EVENT" ++ LF
    ++ "#EXT-X-TARGETDURATION:4" ++ LF
    ++ "#EXT-X-MEDIA-SEQUENCE:0" ++ LF
    ++ "#EXT-X-MAP:URI=" ++ DQUOTE ++ "init_0.mp4" ++ DQUOTE ++ LF
    ++ LF
    ++ "#EXTINF:4.000," ++ LF
    ++ "chunk00000.mp4" ++ LF
    ++ "#EXT-X-ENDLIST" ++ LF.
Proof. vm_compute. reflexivity. Qed.

(** ** C6: the synthesized segment name is not a numbered fragment *)

Lemma defaultSegmentName_not_chunk (chunkId : string) :
  isChunkFile (defaultSegmentName chunkId) = false.
Proof. reflexivity. Qed.

Lemma hasMediaExt_suffix (a : string) : hasMediaExt (a ++ ".mp4") = true.
Proof.
  induction a as [|c a IH]; [reflexivity|].
  change (String c a ++ ".mp4") with (String c (a ++ ".mp4")).
  cbn [hasMediaExt]. rewrite IH. apply orb_true_r.
Qed.

Lemma defaultSegmentName_media (chunkId : string) :
  hasMediaExt (defaultSegmentName chunkId) = true.
Proof.
  unfold defaultSegmentName. rewrite <- append_assoc. apply hasMediaExt_suffix.
Qed.

Lemma chunkFilenameOf_default (req : ChunkUploadRequest) (chunkId : string) :
  truthyName (clientFilenameOf req) = false ->
  chunkFilenameOf req chunkId = defaultSegmentName chunkId.
Proof.
  unfold chunkFilenameOf, truthyName.
  destruct (clientFilenameOf req) as [n|]; [|reflexivity].
  destruct (isEmpty n); [reflexivity|discriminate].
Qed.

(** C6.  A fragment stored under the synthesized default name
    [segment_<padded chunk id>.mp4] is never listed as a segment: the name
    fails the [chunk]+digits pattern of the generator's filter, so for
    every listing it is absent from the sorted segment list.  An upload
    without a client file name is accepted and stored under that name, and
    the playlist the route then persists is generated from a listing that
    holds the file but has no segment entry for it. *)
Theorem default_segment_name_never_listed
    (now id chunkId : string) (req : ChunkUploadRequest) (st : server) :
  isChunkFile (defaultSegmentName chunkId) = false
  /\ (forall files, ~ In (defaultSegmentName chunkId) (segmentFilesOf files))
  /\ (forall f : UploadedFile,
        file req = Some f ->
        fieldname f = "chunk" ->
        isFirstOf req = false ->
        truthyName (clientFilenameOf req) = false ->
        (forall c, storage st !! id <> Some (File c)) ->
        status (fst (uploadChunk now id chunkId req st)) = 200
        /\ readFile (snd (uploadChunk now id chunkId req st)) id
             (defaultSegmentName chunkId) = Some (buffer f)
        /\ exists files,
             readdir (snd (uploadChunk now id chunkId req st)) id = Some files
             /\ In (defaultSegmentName chunkId) files
             /\ ~ In (defaultSegmentName chunkId) (segmentFilesOf files)
             /\ readFile (snd (uploadChunk now id chunkId req st)) id "playlist.m3u8"
                = Some (playlistText files (resolveDuration st id) chunkId false)).
Proof.
  assert (Hc := defaultSegmentName_not_chunk chunkId).
  assert (Hnever : forall files, ~ In (defaultSegmentName chunkId) (segmentFilesOf files)).
  { intros files Hin. apply segmentFilesOf_In in Hin. destruct Hin as [_ Hin].
    rewrite Hc in Hin. discriminate. }
  split; [exact Hc|]. split; [exact Hnever|].
  intros f Hf Hn Hfirst Hname Hfile.
  pose proof (chunkFilenameOf_default req chunkId Hname) as Hstored.
  destruct (uploadChunk_segment now id chunkId req f st Hf Hn Hfirst)
    as (st1 & st2 & st3 & text & H1 & H2 & H3 & H4 & ->);
    [rewrite Hstored; apply defaultSegmentName_media|exact Hfile|].
  rewrite Hstored in *. cbn [fst snd reply status].
  destruct (mkdir_inv _ _ _ _ H1) as (Hr1 & _).
  destruct (writeFile_inv _ _ _ _ _ H2) as (t & es & Hd1 & Hs2 & Hr2).
  destruct (writeFile_inv _ _ _ _ _ H4) as (t' & es' & Hd2 & Hs3 & Hr3).
  rewrite Hs2, lookup_insert_eq in Hd2. injection Hd2 as <- <-.
  assert (Hne : defaultSegmentName chunkId <> "playlist.m3u8").
  { apply hasMediaExt_not_playlist, defaultSegmentName_media. }
  unfold generateHLSPlaylist, readdir in H3.
  rewrite Hs2, lookup_insert_eq in H3. injection H3 as Htext.
  rewrite (resolveDuration_ext st st2 id) in Htext by congruence.
  split; [reflexivity|]. split.
  - unfold readFile. rewrite Hs3, lookup_insert_eq.
    rewrite (readEntry_writeEntry_other _ _ _ _ Hne).
    apply readEntry_writeEntry_same.
  - eexists. unfold readdir, readFile. rewrite Hs3, lookup_insert_eq.
    split; [reflexivity|]. split; [|split; [apply Hnever|]].
    + rewrite map_fst_writeEntry.
      assert (Hin : In (defaultSegmentName chunkId)
                      (map fst (writeEntry (defaultSegmentName chunkId) (buffer f) es))).
      { rewrite map_fst_writeEntry.
        destruct (existsb _ (map fst es)) eqn:E.
        - apply existsb_exists in E. destruct E as (n & Hin & Heq).
          apply String.eqb_eq in Heq. subst n. exact Hin.
        - apply in_or_app. right. left. reflexivity. }
      destruct (existsb _ _); [exact Hin|]. apply in_or_app. left. exact Hin.
    + rewrite readEntry_writeEntry_same.
      rewrite playlistText_write_ignored
        by (apply playlist_name_not_init || apply playlist_name_not_chunk).
      rewrite Htext. reflexivity.
Qed.

Lemma default_segment_name_never_listed_witness :
  readFile (snd (uploadChunk "t1" "s1" "7"
                   {| formIsFirst := Some "false"; formFilename := None;
                      file := Some {| fieldname := "chunk"; originalname := None;
                                      buffer := "data" |} |} sampleServer))
    "s1" "segment_00007.mp4" = Some "data"
  /\ ~ In "segment_00007.mp4"
         (segmentFilesOf
            ["init_0.mp4"; "chunk10.mp4"; "chunk2.mp4"; "chunk1.mp4";
             "playlist.m3u8"; "segment_00007.mp4"]).
Proof.
  destruct (default_segment_name_never_listed "t1" "s1" "7"
              {| formIsFirst := Some "false"; formFilename := None;
                 file := Some {| fieldname := "chunk"; originalname := None;
                                 buffer := "data" |} |} sampleServer)
    as (_ & Hnever & H).
  split.
  - destruct (H {| fieldname := "chunk"; originalname := None; buffer := "data" |})
      as (_ & Hread & _).
    + reflexivity.
    + reflexivity.
    + reflexivity.
    + reflexivity.
    + intros c. vm_compute. discriminate.
    + exact Hread.
  - apply Hnever.
Defined.

(** * Further properties of the routes *)

Example ex_parseChunkInfo_init : parseChunkInfo "Init_0.MP4" = ("0", true).
Proof. reflexivity. Qed.
Example ex_parseChunkInfo_segment : parseChunkInfo "segment_00012.mp4" = ("12", false).
Proof. vm_compute. reflexivity. Qed.
Example ex_parseChunkInfo_other : parseChunkInfo "chunk00012.mp4" = ("0", false).
Proof. reflexivity. Qed.
Example ex_parseChunkInfo_negative : parseChunkInfo "segment_-3.mp4" = ("-3", false).
Proof. vm_compute. reflexivity. Qed.
Example ex_parseChunkInfo_overflow :
  parseChunkInfo "segment_9223372036854775808.mp4" = ("0", false).
Proof. vm_compute. reflexivity. Qed.

(** ** Closed forms of the upload route *)

Lemma mkdir_directoryOrNew (now id : string) (st : server) :
  (forall c, storage st !! id <> Some (File c)) ->
  mkdir now id st
  = Some {| storage :=
              <[id := Dir (fst (directoryOrNew now st id))
                        (snd (directoryOrNew now st id))]> (storage st);
            sessionMetadata := sessionMetadata st |}.
Proof.
  intros Hfile. unfold mkdir, directoryOrNew.
  destruct (storage st !! id) as [[c|t es]|] eqn:E.
  - exfalso. eapply Hfile. reflexivity.
  - cbn [fst snd]. rewrite insert_id by exact E. destruct st; reflexivity.
  - reflexivity.
Qed.

Lemma fieldname_check (f : UploadedFile) :
  fieldname f = "chunk" -> negb (String.eqb (fieldname f) "chunk") = false.
Proof. intros ->. reflexivity. Qed.

Lemma uploadChunk_segment_result (now id chunkId : string)
    (req : ChunkUploadRequest) (f : UploadedFile) (st : server) :
  file req = Some f ->
  fieldname f = "chunk" ->
  isFirstOf req = false ->
  hasMediaExt (chunkFilenameOf req chunkId) = true ->
  (forall c, storage st !! id <> Some (File c)) ->
  uploadChunk now id chunkId req st
  = reply 200
      (ChunkUploadResponse chunkId (chunkFilenameOf req chunkId)
         (String.length (buffer f)))
      (afterSegmentUpload now st id chunkId (chunkFilenameOf req chunkId) (buffer f)).
Proof.
  intros Hf Hn Hfirst Hext Hfile. unfold uploadChunk.
  rewrite Hf, (fieldname_check f Hn), (mkdir_directoryOrNew now id st Hfile).
  rewrite Hfirst, Hext. cbn [negb].
  unfold writeFile at 1. cbn [storage sessionMetadata].
  rewrite lookup_insert_eq, insert_insert_eq.
  unfold access. cbn [storage]. rewrite lookup_insert_eq. cbn [negb].
  unfold generateHLSPlaylist, readdir. cbn [storage]. rewrite lookup_insert_eq.
  unfold writeFile. cbn [storage sessionMetadata].
  rewrite lookup_insert_eq, insert_insert_eq.
  rewrite (resolveDuration_ext st _ id) by reflexivity.
  reflexivity.
Qed.

Lemma uploadChunk_init_result (now id chunkId : string)
    (req : ChunkUploadRequest) (f : UploadedFile) (st : server) :
  file req = Some f ->
  fieldname f = "chunk" ->
  isFirstOf req = true ->
  hasMediaExt (initFilenameOf req) = true ->
  (forall c, storage st !! id <> Some (File c)) ->
  uploadChunk now id chunkId req st
  = reply 200 (InitUploadResponse (initFilenameOf req))
      (afterInitUpload now st id (initFilenameOf req) (buffer f)).
Proof.
  intros Hf Hn Hfirst Hext Hfile. unfold uploadChunk.
  rewrite Hf, (fieldname_check f Hn), (mkdir_directoryOrNew now id st Hfile).
  rewrite Hfirst, Hext. cbn [negb].
  unfold writeFile. cbn [storage sessionMetadata].
  rewrite lookup_insert_eq, insert_insert_eq. reflexivity.
Qed.

(** What an answer of 200 tells about the request and the state. *)
Lemma uploadChunk_200_inv (now id chunkId : string)
    (req : ChunkUploadRequest) (st : server) :
  status (fst (uploadChunk now id chunkId req st)) = 200 ->
  exists f,
    file req = Some f /\ fieldname f = "chunk"
    /\ (forall c, storage st !! id <> Some (File c))
    /\ (if isFirstOf req then hasMediaExt (initFilenameOf req) = true
        else hasMediaExt (chunkFilenameOf req chunkId) = true).
Proof.
  unfold uploadChunk. intros H.
  destruct (file req) as [f|]; [|discriminate H].
  destruct (String.eqb (fieldname f) "chunk") eqn:Hn; [|discriminate H].
  apply String.eqb_eq in Hn. cbn [negb] in H.
  destruct (mkdir now id st) as [st1|] eqn:Hmk; [|discriminate H].
  exists f. split; [reflexivity|]. split; [exact Hn|]. split.
  - intros c Hc. unfold mkdir in Hmk. rewrite Hc in Hmk. discriminate.
  - destruct (isFirstOf req).
    + destruct (hasMediaExt (initFilenameOf req)); [reflexivity|discriminate H].
    + destruct (hasMediaExt (chunkFilenameOf req chunkId)); [reflexivity|discriminate H].
Qed.

Lemma writeEntry_same (name content : string) (es : list (string * string)) :
  readEntry name es = Some content -> writeEntry name content es = es.
Proof.
  induction es as [|[n c] es IH]; simpl; [discriminate|].
  destruct (String.eqb n name) eqn:E.
  - apply String.eqb_eq in E. intros [= ->]. subst. reflexivity.
  - intros H. rewrite (IH H). reflexivity.
Qed.

Lemma writeEntry_twice (name content : string) (es : list (string * string)) :
  writeEntry name content (writeEntry name content es) = writeEntry name content es.
Proof. apply writeEntry_same, readEntry_writeEntry_same. Qed.

Lemma directoryOrNew_afterInitUpload (now now' id name data : string) (st : server) :
  directoryOrNew now' (afterInitUpload now st id name data) id
  = (fst (directoryOrNew now st id),
     writeEntry name data (snd (directoryOrNew now st id))).
Proof.
  unfold directoryOrNew at 1, afterInitUpload. cbn [storage].
  rewrite lookup_insert_eq. reflexivity.
Qed.

Lemma directoryOrNew_afterSegmentUpload (now now' id chunkId name data : string)
    (st : server) :
  directoryOrNew now' (afterSegmentUpload now st id chunkId name data) id
  = (fst (directoryOrNew now st id),
     writeEntry "playlist.m3u8" (segmentUploadText now st id chunkId name data)
       (writeEntry name data (snd (directoryOrNew now st id)))).
Proof.
  unfold directoryOrNew at 1, afterSegmentUpload. cbn [storage].
  rewrite lookup_insert_eq. reflexivity.
Qed.

Lemma not_file_afterInitUpload (now id name data : string) (st : server) :
  forall c, storage (afterInitUpload now st id name data) !! id <> Some (File c).
Proof.
  intros c. unfold afterInitUpload. cbn [storage].
  rewrite lookup_insert_eq. discriminate.
Qed.

Lemma not_file_afterSegmentUpload (now id chunkId name data : string) (st : server) :
  forall c, storage (afterSegmentUpload now st id chunkId name data) !! id
            <> Some (File c).
Proof.
  intros c. unfold afterSegmentUpload. cbn [storage].
  rewrite lookup_insert_eq. discriminate.
Qed.

(** Uploading into the state an upload left changes nothing. *)
Lemma afterInitUpload_twice (now now' id name data : string) (st : server) :
  afterInitUpload now' (afterInitUpload now st id name data) id name data
  = afterInitUpload now st id name data.
Proof.
  unfold afterInitUpload at 1. rewrite directoryOrNew_afterInitUpload.
  cbn [fst snd]. rewrite writeEntry_twice.
  unfold afterInitUpload. cbn [storage sessionMetadata].
  rewrite insert_insert_eq. reflexivity.
Qed.

Lemma afterSegmentUpload_twice (now now' id chunkId name data : string)
    (st : server) :
  name <> "playlist.m3u8" ->
  afterSegmentUpload now' (afterSegmentUpload now st id chunkId name data)
    id chunkId name data
  = afterSegmentUpload now st id chunkId name data.
Proof.
  intros Hne.
  set (es2 := writeEntry name data (snd (directoryOrNew now st id))).
  set (text := segmentUploadText now st id chunkId name data).
  assert (Hfrag : writeEntry name data (writeEntry "playlist.m3u8" text es2)
                  = writeEntry "playlist.m3u8" text es2).
  { apply writeEntry_same. rewrite readEntry_writeEntry_other by exact Hne.
    apply readEntry_writeEntry_same. }
  assert (Htext : segmentUploadText now' (afterSegmentUpload now st id chunkId name data)
                    id chunkId name data = text).
  { unfold segmentUploadText at 1. rewrite directoryOrNew_afterSegmentUpload.
    cbn [snd]. fold es2 text. rewrite Hfrag.
    rewrite playlistText_write_ignored
      by (apply playlist_name_not_init || apply playlist_name_not_chunk).
    rewrite (resolveDuration_ext st _ id) by reflexivity. reflexivity. }
  unfold afterSegmentUpload at 1. rewrite Htext.
  rewrite directoryOrNew_afterSegmentUpload. cbn [fst snd]. fold es2 text.
  rewrite Hfrag, writeEntry_twice.
  unfold afterSegmentUpload. cbn [storage sessionMetadata]. fold es2 text.
  rewrite insert_insert_eq. reflexivity.
Qed.

(** X1.  Repeating an accepted upload is harmless: the same request sent
    again to the state the first one left gets the same answer and leaves
    that state as it is, for an init fragment and for a numbered one. *)
Theorem upload_retry_changes_nothing
    (now now' id chunkId : string) (req : ChunkUploadRequest) (st : server) :
  status (fst (uploadChunk now id chunkId req st)) = 200 ->
  uploadChunk now' id chunkId req (snd (uploadChunk now id chunkId req st))
  = uploadChunk now id chunkId req st.
Proof.
  intros H200.
  destruct (uploadChunk_200_inv _ _ _ _ _ H200) as (f & Hf & Hn & Hfile & Hext).
  destruct (isFirstOf req) eqn:Hfirst.
  - rewrite (uploadChunk_init_result now _ _ _ _ _ Hf Hn Hfirst Hext Hfile).
    cbn [snd reply].
    rewrite (uploadChunk_init_result now' _ _ _ _ _ Hf Hn Hfirst Hext
               (not_file_afterInitUpload _ _ _ _ _)).
    rewrite afterInitUpload_twice. reflexivity.
  - rewrite (uploadChunk_segment_result now _ _ _ _ _ Hf Hn Hfirst Hext Hfile).
    cbn [snd reply].
    rewrite (uploadChunk_segment_result now' _ _ _ _ _ Hf Hn Hfirst Hext
               (not_file_afterSegmentUpload _ _ _ _ _ _)).
    rewrite afterSegmentUpload_twice
      by (apply hasMediaExt_not_playlist; exact Hext).
    reflexivity.
Qed.

Lemma upload_retry_changes_nothing_witness :
  uploadChunk "t9" "s1" "11" (chunkForm false "chunk11.mp4" "k")
    (snd (uploadChunk "t1" "s1" "11" (chunkForm false "chunk11.mp4" "k") sampleServer))
  = uploadChunk "t1" "s1" "11" (chunkForm false "chunk11.mp4" "k") sampleServer.
Proof.
  apply (upload_retry_changes_nothing "t1" "t9" "s1" "11"
           (chunkForm false "chunk11.mp4" "k") sampleServer).
  vm_compute. reflexivity.
Defined.

(** ** Reading back what was uploaded *)

Lemma readFile_afterInitUpload (now id name data other : string) (st : server) :
  readFile (afterInitUpload now st id name data) id other
  = if String.eqb name other then Some data
    else readEntry other (snd (directoryOrNew now st id)).
Proof.
  unfold readFile, afterInitUpload. cbn [storage]. rewrite lookup_insert_eq.
  destruct (String.eqb_spec name other) as [<-|Hne].
  - apply readEntry_writeEntry_same.
  - apply readEntry_writeEntry_other. congruence.
Qed.

Lemma readFile_afterSegmentUpload (now id chunkId name data other : string)
    (st : server) :
  readFile (afterSegmentUpload now st id chunkId name data) id other
  = if String.eqb "playlist.m3u8" other
    then Some (segmentUploadText now st id chunkId name data)
    else if String.eqb name other then Some data
    else readEntry other (snd (directoryOrNew now st id)).
Proof.
  unfold readFile, afterSegmentUpload. cbn [storage]. rewrite lookup_insert_eq.
  destruct (String.eqb_spec "playlist.m3u8" other) as [<-|Hp].
  - apply readEntry_writeEntry_same.
  - rewrite readEntry_writeEntry_other by congruence.
    destruct (String.eqb_spec name other) as [<-|Hne].
    + apply readEntry_writeEntry_same.
    + apply readEntry_writeEntry_other. congruence.
Qed.

Lemma readEntry_directoryOrNew (now id name : string) (st : server) :
  readEntry name (snd (directoryOrNew now st id)) = readFile st id name.
Proof.
  unfold directoryOrNew, readFile.
  destruct (storage st !! id) as [[c|t es]|]; reflexivity.
Qed.

Lemma storedName_media (now id chunkId : string) (req : ChunkUploadRequest)
    (st : server) :
  status (fst (uploadChunk now id chunkId req st)) = 200 ->
  hasMediaExt (storedNameOf req chunkId) = true.
Proof.
  intros H. destruct (uploadChunk_200_inv _ _ _ _ _ H) as (f & _ & _ & _ & Hext).
  unfold storedNameOf. destruct (isFirstOf req); exact Hext.
Qed.

(** X2.  What an accepted upload stored can be fetched: a GET of the
    stored name in the session answers with the uploaded bytes as
    [video/mp4], for an init fragment and for a numbered one. *)
Theorem uploaded_file_is_served
    (now id chunkId : string) (req : ChunkUploadRequest) (st : server) :
  status (fst (uploadChunk now id chunkId req st)) = 200 ->
  exists f,
    file req = Some f
    /\ getFile id (storedNameOf req chunkId)
         (snd (uploadChunk now id chunkId req st))
       = Served "video/mp4" (buffer f).
Proof.
  intros H200. pose proof (storedName_media _ _ _ _ _ H200) as Hmedia.
  destruct (uploadChunk_200_inv _ _ _ _ _ H200) as (f & Hf & Hn & Hfile & Hext).
  exists f. split; [exact Hf|].
  pose proof (hasMediaExt_not_playlist _ Hmedia) as Hne.
  unfold getFile. destruct (String.eqb_spec (storedNameOf req chunkId) "playlist.m3u8")
    as [E|_]; [congruence|].
  unfold getChunk, accessFile, storedNameOf in *.
  destruct (isFirstOf req) eqn:Hfirst.
  - rewrite (uploadChunk_init_result now _ _ _ _ _ Hf Hn Hfirst Hext Hfile).
    cbn [snd reply]. rewrite readFile_afterInitUpload, String.eqb_refl.
    reflexivity.
  - rewrite (uploadChunk_segment_result now _ _ _ _ _ Hf Hn Hfirst Hext Hfile).
    cbn [snd reply]. rewrite readFile_afterSegmentUpload, String.eqb_refl.
    destruct (String.eqb_spec "playlist.m3u8" (chunkFilenameOf req chunkId))
      as [E|_]; [congruence|]. reflexivity.
Qed.

Lemma uploaded_file_is_served_witness :
  getFile "s1" "init_1.mp4"
    (snd (uploadChunk "t1" "s1" "0"
            (chunkForm true "uploads/init_1.mp4" "II") sampleServer))
  = Served "video/mp4" "II".
Proof.
  destruct (uploaded_file_is_served "t1" "s1" "0"
              (chunkForm true "uploads/init_1.mp4" "II") sampleServer)
    as (f & Hf & H).
  - vm_compute. reflexivity.
  - injection Hf as <-. exact H.
Defined.

(** X3.  After an accepted upload of a numbered fragment the playlist is
    served, and what is served is what the generator gives for the
    directory as it now is, with the chunk id as media sequence: the
    persisted playlist is in step with the files. *)
Theorem served_playlist_matches_directory
    (now id chunkId : string) (req : ChunkUploadRequest) (st : server) :
  isFirstOf req = false ->
  status (fst (uploadChunk now id chunkId req st)) = 200 ->
  exists text,
    getPlaylist id (snd (uploadChunk now id chunkId req st))
    = Served "application/vnd.apple.mpegurl" text
    /\ generateHLSPlaylist (snd (uploadChunk now id chunkId req st)) id chunkId false
       = Some text.
Proof.
  intros Hfirst H200.
  destruct (uploadChunk_200_inv _ _ _ _ _ H200) as (f & Hf & Hn & Hfile & Hext).
  rewrite Hfirst in Hext.
  rewrite (uploadChunk_segment_result now _ _ _ _ _ Hf Hn Hfirst Hext Hfile).
  cbn [snd reply].
  exists (segmentUploadText now st id chunkId (chunkFilenameOf req chunkId) (buffer f)).
  split.
  - unfold getPlaylist, accessFile.
    rewrite readFile_afterSegmentUpload, String.eqb_refl. reflexivity.
  - unfold generateHLSPlaylist, readdir, afterSegmentUpload at 1. cbn [storage].
    rewrite lookup_insert_eq.
    rewrite playlistText_write_ignored
      by (apply playlist_name_not_init || apply playlist_name_not_chunk).
    rewrite (resolveDuration_ext st _ id) by reflexivity. reflexivity.
Qed.

Lemma served_playlist_matches_directory_witness :
  getPlaylist "s1"
    (snd (uploadChunk "t1" "s1" "11" (chunkForm false "chunk11.mp4" "k") sampleServer))
  = Served "application/vnd.apple.mpegurl"
      (playlistText ["init_0.mp4"; "chunk10.mp4"; "chunk2.mp4"; "chunk1.mp4";
                     "playlist.m3u8"; "chunk11.mp4"] (Fin false 4 0) "11" false).
Proof.
  destruct (served_playlist_matches_directory "t1" "s1" "11"
              (chunkForm false "chunk11.mp4" "k") sampleServer)
    as (text & Hserved & Hgen).
  - reflexivity.
  - vm_compute. reflexivity.
  - rewrite Hserved. f_equal.
    assert (Some text = Some (playlistText
               ["init_0.mp4"; "chunk10.mp4"; "chunk2.mp4"; "chunk1.mp4";
                "playlist.m3u8"; "chunk11.mp4"] (Fin false 4 0) "11" false)) as E.
    { rewrite <- Hgen. vm_compute. reflexivity. }
    injection E as ->. reflexivity.
Defined.

(** ** What creating a session leaves alone *)

Lemma getFile_ext (st st' : server) (id name : string) :
  (forall n, readFile st' id n = readFile st id n) ->
  getFile id name st' = getFile id name st.
Proof.
  intros H. unfold getFile, getPlaylist, getChunk, accessFile.
  rewrite !H. reflexivity.
Qed.

Lemma mkdir_keeps_entries (now id : string) (st st1 : server) (k : string) (n : node) :
  mkdir now id st = Some st1 ->
  storage st !! k = Some n -> storage st1 !! k = Some n.
Proof.
  unfold mkdir. intros H Hk.
  destruct (storage st !! id) as [[c|t es]|] eqn:E; try discriminate.
  - injection H as <-. exact Hk.
  - injection H as <-. cbn [storage].
    rewrite lookup_insert_ne; [exact Hk|]. intros ->. congruence.
Qed.

Lemma mkdir_readFile (now id : string) (st st1 : server) (id' name : string) :
  mkdir now id st = Some st1 ->
  readFile st1 id' name = readFile st id' name.
Proof.
  unfold mkdir, readFile. intros H.
  destruct (storage st !! id) as [[c|t es]|] eqn:E; try discriminate.
  - injection H as <-. reflexivity.
  - injection H as <-. cbn [storage].
    destruct (decide (id = id')) as [<-|Hne].
    + rewrite lookup_insert_eq, E. reflexivity.
    + rewrite lookup_insert_ne by exact Hne. reflexivity.
Qed.

(** The state a create request leaves: without an answer of 200 the one
    before or the one after [mkdir]; with it, the one after [mkdir] with
    the new registry entry. *)
Lemma createSession_state (baseUrl uuid now : string)
    (req : CreateSessionRequest) (st : server) :
  (status (fst (createSession baseUrl uuid now req st)) <> 200
   /\ (snd (createSession baseUrl uuid now req st) = st
       \/ exists id,
            orElse (reqSessionId req) (JString uuid) = JString id
            /\ mkdir now id st = Some (snd (createSession baseUrl uuid now req st))))
  \/ exists id st1 d,
       orElse (reqSessionId req) (JString uuid) = JString id
       /\ mkdir now id st = Some st1
       /\ fst (createSession baseUrl uuid now req st)
          = {| status := 200;
               payload :=
                 CreateSessionResponse id
                   (baseUrl ++ "/video/sessions/" ++ id ++ "/chunks")
                   (baseUrl ++ "/video/sessions/" ++ id ++ "/playlist.m3u8")
                   d |}
       /\ snd (createSession baseUrl uuid now req st)
          = setSessionMetadata id
              {| sessionId := id; segmentDuration := d; createdAt := now |} st1.
Proof.
  unfold createSession.
  destruct (orElse (reqSessionId req) (JString uuid)) as [| |b|x|id];
    try (left; split; [discriminate|left; reflexivity]).
  destruct (mkdir now id st) as [st1|] eqn:Hmk;
    [|left; split; [discriminate|left; reflexivity]].
  destruct (valueToString _) as [text|].
  - destruct (isNaN (parseFloat text) || leZero (parseFloat text)).
    + left. split; [discriminate|]. right. exists id. split; [reflexivity|exact Hmk].
    + right. exists id, st1, (parseFloat text). repeat split. exact Hmk.
  - left. split; [discriminate|]. right. exists id. split; [reflexivity|exact Hmk].
Qed.

Lemma mkdir_storage (now id : string) (st st1 : server) :
  mkdir now id st = Some st1 ->
  storage st1 = storage st
  \/ (storage st !! id = None /\ storage st1 = <[id := Dir now []]> (storage st)).
Proof.
  unfold mkdir. intros H.
  destruct (storage st !! id) as [[c|t es]|] eqn:E; try discriminate.
  - injection H as <-. left. reflexivity.
  - injection H as <-. right. split; reflexivity.
Qed.

(** X4.  Creating a session under an id that is one path component,
    whatever the answer, adds at most one entry to the storage root, an
    empty directory under the id; it keeps every entry there was and
    changes nothing a GET of a file or of a playlist of a session
    answers. *)
Theorem createSession_keeps_files
    (baseUrl uuid now : string) (req : CreateSessionRequest) (st : server) :
  (forall id, orElse (reqSessionId req) (JString uuid) = JString id ->
     plainComponent id = true) ->
  (storage (snd (createSession baseUrl uuid now req st)) = storage st
   \/ exists id,
        orElse (reqSessionId req) (JString uuid) = JString id
        /\ storage st !! id = None
        /\ storage (snd (createSession baseUrl uuid now req st))
           = <[id := Dir now []]> (storage st))
  /\ (forall k n, storage st !! k = Some n ->
        storage (snd (createSession baseUrl uuid now req st)) !! k = Some n)
  /\ (forall id name,
        plainComponent id = true -> plainComponent name = true ->
        getFile id name (snd (createSession baseUrl uuid now req st))
        = getFile id name st).
Proof.
  intros _.
  destruct (createSession_state baseUrl uuid now req st)
    as [[_ [->|(id & Hid & Hmk)]]|(id & st1 & d & Hid & Hmk & _ & ->)].
  - split; [left; reflexivity|]. split; [auto|reflexivity].
  - split; [|split].
    + destruct (mkdir_storage _ _ _ _ Hmk) as [E|[Hnew E]]; [left; exact E|].
      right. exists id. auto.
    + intros k n. apply (mkdir_keeps_entries _ _ _ _ _ _ Hmk).
    + intros id' name _ _. apply getFile_ext. intros n.
      apply (mkdir_readFile _ _ _ _ _ _ Hmk).
  - split; [|split].
    + cbn [setSessionMetadata storage].
      destruct (mkdir_storage _ _ _ _ Hmk) as [E|[Hnew E]]; [left; exact E|].
      right. exists id. auto.
    + intros k n. cbn [setSessionMetadata storage].
      apply (mkdir_keeps_entries _ _ _ _ _ _ Hmk).
    + intros id' name _ _. apply getFile_ext. intros n.
      unfold readFile. cbn [setSessionMetadata storage].
      apply (mkdir_readFile _ _ _ _ _ _ Hmk).
Qed.

Lemma createSession_keeps_files_witness :
  storage (snd (createSession "http://h" "s2" "t5"
                  {| reqSessionId := JString "s2";
                     reqSegmentDuration := JNumber (Fin true 3 0) |} sampleServer))
    !! "s1"
  = Some (Dir "t0" sampleDir)
  /\ getFile "s1" "chunk2.mp4"
       (snd (createSession "http://h" "s2" "t5"
               {| reqSessionId := JString "s2";
                  reqSegmentDuration := JNumber (Fin true 3 0) |} sampleServer))
     = Served "video/mp4" "b".
Proof.
  destruct (createSession_keeps_files "http://h" "s2" "t5"
              {| reqSessionId := JString "s2";
                 reqSegmentDuration := JNumber (Fin true 3 0) |} sampleServer)
    as (_ & Hkeep & Hget).
  - intros id E. vm_compute in E. injection E as <-. reflexivity.
  - split.
    + apply Hkeep. reflexivity.
    + rewrite Hget by reflexivity. reflexivity.
Defined.

Lemma restart_lookup (st : server) (k : string) :
  sessionMetadata (restart st) !! k
  = match storage st !! k with
    | Some (Dir t es) => Some (recoveredMetadata k t es)
    | _ => None
    end.
Proof.
  unfold restart, startServer. rewrite loadSessions_lookup. cbn [storage sessionMetadata].
  destruct (storage st !! k) as [[c|t es]|]; try reflexivity; apply lookup_empty.
Qed.

(** X5.  The session directory is made before the duration is checked:
    a create request answered 400 for a new id that is one path component
    registers nothing, but leaves a directory behind.  Finalize, which answered 404 before, now
    answers 200, and after a restart the id is a registered session with
    the default duration. *)
Theorem rejected_create_leaves_directory
    (baseUrl uuid now id : string) (req : CreateSessionRequest) (st : server) :
  orElse (reqSessionId req) (JString uuid) = JString id ->
  plainComponent id = true ->
  storage st !! id = None ->
  status (fst (createSession baseUrl uuid now req st)) = 400 ->
  sessionMetadata (snd (createSession baseUrl uuid now req st)) = sessionMetadata st
  /\ storage (snd (createSession baseUrl uuid now req st)) !! id = Some (Dir now [])
  /\ status (fst (finalize baseUrl id st)) = 404
  /\ status (fst (finalize baseUrl id (snd (createSession baseUrl uuid now req st))))
     = 200
  /\ sessionMetadata (restart (snd (createSession baseUrl uuid now req st))) !! id
     = Some {| sessionId := id; segmentDuration := DEFAULT_SEGMENT_DURATION;
               createdAt := now |}.
Proof.
  intros Hid _ Hnew H400.
  assert (Hst : snd (createSession baseUrl uuid now req st)
                = {| storage := <[id := Dir now []]> (storage st);
                     sessionMetadata := sessionMetadata st |}).
  { revert H400. unfold createSession. rewrite Hid. unfold mkdir. rewrite Hnew.
    destruct (valueToString _) as [text|]; [|discriminate].
    destruct (isNaN (parseFloat text) || leZero (parseFloat text));
      [reflexivity|discriminate]. }
  rewrite Hst. cbn [sessionMetadata storage].
  split; [reflexivity|]. split; [apply lookup_insert_eq|]. split.
  - rewrite finalize_missing by exact Hnew. reflexivity.
  - split.
    + rewrite (finalize_dir baseUrl id now []); [reflexivity|].
      cbn [storage]. apply lookup_insert_eq.
    + rewrite restart_lookup. cbn [storage]. rewrite lookup_insert_eq. reflexivity.
Qed.

Lemma rejected_create_leaves_directory_witness :
  status (fst (finalize "http://h" "u-1"
                 (snd (createSession "http://h" "u-1" "t0"
                         (createRequest (JNumber (Fin true 3 0))) emptyServer))))
  = 200.
Proof.
  destruct (rejected_create_leaves_directory "http://h" "u-1" "t0" "u-1"
              (createRequest (JNumber (Fin true 3 0))) emptyServer)
    as (_ & _ & _ & H & _).
  - reflexivity.
  - reflexivity.
  - reflexivity.
  - vm_compute. reflexivity.
  - exact H.
Defined.

(** ** The session list *)

Lemma listSessions_lookup (baseUrl : string) (st : server) (id : string) :
  listSessions baseUrl st !! id
  = match sessionMetadata st !! id with
    | Some md =>
        Some {| listedId := id;
                listedUploadUrl := baseUrl ++ "/video/sessions/" ++ id ++ "/chunks";
                listedPlaylistUrl :=
                  baseUrl ++ "/video/sessions/" ++ id ++ "/playlist.m3u8";
                listedDuration := segmentDuration md |}
    | None => None
    end.
Proof.
  unfold listSessions. rewrite map_lookup_imap.
  destruct (sessionMetadata st !! id); reflexivity.
Qed.

(** X6.  A session that was created is listed: after a create request
    answered 200, the session list has an entry under the id of the
    answer, with the duration of the answer and with the URLs built from
    the base URL of the list request; the URLs of the answer are built
    the same way from the base URL of the create request. *)
Theorem created_session_is_listed
    (baseUrl baseUrl' uuid now : string) (req : CreateSessionRequest) (st : server)
    (id uploadUrl playlistUrl : string) (d : number) :
  fst (createSession baseUrl uuid now req st)
  = {| status := 200;
       payload := CreateSessionResponse id uploadUrl playlistUrl d |} ->
  listSessions baseUrl' (snd (createSession baseUrl uuid now req st)) !! id
  = Some {| listedId := id;
            listedUploadUrl := baseUrl' ++ "/video/sessions/" ++ id ++ "/chunks";
            listedPlaylistUrl :=
              baseUrl' ++ "/video/sessions/" ++ id ++ "/playlist.m3u8";
            listedDuration := d |}
  /\ uploadUrl = baseUrl ++ "/video/sessions/" ++ id ++ "/chunks"
  /\ playlistUrl = baseUrl ++ "/video/sessions/" ++ id ++ "/playlist.m3u8".
Proof.
  intros H.
  destruct (createSession_state baseUrl uuid now req st)
    as [[Hno _]|(id' & st1 & d' & _ & _ & Hfst & ->)].
  - rewrite H in Hno. exfalso. apply Hno. reflexivity.
  - rewrite Hfst in H. injection H as <- <- <- <-.
    rewrite listSessions_lookup. cbn [setSessionMetadata sessionMetadata].
    rewrite lookup_insert_eq. repeat split.
Qed.

Lemma created_session_is_listed_witness :
  listSessions "https://video.example.org"
    (snd (createSession "http://h" "u-1" "t0"
            (createRequest (JNumber (Fin false 4 0))) emptyServer))
    !! "u-1"
  = Some {| listedId := "u-1";
            listedUploadUrl := "https://video.example.org/video/sessions/u-1/chunks";
            listedPlaylistUrl :=
              "https://video.example.org/video/sessions/u-1/playlist.m3u8";
            listedDuration := Fin false 4 0 |}.
Proof.
  destruct (created_session_is_listed "http://h" "https://video.example.org"
              "u-1" "t0" (createRequest (JNumber (Fin false 4 0))) emptyServer
              "u-1" "http://h/video/sessions/u-1/chunks"
              "http://h/video/sessions/u-1/playlist.m3u8" (Fin false 4 0))
    as (H & _ & _).
  - vm_compute. reflexivity.
  - exact H.
Defined.

(** ** What finalize changes *)

Lemma readFile_insert_other (st : server) (id : string) (n : node)
    (sm : gmap string SessionMetadata) (id' name : string) :
  id' <> id ->
  readFile {| storage := <[id := n]> (storage st); sessionMetadata := sm |} id' name
  = readFile st id' name.
Proof.
  intros Hne. unfold readFile. cbn [storage].
  rewrite lookup_insert_ne by congruence. reflexivity.
Qed.

(** X7.  Finalize of a session id that is one path component writes one
    file: in the state it leaves, every file other than [playlist.m3u8]
    reads as before, in every session; every other entry of the storage
    root and of the registry is as before; and without an answer of 200
    the state is the one before. *)
Theorem finalize_touches_only_playlist (baseUrl id : string) (st : server) :
  plainComponent id = true ->
  (forall id' name,
     plainComponent id' = true -> plainComponent name = true ->
     name <> "playlist.m3u8" ->
     readFile (snd (finalize baseUrl id st)) id' name = readFile st id' name)
  /\ (forall k, k <> id ->
        storage (snd (finalize baseUrl id st)) !! k = storage st !! k
        /\ sessionMetadata (snd (finalize baseUrl id st)) !! k
           = sessionMetadata st !! k)
  /\ (status (fst (finalize baseUrl id st)) <> 200 ->
      snd (finalize baseUrl id st) = st).
Proof.
  intros _. destruct (storage st !! id) as [[c|t es]|] eqn:E.
  - rewrite (finalize_file _ _ _ _ E). cbn [reply snd]. auto.
  - rewrite (finalize_dir _ _ _ _ _ E). cbn [reply snd fst status].
    split; [|split].
    + intros id' name _ _ Hname. destruct (decide (id' = id)) as [->|Hne].
      * unfold readFile. cbn [storage]. rewrite lookup_insert_eq, E.
        apply readEntry_writeEntry_other. congruence.
      * apply readFile_insert_other. exact Hne.
    + intros k Hk. cbn [storage sessionMetadata]. split.
      * apply lookup_insert_ne. congruence.
      * apply lookup_delete_ne. congruence.
    + intros H. exfalso. apply H. reflexivity.
  - rewrite (finalize_missing _ _ _ E). cbn [reply snd]. auto.
Qed.

Lemma finalize_touches_only_playlist_witness :
  readFile (snd (finalize "http://h" "s1" sampleServer)) "s1" "chunk2.mp4" = Some "b".
Proof.
  destruct (finalize_touches_only_playlist "http://h" "s1" sampleServer)
    as (Hread & _ & _).
  - reflexivity.
  - rewrite Hread; [reflexivity|reflexivity|reflexivity|discriminate].
Defined.

(** X8.  A finalized session is still served but no longer listed: after
    a finalize answered 200, a GET of the playlist answers with the text
    the generator gave for the session before the call, closed by the end
    tag, and the session list has no entry for the id. *)
Theorem finalized_playlist_served_unlisted (baseUrl baseUrl' id : string) (st : server) :
  status (fst (finalize baseUrl id st)) = 200 ->
  exists text,
    generateHLSPlaylist st id "0" false = Some text
    /\ getPlaylist id (snd (finalize baseUrl id st))
       = Served "application/vnd.apple.mpegurl" (text ++ "#EXT-X-ENDLIST" ++ LF)
    /\ listSessions baseUrl' (snd (finalize baseUrl id st)) !! id = None.
Proof.
  intros H200. pose proof (finalize_status_cases baseUrl id st) as Hc.
  destruct (storage st !! id) as [[c|t es]|] eqn:E;
    try (rewrite Hc in H200; discriminate H200).
  rewrite (finalize_dir _ _ _ _ _ E). cbn [reply snd].
  exists (playlistText (map fst es) (resolveDuration st id) "0" false).
  split; [|split].
  - unfold generateHLSPlaylist, readdir. rewrite E. reflexivity.
  - unfold getPlaylist, accessFile, readFile. cbn [storage].
    rewrite lookup_insert_eq, readEntry_writeEntry_same. cbn [negb].
    rewrite playlistText_final. reflexivity.
  - rewrite listSessions_lookup. cbn [sessionMetadata].
    rewrite lookup_delete_eq. reflexivity.
Qed.

Lemma finalized_playlist_served_unlisted_witness :
  listSessions "http://h" (snd (finalize "http://h" "s1" sampleServer)) !! "s1" = None.
Proof.
  destruct (finalized_playlist_served_unlisted "http://h" "http://h" "s1" sampleServer)
    as (text & _ & _ & H).
  - vm_compute. reflexivity.
  - exact H.
Defined.

(** X9.  A restart brings a finalized session back: for a session id
    that is one path component, finalize removes the id from the
    registry, and the scan at the next start registers it again, with the
    duration read from the playlist finalize wrote. *)
Theorem finalized_session_returns_on_restart (baseUrl id : string) (st : server) :
  plainComponent id = true ->
  status (fst (finalize baseUrl id st)) = 200 ->
  sessionMetadata (snd (finalize baseUrl id st)) !! id = None
  /\ exists md,
       sessionMetadata (restart (snd (finalize baseUrl id st))) !! id = Some md
       /\ sessionId md = id
       /\ segmentDuration md = recoverDuration (generateHLSPlaylist st id "0" true).
Proof.
  intros _ H200. pose proof (finalize_status_cases baseUrl id st) as Hc.
  destruct (storage st !! id) as [[c|t es]|] eqn:E;
    try (rewrite Hc in H200; discriminate H200).
  rewrite (finalize_dir _ _ _ _ _ E). cbn [reply snd sessionMetadata].
  split; [apply lookup_delete_eq|].
  rewrite restart_lookup. cbn [storage]. rewrite lookup_insert_eq.
  eexists. split; [reflexivity|]. split; [reflexivity|].
  unfold recoveredMetadata. cbn [segmentDuration].
  rewrite readEntry_writeEntry_same.
  unfold generateHLSPlaylist, readdir. rewrite E. reflexivity.
Qed.

Lemma finalized_session_returns_on_restart_witness :
  exists md,
    sessionMetadata (restart (snd (finalize "http://h" "s1" sampleServer))) !! "s1"
    = Some md
    /\ segmentDuration md = Fin false 4 0.
Proof.
  destruct (finalized_session_returns_on_restart "http://h" "s1" sampleServer)
    as (_ & md & Hmd & _ & Hd).
  - reflexivity.
  - vm_compute. reflexivity.
  - exists md. split; [exact Hmd|]. rewrite Hd. vm_compute. reflexivity.
Defined.

(** X10.  The startup scan is idempotent: scanning the storage root a
    second time changes neither the storage nor the registry. *)
Theorem loadSessions_idempotent (st : server) :
  loadSessionsFromFilesystem (loadSessionsFromFilesystem st)
  = loadSessionsFromFilesystem st.
Proof.
  assert (Hreg : sessionMetadata (loadSessionsFromFilesystem
                                    (loadSessionsFromFilesystem st))
                 = sessionMetadata (loadSessionsFromFilesystem st)).
  { apply map_eq. intros k. rewrite (loadSessions_lookup (loadSessionsFromFilesystem st)).
    change (storage (loadSessionsFromFilesystem st)) with (storage st).
    rewrite loadSessions_lookup.
    destruct (storage st !! k) as [[c|t es]|]; reflexivity. }
  transitivity {| storage := storage (loadSessionsFromFilesystem st);
                  sessionMetadata := sessionMetadata (loadSessionsFromFilesystem st) |};
    [|reflexivity].
  unfold loadSessionsFromFilesystem at 1. f_equal. exact Hreg.
Qed.

(** ** What an upload changes *)

(** An upload is answered 200, or leaves the state it found or the one
    after [mkdir]. *)
Lemma uploadChunk_cases (now id chunkId : string) (req : ChunkUploadRequest)
    (st : server) :
  status (fst (uploadChunk now id chunkId req st)) = 200
  \/ (status (fst (uploadChunk now id chunkId req st)) <> 200
      /\ (snd (uploadChunk now id chunkId req st) = st
          \/ mkdir now id st = Some (snd (uploadChunk now id chunkId req st)))).
Proof.
  destruct (file req) as [f|] eqn:Hf.
  2:{ right. unfold uploadChunk. rewrite Hf. split; [discriminate|left; reflexivity]. }
  destruct (String.eqb (fieldname f) "chunk") eqn:Hn.
  2:{ right. unfold uploadChunk. rewrite Hf, Hn.
      split; [discriminate|left; reflexivity]. }
  destruct (mkdir now id st) as [st1|] eqn:Hmk.
  2:{ right. unfold uploadChunk. rewrite Hf, Hn, Hmk.
      split; [discriminate|left; reflexivity]. }
  assert (Hfile : forall c, storage st !! id <> Some (File c)).
  { intros c Hc. unfold mkdir in Hmk. rewrite Hc in Hmk. discriminate. }
  apply String.eqb_eq in Hn.
  destruct (isFirstOf req) eqn:Hfirst.
  - destruct (hasMediaExt (initFilenameOf req)) eqn:Hext.
    + left. rewrite (uploadChunk_init_result now _ _ _ _ _ Hf Hn Hfirst Hext Hfile).
      reflexivity.
    + right. unfold uploadChunk.
      rewrite Hf, (fieldname_check f Hn), Hmk, Hfirst, Hext.
      split; [discriminate|right; reflexivity].
  - destruct (hasMediaExt (chunkFilenameOf req chunkId)) eqn:Hext.
    + left. rewrite (uploadChunk_segment_result now _ _ _ _ _ Hf Hn Hfirst Hext Hfile).
      reflexivity.
    + right. unfold uploadChunk.
      rewrite Hf, (fieldname_check f Hn), Hmk, Hfirst, Hext.
      split; [discriminate|right; reflexivity].
Qed.

(** X11.  An upload to a session id that is one path component writes
    into its own session directory only, and there only the fragment and,
    for a numbered fragment, the playlist: every other file of every
    session reads as before; the registry is never changed; and an upload
    that is not answered 200 changes no file at all. *)
Theorem upload_touches_only_its_files
    (now id chunkId : string) (req : ChunkUploadRequest) (st : server) :
  plainComponent id = true ->
  sessionMetadata (snd (uploadChunk now id chunkId req st)) = sessionMetadata st
  /\ (forall id' name,
        plainComponent id' = true -> plainComponent name = true ->
        id' <> id
        \/ (name <> storedNameOf req chunkId
            /\ (isFirstOf req = true \/ name <> "playlist.m3u8")) ->
        readFile (snd (uploadChunk now id chunkId req st)) id' name
        = readFile st id' name)
  /\ (status (fst (uploadChunk now id chunkId req st)) <> 200 ->
      forall id' name,
        plainComponent id' = true -> plainComponent name = true ->
        readFile (snd (uploadChunk now id chunkId req st)) id' name
        = readFile st id' name).
Proof.
  intros _.
  destruct (uploadChunk_cases now id chunkId req st) as [H200|[Hno [E|Hmk]]].
  - destruct (uploadChunk_200_inv _ _ _ _ _ H200) as (f & Hf & Hn & Hfile & Hext).
    unfold storedNameOf. destruct (isFirstOf req) eqn:Hfirst.
    + rewrite (uploadChunk_init_result now _ _ _ _ _ Hf Hn Hfirst Hext Hfile).
      cbn [reply snd fst status]. split; [reflexivity|]. split.
      * intros id' name _ _ [Hid|[Hname _]].
        -- apply readFile_insert_other. exact Hid.
        -- destruct (decide (id' = id)) as [->|Hid];
             [|apply readFile_insert_other; exact Hid].
           rewrite readFile_afterInitUpload, readEntry_directoryOrNew.
           destruct (String.eqb_spec (initFilenameOf req) name); congruence.
      * intros H. exfalso. apply H. reflexivity.
    + rewrite (uploadChunk_segment_result now _ _ _ _ _ Hf Hn Hfirst Hext Hfile).
      cbn [reply snd fst status]. split; [reflexivity|]. split.
      * intros id' name _ _ [Hid|[Hname [Hx|Hp]]]; try discriminate Hx.
        -- apply readFile_insert_other. exact Hid.
        -- destruct (decide (id' = id)) as [->|Hid];
             [|apply readFile_insert_other; exact Hid].
           rewrite readFile_afterSegmentUpload, readEntry_directoryOrNew.
           destruct (String.eqb_spec "playlist.m3u8" name); [congruence|].
           destruct (String.eqb_spec (chunkFilenameOf req chunkId) name); congruence.
      * intros H. exfalso. apply H. reflexivity.
  - rewrite E. auto.
  - destruct (mkdir_inv _ _ _ _ Hmk) as [Hreg _].
    split; [exact Hreg|]. split; intros; apply (mkdir_readFile _ _ _ _ _ _ Hmk).
Qed.

Lemma upload_touches_only_its_files_witness :
  readFile (snd (uploadChunk "t1" "s1" "11" (chunkForm false "chunk11.mp4" "k")
                   sampleServer)) "s1" "chunk2.mp4"
  = Some "b"
  /\ sessionMetadata (snd (uploadChunk "t1" "s1" "11"
                             (chunkForm false "chunk11.mp4" "k") sampleServer))
     = sessionMetadata sampleServer.
Proof.
  destruct (upload_touches_only_its_files "t1" "s1" "11"
              (chunkForm false "chunk11.mp4" "k") sampleServer)
    as (Hreg & Hread & _).
  - reflexivity.
  - split; [|exact Hreg].
    rewrite Hread; [reflexivity|reflexivity|reflexivity|].
    right. split; [discriminate|right; discriminate].
Defined.

(** X12.  The upload route never looks at the registry: a numbered
    fragment sent to a session that is not registered (one that was
    finalized, or was never created) is accepted, and the playlist then
    served is the open playlist of the directory with the default
    duration. *)
Theorem upload_to_unregistered_session
    (now id chunkId : string) (req : ChunkUploadRequest) (st : server) :
  sessionMetadata st !! id = None ->
  isFirstOf req = false ->
  status (fst (uploadChunk now id chunkId req st)) = 200 ->
  exists files,
    readdir (snd (uploadChunk now id chunkId req st)) id = Some files
    /\ getPlaylist id (snd (uploadChunk now id chunkId req st))
       = Served "application/vnd.apple.mpegurl"
           (playlistText files DEFAULT_SEGMENT_DURATION chunkId false).
Proof.
  intros Hreg Hfirst H200.
  destruct (uploadChunk_200_inv _ _ _ _ _ H200) as (f & Hf & Hn & Hfile & Hext).
  rewrite Hfirst in Hext.
  rewrite (uploadChunk_segment_result now _ _ _ _ _ Hf Hn Hfirst Hext Hfile).
  cbn [reply snd]. eexists. split.
  - unfold readdir, afterSegmentUpload. cbn [storage]. rewrite lookup_insert_eq.
    reflexivity.
  - unfold getPlaylist, accessFile.
    rewrite readFile_afterSegmentUpload, String.eqb_refl. cbn [negb].
    rewrite (playlistText_write_ignored "playlist.m3u8")
      by (apply playlist_name_not_init || apply playlist_name_not_chunk).
    unfold segmentUploadText.
    rewrite (resolveDuration_unregistered st id Hreg). reflexivity.
Qed.

Lemma upload_to_unregistered_session_witness :
  exists files,
    readdir (snd (uploadChunk "t1" "s1" "11" (chunkForm false "chunk11.mp4" "k")
                    (snd (finalize "http://h" "s1" sampleServer)))) "s1" = Some files
    /\ getPlaylist "s1"
         (snd (uploadChunk "t1" "s1" "11" (chunkForm false "chunk11.mp4" "k")
                 (snd (finalize "http://h" "s1" sampleServer))))
       = Served "application/vnd.apple.mpegurl"
           (playlistText files (Fin false 5 0) "11" false).
Proof.
  apply (upload_to_unregistered_session "t1" "s1" "11"
           (chunkForm false "chunk11.mp4" "k")
           (snd (finalize "http://h" "s1" sampleServer))).
  - vm_compute. reflexivity.
  - reflexivity.
  - vm_compute. reflexivity.
Defined.

(** ** The names files are stored under *)

Lemma list_ascii_of_string_app (a b : string) :
  list_ascii_of_string (a ++ b)
  = (list_ascii_of_string a ++ list_ascii_of_string b)%list.
Proof.
  induction a as [|c a IH]; [reflexivity|].
  change (String c a ++ b) with (String c (a ++ b)). simpl. rewrite IH. reflexivity.
Qed.

Lemma hasSlash_app (a b : string) :
  hasSlash (a ++ b) = hasSlash a || hasSlash b.
Proof. unfold hasSlash. rewrite list_ascii_of_string_app. apply existsb_app. Qed.

Lemma hasSlash_zeros (n : nat) : hasSlash (zeros n) = false.
Proof. induction n as [|n IH]; [reflexivity|exact IH]. Qed.

Lemma existsb_rev {A : Type} (p : A -> bool) (l : list A) :
  existsb p (rev l) = existsb p l.
Proof.
  induction l as [|x l IH]; [reflexivity|].
  simpl. rewrite existsb_app, IH. simpl. rewrite orb_false_r. apply orb_comm.
Qed.

Lemma takeComponent_no_slash (l : list ascii) :
  existsb (fun c => Ascii.eqb c "/"%char) (takeComponent l) = false.
Proof.
  induction l as [|c l IH]; [reflexivity|].
  simpl. destruct (Ascii.eqb c "/") eqn:E; [reflexivity|].
  simpl. rewrite E. exact IH.
Qed.

Lemma hasSlash_basename (p : string) : hasSlash (basename p) = false.
Proof.
  unfold hasSlash, basename.
  rewrite list_ascii_of_string_of_list_ascii, existsb_rev.
  apply takeComponent_no_slash.
Qed.

Lemma hasSlash_defaultSegmentName (chunkId : string) :
  hasSlash chunkId = false -> hasSlash (defaultSegmentName chunkId) = false.
Proof.
  intros H. unfold defaultSegmentName, padStart0.
  rewrite !hasSlash_app, hasSlash_zeros, H. reflexivity.
Qed.

(** X13.  An accepted upload is stored under one path component: for a
    chunk id without a slash, the name the file is written under has no
    slash and is neither empty nor a dot name, whatever file name the
    client sent. *)
Theorem stored_name_is_one_component
    (now id chunkId : string) (req : ChunkUploadRequest) (st : server) :
  hasSlash chunkId = false ->
  status (fst (uploadChunk now id chunkId req st)) = 200 ->
  hasSlash (storedNameOf req chunkId) = false
  /\ storedNameOf req chunkId <> ""
  /\ storedNameOf req chunkId <> "."
  /\ storedNameOf req chunkId <> "..".
Proof.
  intros Hid H200. pose proof (storedName_media _ _ _ _ _ H200) as Hmedia.
  split.
  - unfold storedNameOf, initFilenameOf, chunkFilenameOf.
    pose proof (hasSlash_defaultSegmentName chunkId Hid) as Hdefault.
    destruct (isFirstOf req); destruct (clientFilenameOf req) as [n|].
    + destruct (isEmpty n); [reflexivity|apply (hasSlash_basename n)].
    + reflexivity.
    + destruct (isEmpty n); [exact Hdefault|apply (hasSlash_basename n)].
    + exact Hdefault.
  - repeat split; intros E; rewrite E in Hmedia; discriminate Hmedia.
Qed.

Lemma stored_name_is_one_component_witness :
  hasSlash (storedNameOf (chunkForm false "../../etc/chunk7.mp4" "k") "7") = false.
Proof.
  destruct (stored_name_is_one_component "t1" "s1" "7"
              (chunkForm false "../../etc/chunk7.mp4" "k") sampleServer)
    as (H & _).
  - reflexivity.
  - vm_compute. reflexivity.
  - exact H.
Defined.

(** ** Init fragments and numbered fragments *)

Lemma occurs_app (x : ascii) (a b : string) :
  occurs x (a ++ b) = occurs x a || occurs x b.
Proof.
  induction a as [|c a IH]; [reflexivity|].
  change (String c a ++ b) with (String c (a ++ b)). simpl.
  rewrite IH. apply orb_assoc.
Qed.

Lemma includes_init_occurs (s : string) :
  occurs "i" s = false -> includes "init" s = false.
Proof.
  induction s as [|c s IH]; [reflexivity|].
  intros H. cbn [occurs] in H. apply orb_false_elim in H. destruct H as [Hc Hs].
  cbn [includes stripPrefix]. rewrite Ascii.eqb_sym, Hc. apply IH. exact Hs.
Qed.

Lemma toLowerCase_stripPrefixCI (p f r : string) :
  stripPrefixCI p f = Some r ->
  toLowerCase f = toLowerCase p ++ toLowerCase r.
Proof.
  revert f. induction p as [|a p IH]; intros f H.
  - simpl in H. injection H as <-. reflexivity.
  - destruct f as [|b f]; [discriminate H|]. simpl in H.
    destruct (Ascii.eqb (lowerChar a) (lowerChar b)) eqn:E; [|discriminate H].
    apply Ascii.eqb_eq in E. simpl. rewrite (IH _ H), E. reflexivity.
Qed.

Lemma toLowerCase_app (a b : string) :
  toLowerCase (a ++ b) = toLowerCase a ++ toLowerCase b.
Proof.
  induction a as [|c a IH]; [reflexivity|].
  change (String c a ++ b) with (String c (a ++ b)). simpl. rewrite IH. reflexivity.
Qed.

Lemma occurs_i_digits (ds : string) :
  allDigits ds = true -> occurs "i" (toLowerCase ds) = false.
Proof.
  induction ds as [|c ds IH]; [reflexivity|].
  simpl. intros H. apply andb_prop in H. destruct H as [Hc Hd].
  rewrite (IH Hd), orb_false_r.
  destruct c as [[] [] [] [] [] [] [] []]; try discriminate Hc; reflexivity.
Qed.

Lemma occurs_i_mediaExt (r : string) :
  isMediaExt r = true -> occurs "i" (toLowerCase r) = false.
Proof.
  unfold isMediaExt, eqCI. intros H. apply orb_prop in H.
  destruct H as [H|H]; apply String.eqb_eq in H; rewrite H; reflexivity.
Qed.

Lemma chunk_is_not_init (f : string) :
  isChunkFile f = true -> isInitFile f = false.
Proof.
  unfold isChunkFile, matchChunk, isInitFile. intros H.
  destruct (stripPrefixCI "chunk" f) as [r|] eqn:Hp; [|discriminate H].
  pose proof (spanDigits_spec r) as (Hd & Hr & _).
  destruct (spanDigits r) as [ds rest]. cbn [fst snd] in Hd, Hr.
  destruct (negb (isEmpty ds) && isMediaExt rest) eqn:Hc; [|discriminate H].
  apply andb_prop in Hc. destruct Hc as [_ Hext].
  rewrite (toLowerCase_stripPrefixCI _ _ _ Hp), Hr, toLowerCase_app.
  rewrite includes_init_occurs; [reflexivity|].
  rewrite !occurs_app, (occurs_i_digits ds Hd), (occurs_i_mediaExt rest Hext).
  reflexivity.
Qed.

(** X14.  The initialization segment is never one of the media segments:
    the file the playlist names in its map line is not among the listed
    fragments, whatever the directory holds. *)
Theorem init_file_is_not_listed (files : list string) (f : string) :
  List.find isInitFile files = Some f -> ~ In f (segmentFilesOf files).
Proof.
  intros Hfind Hin. apply List.find_some in Hfind. destruct Hfind as [_ Hinit].
  apply segmentFilesOf_In in Hin. destruct Hin as [_ Hchunk].
  rewrite (chunk_is_not_init f Hchunk) in Hinit. discriminate Hinit.
Qed.

Lemma init_file_is_not_listed_witness :
  List.find isInitFile (map fst sampleDir) = Some "init_0.mp4"
  /\ ~ In "init_0.mp4" (segmentFilesOf (map fst sampleDir)).
Proof.
  split; [reflexivity|].
  apply (init_file_is_not_listed (map fst sampleDir) "init_0.mp4").
  reflexivity.
Defined.

(** ** The reference client against the server *)

Lemma stripPrefix_spec (p s r : string) :
  stripPrefix p s = Some r -> s = p ++ r.
Proof.
  revert s. induction p as [|a p IH]; intros s H.
  - simpl in H. injection H as <-. reflexivity.
  - destruct s as [|b s]; [discriminate H|]. simpl in H.
    destruct (Ascii.eqb a b) eqn:E; [|discriminate H].
    apply Ascii.eqb_eq in E. subst b.
    change (String a s = String a (p ++ r)). rewrite (IH _ H). reflexivity.
Qed.

Lemma stripPrefix_app (p r : string) : stripPrefix p (p ++ r) = Some r.
Proof.
  induction p as [|a p IH]; [reflexivity|].
  change (String a p ++ r) with (String a (p ++ r)). simpl.
  rewrite Ascii.eqb_refl. exact IH.
Qed.

Lemma hasSuffix_spec (p s : string) :
  hasSuffix p s = true -> exists a, s = a ++ p.
Proof.
  unfold hasSuffix, hasPrefix. intros H.
  destruct (stripPrefix _ _) as [r|] eqn:E; [|discriminate H].
  apply stripPrefix_spec in E.
  apply (f_equal list_ascii_of_string) in E.
  rewrite list_ascii_of_string_app, !list_ascii_of_string_of_list_ascii in E.
  apply (f_equal (@rev ascii)) in E.
  rewrite rev_app_distr, !rev_involutive in E.
  exists (string_of_list_ascii (rev (list_ascii_of_string r))).
  rewrite <- (string_of_list_ascii_of_string s), E, string_of_list_ascii_app.
  rewrite string_of_list_ascii_of_string. reflexivity.
Qed.

Lemma hasSuffix_app (a p : string) : hasSuffix p (a ++ p) = true.
Proof.
  unfold hasSuffix, hasPrefix.
  rewrite list_ascii_of_string_app, rev_app_distr, string_of_list_ascii_app.
  rewrite stripPrefix_app. reflexivity.
Qed.

Lemma hasMediaExt_lower_suffix (f a : string) :
  toLowerCase f = a ++ ".mp4" -> hasMediaExt f = true.
Proof.
  revert a. induction f as [|c f IH]; intros a H.
  - destruct a; discriminate H.
  - destruct a as [|x a].
    + change (hasMediaExt (String c f))
        with (isMediaExt (String c f) || hasMediaExt f).
      unfold isMediaExt, eqCI. rewrite H. reflexivity.
    + change (hasMediaExt (String c f))
        with (isMediaExt (String c f) || hasMediaExt f).
      change (String x a ++ ".mp4") with (String x (a ++ ".mp4")) in H.
      simpl in H. injection H as _ H. rewrite (IH _ H). apply orb_true_r.
Qed.

Lemma takeComponent_all (l : list ascii) :
  existsb (fun c => Ascii.eqb c "/"%char) l = false -> takeComponent l = l.
Proof.
  induction l as [|c l IH]; [reflexivity|].
  simpl. intros H. apply orb_false_elim in H. destruct H as [Hc Hl].
  rewrite Hc, (IH Hl). reflexivity.
Qed.

Lemma dropSlashes_all (l : list ascii) :
  existsb (fun c => Ascii.eqb c "/"%char) l = false -> dropSlashes l = l.
Proof.
  destruct l as [|c l]; [reflexivity|].
  simpl. intros H. apply orb_false_elim in H. destruct H as [Hc _].
  rewrite Hc. reflexivity.
Qed.

(** The base name of a path without a slash is the path. *)
Lemma basename_plain (s : string) : hasSlash s = false -> basename s = s.
Proof.
  unfold hasSlash, basename. intros H. rewrite <- existsb_rev in H.
  rewrite (dropSlashes_all _ H), (takeComponent_all _ H), rev_involutive.
  apply string_of_list_ascii_of_string.
Qed.

Lemma segment_prefix_first (filename : string) :
  hasPrefix "segment_" (toLowerCase filename) = true ->
  exists c rest, filename = String c rest /\ lowerChar c = "s"%char.
Proof.
  unfold hasPrefix. intros H.
  destruct (stripPrefix _ _) as [r|] eqn:E; [|discriminate H].
  apply stripPrefix_spec in E. destruct filename as [|c rest]; [discriminate E|].
  exists c, rest. split; [reflexivity|].
  change ("segment_" ++ r) with (String "s" ("egment_" ++ r)) in E.
  cbn [toLowerCase] in E. injection E as E _. exact E.
Qed.

Lemma segment_prefix_not_chunk (filename : string) :
  hasPrefix "segment_" (toLowerCase filename) = true ->
  isChunkFile filename = false.
Proof.
  intros H. destruct (segment_prefix_first _ H) as (c & rest & -> & Hc).
  unfold isChunkFile, matchChunk. cbn [stripPrefixCI]. rewrite Hc. reflexivity.
Qed.

Lemma segment_prefix_not_first (filename : string) :
  hasPrefix "segment_" (toLowerCase filename) = true ->
  snd (parseChunkInfo filename) = false.
Proof.
  intros H. destruct (segment_prefix_first _ H) as (c & rest & -> & Hc).
  unfold parseChunkInfo.
  assert (E : String.eqb (toLowerCase (String c rest)) "init_0.mp4" = false).
  { cbn [toLowerCase]. rewrite Hc. reflexivity. }
  rewrite E. destruct (_ && _); [|reflexivity].
  destruct (swiftInt _); reflexivity.
Qed.

(** X15.  The reference client and the server disagree on the names of
    fragments: a file the client sends under its own naming scheme,
    [segment_] followed by anything and [.mp4], is accepted and can be
    fetched, yet it is never among the fragments a playlist of the
    session lists. *)
Theorem client_segment_is_stored_not_listed
    (now sessionId filename data : string) (st : server) :
  hasSlash filename = false ->
  hasPrefix "segment_" (toLowerCase filename) = true ->
  hasSuffix ".mp4" (toLowerCase filename) = true ->
  (forall c, storage st !! sessionId <> Some (File c)) ->
  status (fst (clientUploadChunk now sessionId filename data st)) = 200
  /\ getFile sessionId filename (snd (clientUploadChunk now sessionId filename data st))
     = Served "video/mp4" data
  /\ forall files,
       readdir (snd (clientUploadChunk now sessionId filename data st)) sessionId
       = Some files ->
       ~ In filename (segmentFilesOf files).
Proof.
  intros Hslash Hpre Hsuf Hfile.
  pose proof (segment_prefix_not_first _ Hpre) as Hfirst.
  pose proof (segment_prefix_not_chunk _ Hpre) as Hchunk.
  destruct (hasSuffix_spec _ _ Hsuf) as (a & Ha).
  pose proof (hasMediaExt_lower_suffix _ _ Ha) as Hmedia.
  destruct (segment_prefix_first _ Hpre) as (c & rest & Hname & _).
  unfold clientUploadChunk.
  destruct (parseChunkInfo filename) as [chunkId isFirst]. cbn [snd] in Hfirst.
  subst isFirst.
  assert (Hstored : chunkFilenameOf (chunkForm false filename data) chunkId = filename).
  { unfold chunkFilenameOf, clientFilenameOf, chunkForm. cbn [formFilename truthyName].
    rewrite Hname. cbn [isEmpty negb]. rewrite <- Hname.
    apply basename_plain. exact Hslash. }
  rewrite (uploadChunk_segment_result now sessionId chunkId
             (chunkForm false filename data) _ st eq_refl eq_refl eq_refl);
    [|rewrite Hstored; exact Hmedia|exact Hfile].
  rewrite Hstored. cbn [reply fst snd status buffer].
  split; [reflexivity|]. split.
  - unfold getFile.
    destruct (String.eqb_spec filename "playlist.m3u8") as [E|_].
    { apply hasMediaExt_not_playlist in Hmedia. congruence. }
    unfold getChunk, accessFile. rewrite readFile_afterSegmentUpload.
    destruct (String.eqb_spec "playlist.m3u8" filename) as [E|_].
    { apply hasMediaExt_not_playlist in Hmedia. congruence. }
    rewrite String.eqb_refl. reflexivity.
  - intros files _ Hin. apply segmentFilesOf_In in Hin.
    destruct Hin as [_ Hin]. rewrite Hchunk in Hin. discriminate Hin.
Qed.

Lemma client_segment_is_stored_not_listed_witness :
  getFile "s1" "segment_00012.mp4"
    (snd (clientUploadChunk "t1" "s1" "segment_00012.mp4" "k" sampleServer))
  = Served "video/mp4" "k"
  /\ ~ In "segment_00012.mp4"
         (segmentFilesOf ["init_0.mp4"; "chunk10.mp4"; "chunk2.mp4"; "chunk1.mp4";
                          "playlist.m3u8"; "segment_00012.mp4"]).
Proof.
  destruct (client_segment_is_stored_not_listed "t1" "s1" "segment_00012.mp4" "k"
              sampleServer) as (_ & Hget & Hlist).
  - reflexivity.
  - reflexivity.
  - reflexivity.
  - intros c. vm_compute. discriminate.
  - split; [exact Hget|]. apply Hlist. vm_compute. reflexivity.
Defined.

Lemma toLowerCase_digits (ds : string) :
  allDigits ds = true -> toLowerCase ds = ds.
Proof.
  induction ds as [|c ds IH]; [reflexivity|].
  simpl. intros H. apply andb_prop in H. destruct H as [Hc Hd].
  rewrite (IH Hd). f_equal.
  destruct c as [[] [] [] [] [] [] [] []]; try discriminate Hc; reflexivity.
Qed.

Lemma dropLast_app4 (ds : string) : dropLast 4 (ds ++ ".mp4") = ds.
Proof.
  unfold dropLast. rewrite list_ascii_of_string_app, rev_app_distr.
  change (rev (list_ascii_of_string ".mp4"))
    with ["4"%char; "p"%char; "m"%char; "."%char].
  cbn [app skipn]. rewrite drop_0, rev_involutive.
  apply string_of_list_ascii_of_string.
Qed.

Lemma swiftInt_digits (ds : string) :
  allDigits ds = true -> isEmpty ds = false ->
  (digitsValue ds < 2 ^ 63)%N ->
  swiftInt ds = Some (Z.of_N (digitsValue ds)).
Proof.
  intros Hd Hne Hlt. unfold swiftInt.
  assert (Hsign : readSign ds = (false, ds)).
  { destruct ds as [|c ds]; [reflexivity|]. simpl in Hd.
    apply andb_prop in Hd. destruct Hd as [Hc _].
    destruct (isDigit_plain c Hc) as (_ & Hm & Hp & _).
    unfold readSign. rewrite Hm, Hp. reflexivity. }
  rewrite Hsign, Hne, Hd. cbn [negb orb].
  destruct (Z.leb_spec (- 2 ^ 63) (Z.of_N (digitsValue ds))) as [_|]; [|lia].
  destruct (Z.ltb_spec (Z.of_N (digitsValue ds)) (2 ^ 63)) as [_|H]; [reflexivity|].
  exfalso. apply N2Z.inj_lt in Hlt. change (Z.of_N (2 ^ 63)) with (2 ^ 63)%Z in Hlt.
  lia.
Qed.

Lemma swiftString_of_N (v : N) :
  swiftString (Z.of_N v) = string_of_list_ascii (digitsOfN v).
Proof.
  unfold swiftString.
  destruct (Z.ltb_spec (Z.of_N v) 0) as [H|_]; [lia|].
  rewrite Zabs2N.id. reflexivity.
Qed.

(** X16.  The chunk id the client derives from a file name of its own
    scheme: for [segment_], a run of digits whose value is below 2^63,
    and [.mp4], it is the decimal numeral of that value without leading
    zeros, and the file is not taken as an init fragment. *)
Theorem parseChunkInfo_segment_number (ds : string) :
  allDigits ds = true -> isEmpty ds = false ->
  (digitsValue ds < 2 ^ 63)%N ->
  parseChunkInfo ("segment_" ++ ds ++ ".mp4")
  = (string_of_list_ascii (digitsOfN (digitsValue ds)), false).
Proof.
  intros Hd Hne Hlt. unfold parseChunkInfo.
  rewrite !toLowerCase_app, (toLowerCase_digits ds Hd).
  change (toLowerCase "segment_") with "segment_".
  change (toLowerCase ".mp4") with ".mp4".
  change (String.eqb ("segment_" ++ ds ++ ".mp4") "init_0.mp4") with false.
  cbv iota.
  assert (Hpre : hasPrefix "segment_" ("segment_" ++ ds ++ ".mp4") = true).
  { unfold hasPrefix. rewrite stripPrefix_app. reflexivity. }
  rewrite Hpre, <- append_assoc, hasSuffix_app. cbn [andb].
  rewrite append_assoc.
  change (dropFirst 8 ("segment_" ++ ds ++ ".mp4")) with (ds ++ ".mp4").
  rewrite dropLast_app4, (swiftInt_digits ds Hd Hne Hlt), swiftString_of_N.
  reflexivity.
Qed.

Lemma parseChunkInfo_segment_number_witness :
  parseChunkInfo ("segment_" ++ "00012" ++ ".mp4") = ("12", false).
Proof.
  apply (parseChunkInfo_segment_number "00012").
  - reflexivity.
  - reflexivity.
  - vm_compute. reflexivity.
Defined.

(** ** Durations across a restart *)

Lemma valDigits_zeros (ds : list ascii) (k : nat) :
  valDigits (ds ++ repeat "0"%char k) = (valDigits ds * 10 ^ N.of_nat k)%N.
Proof.
  induction k as [|k IH].
  - simpl. rewrite app_nil_r. change (10 ^ N.of_nat 0)%N with 1%N. lia.
  - change (repeat "0"%char (S k)) with ("0"%char :: repeat "0"%char k).
    rewrite repeat_cons, app_assoc, valDigits_snoc, IH.
    rewrite Nat2N.inj_succ, N.pow_succ_r'.
    change (digitVal "0") with 0%N. lia.
Qed.

Lemma valDigits_lower (l : list ascii) :
  Forall (fun c => isDigit c = true) l -> startsNonZero l ->
  (10 ^ N.of_nat (length l - 1) <= valDigits l)%N.
Proof.
  induction l as [|c l IH] using rev_ind; intros Hd Hs.
  - destruct Hs as (? & ? & [=] & _).
  - apply Forall_app in Hd. destruct Hd as [Hd Hc].
    inversion Hc as [|? ? Hc' _]; subst.
    rewrite valDigits_snoc, length_app. destruct l as [|c0 l].
    + destruct Hs as (c1 & rest & [= <- _] & Hz).
      pose proof (digitVal_nonzero c Hc' Hz) as Hnz.
      change (valDigits []) with 0%N. simpl. change (10 ^ 0)%N with 1%N. lia.
    + assert (Hs' : startsNonZero (c0 :: l)).
      { destruct Hs as (c1 & rest & [= <- _] & Hz). exists c0, l. auto. }
      specialize (IH Hd Hs'). simpl length in *.
      replace (S (length l) + 1 - 1) with (S (length l - 0)) by lia.
      replace (S (length l) - 1) with (length l - 0) in IH by lia.
      rewrite Nat2N.inj_succ, N.pow_succ_r'. lia.
Qed.

Lemma digitsOfN_length (x : N) :
  x <> 0%N -> (x < 2 ^ 53)%N -> length (digitsOfN x) <= 16.
Proof.
  intros Hx Hlt. destruct (digitsOfN_spec x) as (Hv & Hd & _).
  pose proof (valDigits_lower _ Hd (digitsOfN_head x Hx)) as Hlow.
  rewrite Hv in Hlow.
  destruct (le_lt_dec (length (digitsOfN x)) 16) as [H|H]; [exact H|exfalso].
  assert (Hpow : (10 ^ 16 <= 10 ^ N.of_nat (length (digitsOfN x) - 1))%N).
  { apply N.pow_le_mono_r; lia. }
  assert (Hc : (2 ^ 53 < 10 ^ 16)%N) by reflexivity.
  lia.
Qed.

(** A whole number of at most 21 digits prints as its digits. *)
Lemma toString_whole (m : positive) (e : Z) :
  (0 <= e)%Z ->
  (Z.of_nat (length (digitsOfN (N.pos m))) + e <= 21)%Z ->
  toString (Fin false m e)
  = string_of_list_ascii (digitsOfN (N.pos m) ++ repeat "0"%char (Z.to_nat e)).
Proof.
  intros He Hn. unfold toString.
  destruct (trailing_zeros_split _ (digitsOfN_head (N.pos m) ltac:(discriminate)))
    as (front & c & z & Hl & Hc & _).
  revert Hn. rewrite Hl. intros Hn.
  rewrite (stripTrailingZeros_app front c z Hc). unfold layout.
  rewrite length_app, repeat_length in Hn |- *.
  assert (Hk : 0 < length (front ++ [c])) by (rewrite length_app; simpl; lia).
  set (k := length (front ++ [c])) in *.
  destruct (Z.ltb_spec 0 (Z.of_nat (k + z) + e)) as [_|]; [|lia].
  destruct (Z.leb_spec (Z.of_nat (k + z) + e) 21) as [_|]; [|lia].
  cbn [andb].
  destruct (Z.leb_spec (Z.of_nat k) (Z.of_nat (k + z) + e)) as [_|]; [|lia].
  replace (Z.to_nat (Z.of_nat (k + z) + e - Z.of_nat k)) with (z + Z.to_nat e) by lia.
  rewrite repeat_app, app_assoc. reflexivity.
Qed.

Lemma matchTargetDuration_unfold (s : string) :
  matchTargetDuration s
  = match targetDurationHere s with
    | Some ds => Some ds
    | None =>
        match s with
        | EmptyString => None
        | String _ s' => matchTargetDuration s'
        end
    end.
Proof. destruct s; reflexivity. Qed.

(** The target duration tag of a generated playlist is the first one the
    startup scan finds; the capture is the digit run that follows it. *)
Lemma matchTargetDuration_generated (ds tail : string) :
  allDigits ds = true -> isEmpty ds = false ->
  match tail with String c _ => isDigit c = false | EmptyString => True end ->
  matchTargetDuration
    ("#EXTM3U" ++ LF ++ "#EXT-X-VERSION:7" ++ LF
     ++ "#EXT-X-PLAYLIST-TYPE:EVENT" ++ LF
     ++ "#EXT-X-TARGETDURATION:" ++ ds ++ tail)
  = Some ds.
Proof.
  intros Hd Hne Htail.
  transitivity (matchTargetDuration ("#EXT-X-TARGETDURATION:" ++ ds ++ tail));
    [reflexivity|].
  rewrite matchTargetDuration_unfold. unfold targetDurationHere.
  rewrite stripPrefix_app.
  rewrite (spanDigits_allDigits ds tail Hd Htail).
  rewrite Hne. reflexivity.
Qed.

Lemma segmentLines_toString (d d' : number) (segs : list string) :
  toString d = toString d' -> segmentLines d segs = segmentLines d' segs.
Proof.
  intros H. induction segs as [|f segs IH]; [reflexivity|].
  cbn [segmentLines]. rewrite H, IH. reflexivity.
Qed.

(** The playlist depends on the duration through its printed form only. *)
Lemma playlistText_toString (files : list string) (d d' : number)
    (seq : string) (fin : bool) :
  toString d = toString d' ->
  playlistText files d seq fin = playlistText files d' seq fin.
Proof.
  intros H. unfold playlistText.
  rewrite H, (segmentLines_toString d d' _ H). reflexivity.
Qed.

(** What the startup scan reads from a playlist generated with a whole
    number of seconds below 2^53: that number, which prints the same. *)
Lemma recoverDuration_whole (files : list string) (m : positive) (e : Z)
    (seq : string) (fin : bool) :
  (0 <= e)%Z ->
  (N.pos m * 10 ^ Z.to_N e < 2 ^ 53)%N ->
  recoverDuration (Some (playlistText files (Fin false m e) seq fin))
  = ofN (N.pos m * 10 ^ Z.to_N e)
  /\ toString (ofN (N.pos m * 10 ^ Z.to_N e)) = toString (Fin false m e).
Proof.
  intros He Hlt.
  set (v := (N.pos m * 10 ^ Z.to_N e)%N) in *.
  set (l := (digitsOfN (N.pos m) ++ repeat "0"%char (Z.to_nat e))%list).
  destruct (digitsOfN_spec (N.pos m)) as (Hvm & Hdm & _).
  assert (Hval : valDigits l = v).
  { unfold l, v. rewrite valDigits_zeros, Hvm, Z_nat_N. reflexivity. }
  assert (Hdl : Forall (fun c => isDigit c = true) l).
  { apply Forall_app. split; [exact Hdm|apply Forall_digit_zeros]. }
  assert (Hsl : startsNonZero l).
  { apply startsNonZero_app, digitsOfN_head. discriminate. }
  assert (Hv0 : v <> 0%N).
  { unfold v. apply N.neq_mul_0. split; [discriminate|].
    apply N.pow_nonzero. discriminate. }
  assert (Hdv : digitsOfN v = l).
  { rewrite <- Hval. apply digitsOfN_valDigits; assumption. }
  pose proof (digitsOfN_length v Hv0 Hlt) as Hlen.
  assert (Hlen' : (Z.of_nat (length (digitsOfN (N.pos m))) + e <= 21)%Z).
  { rewrite Hdv in Hlen. unfold l in Hlen.
    rewrite length_app, repeat_length in Hlen. lia. }
  pose proof (toString_whole m e He Hlen') as Hts. fold l in Hts.
  assert (Hne : l <> []).
  { destruct Hsl as (c & rest & -> & _). discriminate. }
  split.
  - unfold recoverDuration. rewrite playlistText_shape, Hts.
    rewrite matchTargetDuration_generated;
      [|apply allDigits_string_of_list, Hdl|apply isEmpty_string_of_list, Hne
       |reflexivity].
    rewrite (isEmpty_string_of_list l Hne).
    rewrite parseInt_digits
      by (apply allDigits_string_of_list, Hdl || apply isEmpty_string_of_list, Hne).
    unfold digitsValue. rewrite list_ascii_of_string_of_list_ascii, Hval.
    rewrite (roundToDouble_exact v Hlt). reflexivity.
  - rewrite Hts. destruct v as [|p] eqn:Ev; [congruence|].
    cbn [ofN]. rewrite toString_whole; [|lia|lia].
    rewrite Hdv. simpl. rewrite app_nil_r. reflexivity.
Qed.

Lemma resolveDuration_registered (st : server) (id : string) (md : SessionMetadata) :
  sessionMetadata st !! id = Some md ->
  numberTruthy (segmentDuration md) = true ->
  resolveDuration st id = segmentDuration md.
Proof.
  intros H Ht. unfold resolveDuration, getSessionMetadata. rewrite H, Ht. reflexivity.
Qed.

(** X17.  A session with a whole number of seconds survives a restart:
    when the session id is one path component, the registered duration is
    a whole number below 2^53 and a numbered fragment has been uploaded,
    the generator gives the same playlist for the session after a restart
    as before it. *)
Theorem restart_keeps_whole_second_playlists
    (now id chunkId : string) (req : ChunkUploadRequest) (st : server)
    (md : SessionMetadata) (m : positive) (e : Z) (seq : string) (fin : bool) :
  plainComponent id = true ->
  sessionMetadata st !! id = Some md ->
  segmentDuration md = Fin false m e ->
  (0 <= e)%Z ->
  (N.pos m * 10 ^ Z.to_N e < 2 ^ 53)%N ->
  isFirstOf req = false ->
  status (fst (uploadChunk now id chunkId req st)) = 200 ->
  generateHLSPlaylist (restart (snd (uploadChunk now id chunkId req st))) id seq fin
  = generateHLSPlaylist (snd (uploadChunk now id chunkId req st)) id seq fin.
Proof.
  intros _ Hmd Hd He Hlt Hfirst H200.
  destruct (uploadChunk_200_inv _ _ _ _ _ H200) as (f & Hf & Hn & Hfile & Hext).
  rewrite Hfirst in Hext.
  rewrite (uploadChunk_segment_result now _ _ _ _ _ Hf Hn Hfirst Hext Hfile).
  cbn [reply snd].
  set (st1 := afterSegmentUpload now st id chunkId (chunkFilenameOf req chunkId)
                (buffer f)).
  assert (Hbefore : resolveDuration st id = Fin false m e).
  { rewrite (resolveDuration_registered st id md Hmd); rewrite Hd; reflexivity. }
  assert (Hst1 : resolveDuration st1 id = Fin false m e).
  { rewrite (resolveDuration_ext st st1 id) by reflexivity. exact Hbefore. }
  destruct (recoverDuration_whole
              (map fst (writeEntry (chunkFilenameOf req chunkId) (buffer f)
                          (snd (directoryOrNew now st id))))
              m e chunkId false He Hlt) as [Hrec Hprint].
  assert (Hafter : toString (resolveDuration (restart st1) id)
                   = toString (Fin false m e)).
  { unfold resolveDuration, getSessionMetadata. rewrite restart_lookup.
    unfold st1 at 1, afterSegmentUpload. cbn [storage]. rewrite lookup_insert_eq.
    unfold recoveredMetadata. cbn [segmentDuration].
    rewrite readEntry_writeEntry_same. unfold segmentUploadText.
    rewrite Hbefore, Hrec.
    destruct (N.pos m * 10 ^ Z.to_N e)%N as [|p] eqn:Ev.
    - exfalso. apply N.eq_mul_0 in Ev. destruct Ev as [Ev|Ev]; [discriminate|].
      revert Ev. apply N.pow_nonzero. discriminate.
    - cbn [ofN numberTruthy]. exact Hprint. }
  unfold generateHLSPlaylist.
  change (readdir (restart st1) id) with (readdir st1 id).
  destruct (readdir st1 id) as [files|]; [|reflexivity].
  f_equal. rewrite Hst1. apply playlistText_toString. exact Hafter.
Qed.

Lemma restart_keeps_whole_second_playlists_witness :
  generateHLSPlaylist
    (restart (snd (uploadChunk "t1" "s1" "11" (chunkForm false "chunk11.mp4" "k")
                     sampleServer))) "s1" "12" true
  = generateHLSPlaylist
      (snd (uploadChunk "t1" "s1" "11" (chunkForm false "chunk11.mp4" "k")
              sampleServer)) "s1" "12" true.
Proof.
  apply (restart_keeps_whole_second_playlists "t1" "s1" "11"
           (chunkForm false "chunk11.mp4" "k") sampleServer
           {| sessionId := "s1"; segmentDuration := Fin false 4 0; createdAt := "t0" |}
           4 0 "12" true).
  - reflexivity.
  - reflexivity.
  - reflexivity.
  - lia.
  - reflexivity.
  - reflexivity.
  - vm_compute. reflexivity.
Defined.

(** ** Fractional durations across a restart *)

Lemma valDigits_app (a b : list ascii) :
  valDigits (a ++ b)
  = (valDigits a * 10 ^ N.of_nat (length b) + valDigits b)%N.
Proof.
  induction b as [|c b IH] using rev_ind.
  - rewrite app_nil_r. change (valDigits []) with 0%N.
    change (10 ^ N.of_nat (length (@nil ascii)))%N with 1%N. lia.
  - rewrite app_assoc, !valDigits_snoc, IH, length_app. simpl length.
    replace (N.of_nat (length b + 1)) with (N.succ (N.of_nat (length b))) by lia.
    rewrite N.pow_succ_r'. lia.
Qed.

Lemma valDigits_upper (b : list ascii) :
  Forall (fun c => isDigit c = true) b ->
  (valDigits b < 10 ^ N.of_nat (length b))%N.
Proof.
  induction b as [|c b IH] using rev_ind; intros Hd.
  - change (valDigits []) with 0%N.
    change (10 ^ N.of_nat (length (@nil ascii)))%N with 1%N. lia.
  - apply Forall_app in Hd. destruct Hd as [Hd Hc].
    inversion Hc as [|? ? Hc' _]; subst.
    rewrite valDigits_snoc, length_app. simpl length.
    replace (N.of_nat (length b + 1)) with (N.succ (N.of_nat (length b))) by lia.
    rewrite N.pow_succ_r'. pose proof (digitVal_lt c Hc'). specialize (IH Hd). lia.
Qed.

Lemma valDigits_firstn (l : list ascii) (j : nat) :
  Forall (fun c => isDigit c = true) l ->
  valDigits (firstn j l) = (valDigits l / 10 ^ N.of_nat (length l - j))%N.
Proof.
  intros Hd. rewrite <- (firstn_skipn j l) at 2.
  rewrite valDigits_app, length_skipn.
  assert (Hs : Forall (fun c => isDigit c = true) (skipn j l)).
  { rewrite <- (firstn_skipn j l) in Hd. apply Forall_app in Hd. tauto. }
  pose proof (valDigits_upper _ Hs) as Hup. rewrite length_skipn in Hup.
  assert (Hp : (10 ^ N.of_nat (length l - j) <> 0)%N) by (apply N.pow_nonzero; lia).
  rewrite N.div_add_l by exact Hp. rewrite (N.div_small _ _ Hup). lia.
Qed.

(** The printed form of a number with a fraction and an integer part of
    at least one digit: the digits of the integer part, a dot, and the
    digits of the fraction. *)
Lemma toString_fraction (m : positive) (e : Z) :
  (e < 0)%Z ->
  (10 ^ Z.to_N (- e) <= N.pos m)%N ->
  (N.pos m mod 10 ^ Z.to_N (- e) <> 0)%N ->
  (N.pos m / 10 ^ Z.to_N (- e) < 2 ^ 53)%N ->
  exists ip fp,
    toString (Fin false m e) = string_of_list_ascii (ip ++ "."%char :: fp)
    /\ Forall (fun c => isDigit c = true) ip /\ ip <> []
    /\ valDigits ip = (N.pos m / 10 ^ Z.to_N (- e))%N.
Proof.
  intros He Hge Hfrac Hlt.
  destruct (digitsOfN_spec (N.pos m)) as (Hv & Hd & _).
  pose proof (digitsOfN_head (N.pos m) ltac:(discriminate)) as Hs.
  pose proof (valDigits_upper _ Hd) as Hup. rewrite Hv in Hup.
  set (ds0 := digitsOfN (N.pos m)) in *.
  assert (HL : (Z.to_N (- e) < N.of_nat (length ds0))%N).
  { apply (N.pow_lt_mono_r_iff 10); lia. }
  set (j := length ds0 - Z.to_nat (- e)).
  assert (Hj : 0 < j <= length ds0) by (unfold j; lia).
  assert (Hvj : valDigits (firstn j ds0) = (N.pos m / 10 ^ Z.to_N (- e))%N).
  { rewrite (valDigits_firstn ds0 j Hd), Hv. f_equal. f_equal. unfold j. lia. }
  assert (Hdj : Forall (fun c => isDigit c = true) (firstn j ds0)).
  { rewrite <- (firstn_skipn j ds0) in Hd. apply Forall_app in Hd. tauto. }
  assert (Hsj : startsNonZero (firstn j ds0)).
  { destruct Hs as (c & rest & E & Hz). rewrite E.
    destruct j as [|j']; [lia|]. exists c, (firstn j' rest). auto. }
  assert (Hj16 : j <= 16).
  { pose proof (valDigits_lower _ Hdj Hsj) as Hlow. rewrite Hvj in Hlow.
    rewrite length_firstn in Hlow.
    destruct (le_lt_dec j 16) as [H|H]; [exact H|exfalso].
    assert (Hpow : (10 ^ 16 <= 10 ^ N.of_nat (Nat.min j (length ds0) - 1))%N).
    { apply N.pow_le_mono_r; lia. }
    assert (Hc : (2 ^ 53 < 10 ^ 16)%N) by reflexivity.
    lia. }
  destruct (trailing_zeros_split _ Hs) as (front & c & z & Hl & Hc & _).
  assert (Hz : z < Z.to_nat (- e)).
  { destruct (le_lt_dec (Z.to_nat (- e)) z) as [H|H]; [exfalso|exact H].
    apply Hfrac. rewrite <- Hv. fold ds0. rewrite Hl, valDigits_zeros.
    replace (N.of_nat z) with (N.of_nat (z - Z.to_nat (- e)) + Z.to_N (- e))%N by lia.
    rewrite N.pow_add_r, N.mul_assoc. apply N.Div0.mod_mul. }
  assert (Hlen : length ds0 = length (front ++ [c]) + z).
  { rewrite Hl, length_app, repeat_length. reflexivity. }
  exists (firstn j ds0), (skipn j (front ++ [c])).
  split; [|split; [exact Hdj|split; [|exact Hvj]]].
  - unfold toString. fold ds0. rewrite Hl at 1.
    rewrite (stripTrailingZeros_app front c z Hc). unfold layout.
    set (k := length (front ++ [c])) in *.
    destruct (Z.ltb_spec 0 (Z.of_nat (length ds0) + e)) as [_|]; [|lia].
    destruct (Z.leb_spec (Z.of_nat (length ds0) + e) 21) as [_|]; [|lia].
    cbn [andb].
    destruct (Z.leb_spec (Z.of_nat k) (Z.of_nat (length ds0) + e)) as [|_]; [lia|].
    replace (Z.to_nat (Z.of_nat (length ds0) + e)) with j by (unfold j; lia).
    f_equal. f_equal. rewrite Hl.
    rewrite (firstn_app j (front ++ [c]) (repeat "0"%char z)).
    replace (j - length (front ++ [c])) with 0 by (fold k; lia).
    simpl. symmetry. apply app_nil_r.
  - destruct Hsj as (c1 & rest & E & _). rewrite E. discriminate.
Qed.

Lemma recoverDuration_fraction (files : list string) (m : positive) (e : Z)
    (seq : string) (fin : bool) :
  (e < 0)%Z ->
  (10 ^ Z.to_N (- e) <= N.pos m)%N ->
  (N.pos m mod 10 ^ Z.to_N (- e) <> 0)%N ->
  (N.pos m / 10 ^ Z.to_N (- e) < 2 ^ 53)%N ->
  recoverDuration (Some (playlistText files (Fin false m e) seq fin))
  = ofN (N.pos m / 10 ^ Z.to_N (- e)).
Proof.
  intros He Hge Hfrac Hlt.
  destruct (toString_fraction m e He Hge Hfrac Hlt) as (ip & fp & Hts & Hd & Hne & Hv).
  unfold recoverDuration.
  rewrite playlistText_shape, Hts, string_of_list_ascii_app, append_assoc.
  rewrite matchTargetDuration_generated;
    [|apply allDigits_string_of_list, Hd|apply isEmpty_string_of_list, Hne
     |reflexivity].
  rewrite (isEmpty_string_of_list ip Hne).
  rewrite parseInt_digits
    by (apply allDigits_string_of_list, Hd || apply isEmpty_string_of_list, Hne).
  unfold digitsValue. rewrite list_ascii_of_string_of_list_ascii, Hv.
  rewrite (roundToDouble_exact _ Hlt). reflexivity.
Qed.

(** The printed form of a number below one that is at least 10^-6. *)
Lemma toString_subsecond (m : positive) (e : Z) :
  (e < 0)%Z ->
  (N.pos m < 10 ^ Z.to_N (- e))%N ->
  (10 ^ Z.to_N (- e) <= N.pos m * 10 ^ 6)%N ->
  exists fp, toString (Fin false m e)
             = string_of_list_ascii ("0"%char :: "."%char :: fp).
Proof.
  intros He Hlt Hge.
  destruct (digitsOfN_spec (N.pos m)) as (Hv & Hd & _).
  pose proof (digitsOfN_head (N.pos m) ltac:(discriminate)) as Hs.
  pose proof (valDigits_upper _ Hd) as Hup. rewrite Hv in Hup.
  pose proof (valDigits_lower _ Hd Hs) as Hlow. rewrite Hv in Hlow.
  set (ds0 := digitsOfN (N.pos m)) in *.
  assert (H1 : (N.of_nat (length ds0 - 1) < Z.to_N (- e))%N).
  { apply (N.pow_lt_mono_r_iff 10); lia. }
  assert (H2 : (Z.to_N (- e) < N.of_nat (length ds0) + 6)%N).
  { apply (N.pow_lt_mono_r_iff 10); [lia|]. rewrite N.pow_add_r. nia. }
  assert (H0 : 0 < length ds0).
  { destruct Hs as (c & rest & E & _). rewrite E. simpl. lia. }
  unfold toString. fold ds0. unfold layout.
  destruct (Z.ltb_spec 0 (Z.of_nat (length ds0) + e)) as [|_]; [lia|].
  cbn [andb].
  destruct (Z.ltb_spec (-6) (Z.of_nat (length ds0) + e)) as [_|]; [|lia].
  destruct (Z.leb_spec (Z.of_nat (length ds0) + e) 0) as [_|]; [|lia].
  cbn [andb]. eexists. reflexivity.
Qed.

Lemma recoverDuration_subsecond (files : list string) (m : positive) (e : Z)
    (seq : string) (fin : bool) :
  (e < 0)%Z ->
  (N.pos m < 10 ^ Z.to_N (- e))%N ->
  (10 ^ Z.to_N (- e) <= N.pos m * 10 ^ 6)%N ->
  recoverDuration (Some (playlistText files (Fin false m e) seq fin)) = Zero false.
Proof.
  intros He Hlt Hge.
  destruct (toString_subsecond m e He Hlt Hge) as (fp & Hts).
  unfold recoverDuration. rewrite playlistText_shape, Hts.
  change (string_of_list_ascii ("0"%char :: "."%char :: fp))
    with ("0" ++ String "."%char (string_of_list_ascii fp)).
  rewrite append_assoc.
  rewrite matchTargetDuration_generated by reflexivity.
  reflexivity.
Qed.

(** The registry entry a restart gives a session whose last accepted
    request was the upload of a numbered fragment. *)
Lemma restart_after_upload (now id chunkId : string) (req : ChunkUploadRequest)
    (st : server) :
  isFirstOf req = false ->
  status (fst (uploadChunk now id chunkId req st)) = 200 ->
  exists files md,
    sessionMetadata (restart (snd (uploadChunk now id chunkId req st))) !! id = Some md
    /\ segmentDuration md
       = recoverDuration
           (Some (playlistText files (resolveDuration st id) chunkId false)).
Proof.
  intros Hfirst H200.
  destruct (uploadChunk_200_inv _ _ _ _ _ H200) as (f & Hf & Hn & Hfile & Hext).
  rewrite Hfirst in Hext.
  rewrite (uploadChunk_segment_result now _ _ _ _ _ Hf Hn Hfirst Hext Hfile).
  cbn [reply snd]. rewrite restart_lookup.
  unfold afterSegmentUpload. cbn [storage]. rewrite lookup_insert_eq.
  eexists _, _. split; [reflexivity|].
  unfold recoveredMetadata. cbn [segmentDuration].
  rewrite readEntry_writeEntry_same. reflexivity.
Qed.

(** X18.  A fractional duration loses its fraction at a restart: when
    the session id is one path component and the registered duration has
    a fraction and an integer part of at least one, the scan after a
    restart registers the integer part (here below 2^53), and that is the
    duration playlists are generated with from then on. *)
Theorem restart_truncates_fractional_duration
    (now id chunkId : string) (req : ChunkUploadRequest) (st : server)
    (md : SessionMetadata) (m : positive) (e : Z) :
  plainComponent id = true ->
  sessionMetadata st !! id = Some md ->
  segmentDuration md = Fin false m e ->
  (e < 0)%Z ->
  (10 ^ Z.to_N (- e) <= N.pos m)%N ->
  (N.pos m mod 10 ^ Z.to_N (- e) <> 0)%N ->
  (N.pos m / 10 ^ Z.to_N (- e) < 2 ^ 53)%N ->
  isFirstOf req = false ->
  status (fst (uploadChunk now id chunkId req st)) = 200 ->
  resolveDuration (restart (snd (uploadChunk now id chunkId req st))) id
  = ofN (N.pos m / 10 ^ Z.to_N (- e)).
Proof.
  intros _ Hmd Hd He Hge Hfrac Hlt Hfirst H200.
  destruct (restart_after_upload now id chunkId req st Hfirst H200)
    as (files & md' & Hmd' & Hd').
  rewrite (resolveDuration_registered st id md Hmd) in Hd' by (rewrite Hd; reflexivity).
  rewrite Hd, (recoverDuration_fraction files m e chunkId false He Hge Hfrac Hlt) in Hd'.
  assert (Hq : (N.pos m / 10 ^ Z.to_N (- e) <> 0)%N).
  { intros E. apply N.div_small_iff in E; [lia|]. apply N.pow_nonzero. lia. }
  rewrite (resolveDuration_registered _ id md' Hmd'); rewrite Hd'; [reflexivity|].
  destruct (N.pos m / 10 ^ Z.to_N (- e))%N; [congruence|reflexivity].
Qed.

Lemma restart_truncates_fractional_duration_witness :
  resolveDuration
    (restart (snd (uploadChunk "t3" "u-1" "1" (chunkForm false "chunk1.mp4" "k")
                     fractionalServer))) "u-1"
  = Fin false 2 0.
Proof.
  apply (restart_truncates_fractional_duration "t3" "u-1" "1"
           (chunkForm false "chunk1.mp4" "k") fractionalServer
           {| sessionId := "u-1"; segmentDuration := Fin false 25 (-1);
              createdAt := "t0" |} 25 (-1)).
  - reflexivity.
  - vm_compute. reflexivity.
  - reflexivity.
  - lia.
  - vm_compute. discriminate.
  - vm_compute. discriminate.
  - vm_compute. reflexivity.
  - reflexivity.
  - vm_compute. reflexivity.
Defined.

(** X19.  A duration below one second is replaced by the default at a
    restart: for a session id that is one path component, the scan reads
    the digit before the dot, registers zero, and the generator falls back
    to the default duration for the session. *)
Theorem restart_resets_subsecond_duration
    (now id chunkId : string) (req : ChunkUploadRequest) (st : server)
    (md : SessionMetadata) (m : positive) (e : Z) :
  plainComponent id = true ->
  sessionMetadata st !! id = Some md ->
  segmentDuration md = Fin false m e ->
  (e < 0)%Z ->
  (N.pos m < 10 ^ Z.to_N (- e))%N ->
  (10 ^ Z.to_N (- e) <= N.pos m * 10 ^ 6)%N ->
  isFirstOf req = false ->
  status (fst (uploadChunk now id chunkId req st)) = 200 ->
  segmentDuration
    <$> sessionMetadata (restart (snd (uploadChunk now id chunkId req st))) !! id
  = Some (Zero false)
  /\ resolveDuration (restart (snd (uploadChunk now id chunkId req st))) id
     = DEFAULT_SEGMENT_DURATION.
Proof.
  intros _ Hmd Hd He Hlt Hge Hfirst H200.
  destruct (restart_after_upload now id chunkId req st Hfirst H200)
    as (files & md' & Hmd' & Hd').
  rewrite (resolveDuration_registered st id md Hmd) in Hd' by (rewrite Hd; reflexivity).
  rewrite Hd, (recoverDuration_subsecond files m e chunkId false He Hlt Hge) in Hd'.
  split.
  - rewrite Hmd'. cbn. rewrite Hd'. reflexivity.
  - unfold resolveDuration, getSessionMetadata. rewrite Hmd', Hd'. reflexivity.
Qed.

Lemma restart_resets_subsecond_duration_witness :
  resolveDuration
    (restart
       (snd (uploadChunk "t1" "u-1" "1" (chunkForm false "chunk1.mp4" "k")
               (snd (createSession "http://h" "u-1" "t0"
                       (createRequest (JNumber (Fin false 5 (-1)))) emptyServer)))))
    "u-1"
  = Fin false 5 0.
Proof.
  destruct (restart_resets_subsecond_duration "t1" "u-1" "1"
              (chunkForm false "chunk1.mp4" "k")
              (snd (createSession "http://h" "u-1" "t0"
                      (createRequest (JNumber (Fin false 5 (-1)))) emptyServer))
              {| sessionId := "u-1"; segmentDuration := Fin false 5 (-1);
                 createdAt := "t0" |} 5 (-1))
    as [_ H].
  - reflexivity.
  - vm_compute. reflexivity.
  - reflexivity.
  - lia.
  - vm_compute. reflexivity.
  - vm_compute. discriminate.
  - reflexivity.
  - vm_compute. reflexivity.
  - exact H.
Defined.

(** ** Finalizing again, and the list after a restart *)

(** X20.  A second finalize rewrites the playlist with the default
    duration: the first one removed the session from the registry, so
    the playlist served after the second is the closed playlist of the
    directory generated with the default duration, whatever duration the
    session was created with. *)
Theorem second_finalize_uses_default (baseUrl id : string) (st : server) :
  status (fst (finalize baseUrl id st)) = 200 ->
  status (fst (finalize baseUrl id (snd (finalize baseUrl id st)))) = 200
  /\ exists files,
       readdir (snd (finalize baseUrl id (snd (finalize baseUrl id st)))) id
       = Some files
       /\ getPlaylist id (snd (finalize baseUrl id (snd (finalize baseUrl id st))))
          = Served "application/vnd.apple.mpegurl"
              (playlistText files DEFAULT_SEGMENT_DURATION "0" true).
Proof.
  intros H200. pose proof (finalize_status_cases baseUrl id st) as Hc.
  destruct (storage st !! id) as [[c|t es]|] eqn:E;
    try (rewrite Hc in H200; discriminate H200).
  rewrite (finalize_dir _ _ _ _ _ E). cbn [reply snd].
  set (text := playlistText (map fst es) (resolveDuration st id) "0" true).
  set (st1 := {| storage := <[id := Dir t (writeEntry "playlist.m3u8" text es)]>
                              (storage st);
                 sessionMetadata := delete id (sessionMetadata st) |}).
  assert (E1 : storage st1 !! id = Some (Dir t (writeEntry "playlist.m3u8" text es))).
  { unfold st1. cbn [storage]. apply lookup_insert_eq. }
  rewrite (finalize_dir _ _ _ _ _ E1). cbn [reply snd fst status].
  split; [reflexivity|]. eexists. split.
  - unfold readdir. cbn [storage]. rewrite lookup_insert_eq. reflexivity.
  - unfold getPlaylist, accessFile, readFile. cbn [storage].
    rewrite lookup_insert_eq, readEntry_writeEntry_same. cbn [negb].
    rewrite !(playlistText_write_ignored "playlist.m3u8")
      by (apply playlist_name_not_init || apply playlist_name_not_chunk).
    rewrite (resolveDuration_unregistered st1 id); [reflexivity|].
    unfold st1. cbn [sessionMetadata]. apply lookup_delete_eq.
Qed.

Lemma second_finalize_uses_default_witness :
  exists files,
    readdir (snd (finalize "http://h" "s1" (snd (finalize "http://h" "s1" sampleServer))))
      "s1" = Some files
    /\ getPlaylist "s1"
         (snd (finalize "http://h" "s1" (snd (finalize "http://h" "s1" sampleServer))))
       = Served "application/vnd.apple.mpegurl"
           (playlistText files (Fin false 5 0) "0" true).
Proof.
  destruct (second_finalize_uses_default "http://h" "s1" sampleServer) as [_ H].
  - vm_compute. reflexivity.
  - exact H.
Defined.

(** X21.  After a restart the session list has one entry for each
    directory of the storage root and no other: sessions that were
    finalized, or whose creation was rejected, are listed again, and
    stray files are not. *)
Theorem restart_lists_directories (baseUrl : string) (st : server) (k : string) :
  is_Some (listSessions baseUrl (restart st) !! k)
  <-> exists t es, storage st !! k = Some (Dir t es).
Proof.
  rewrite listSessions_lookup, restart_lookup.
  destruct (storage st !! k) as [[c|t es]|]; split.
  - intros [x Hx]. discriminate Hx.
  - intros (t & es & H). discriminate H.
  - intros _. exists t, es. reflexivity.
  - intros _. eexists. reflexivity.
  - intros [x Hx]. discriminate Hx.
  - intros (t & es & H). discriminate H.
Qed.

(** [getBaseUrl] behind the reverse proxy and without it. *)
Example ex_getBaseUrl_forwarded :
  getBaseUrl {| forwardedProto := "https"; forwardedHost := "video.example.org";
                protocol := "http"; host := "127.0.0.1:3000" |}
  = "https://video.example.org".
Proof. reflexivity. Qed.

Example ex_getBaseUrl_direct :
  getBaseUrl {| forwardedProto := ""; forwardedHost := "";
                protocol := "http"; host := "127.0.0.1:3000" |}
  = "http://127.0.0.1:3000".
Proof. reflexivity. Qed.

(** ** Fragments with the same index *)

Section StableByKey.
Context {A : Type} (cmp : A -> A -> number) (key : A -> option N).
Hypothesis cmp_key : forall x y, gtZero (cmp x y) = keyLtb (key y) (key x).
Variable k : option N.

Let hasKey (x : A) : bool := bool_decide (key x = k).

Lemma keyLtb_irrefl (a : option N) : keyLtb a a = false.
Proof. destruct a; simpl; [apply N.ltb_irrefl|reflexivity]. Qed.

Lemma insertSorted_filter_key (x : A) (l : list A) :
  List.filter hasKey (insertSorted cmp x l) = List.filter hasKey (x :: l).
Proof.
  induction l as [|y l IH]; [reflexivity|].
  cbn [insertSorted]. rewrite cmp_key.
  destruct (keyLtb (key y) (key x)) eqn:E; [|reflexivity].
  cbn [List.filter] in *. rewrite IH. unfold hasKey.
  destruct (bool_decide_reflect (key y = k)) as [Hy|_];
    destruct (bool_decide_reflect (key x = k)) as [Hx|_]; try reflexivity.
  rewrite Hx, Hy, keyLtb_irrefl in E. discriminate E.
Qed.

Lemma sortWith_filter_key (l : list A) :
  List.filter hasKey (sortWith cmp l) = List.filter hasKey l.
Proof.
  induction l as [|x l IH]; [reflexivity|].
  cbn [sortWith]. rewrite insertSorted_filter_key.
  cbn [List.filter]. rewrite IH. reflexivity.
Qed.
End StableByKey.

(** X22.  Fragments whose names give the same index (chunk1.mp4 and
    chunk01.m4s, say) are listed in the order the directory listing has
    them: the sort moves a fragment only past fragments with a smaller
    index. *)
Theorem segments_ties_keep_listing_order (files : list string) (k : option N) :
  List.filter (fun f => bool_decide (chunkKey f = k)) (segmentFilesOf files)
  = List.filter (fun f => bool_decide (chunkKey f = k))
      (List.filter isChunkFile files).
Proof.
  unfold segmentFilesOf.
  apply (sortWith_filter_key compareChunks chunkKey compareChunks_positive k).
Qed.
